(** * fileskadis: page-range parsing, region masking and the redaction session

    A shallow embedding of the Python sources
      - [fileskadis/core/separator.py]  ([parse_page_range], [Separator]),
      - [fileskadis/core/masker.py]     ([Region], [Masker]),
      - [fileskadis/core/utils.py]      (the validators),
      - [fileskadis/core/aggregator.py] ([Aggregator.merge]),
      - [fileskadis/ui/app.py]          ([FileskadisApp], the handlers of the
                                         mask tab and of the separate tab),
    the properties of the specification proved (or refuted) on it, and
    further properties of the code.

    Conventions.  Python [int] is [Z].  A Python [str] is a Rocq [string] whose
    characters are read as the code points 0..255 (the two characters beyond
    that range in the messages of the user interface stand as their UTF-8
    bytes).  Python objects that are
    mutated in place (PIL images, the [pages] set, the application object) live
    in an explicit state that is threaded by the monad [M]; an exception leaves
    the state as it was when it was raised. *)

From Stdlib Require Import ZArith Lia Bool List Ascii String Sorting.Sorted.
From stdpp Require Import base option list sorting gmap strings pretty.

Local Open Scope string_scope.
Local Open Scope list_scope.
Local Open Scope Z_scope.

(** ** Exceptions and the state-and-exception monad *)

Inductive exn : Type :=
  | ValueError (msg : string)
  | OverflowError (msg : string)
  | IndexError (msg : string)
  | FileNotFoundError (msg : string)
  | ReferenceError (msg : string).

(** [str(e)]. *)
Definition exn_msg (e : exn) : string :=
  match e with
  | ValueError m | OverflowError m | IndexError m
  | FileNotFoundError m | ReferenceError m => m
  end.

(** A computation over a mutable state [S] that returns an [A] or raises. *)
Definition M (S A : Type) : Type := S -> S * (exn + A).

Definition ret {S A} (a : A) : M S A := fun s => (s, inr a).
Definition raise {S A} (e : exn) : M S A := fun s => (s, inl e).
Definition bind {S A B} (m : M S A) (k : A -> M S B) : M S B :=
  fun s => match m s with
           | (s', inr a) => k a s'
           | (s', inl e) => (s', inl e)
           end.
Definition get {S} : M S S := fun s => (s, inr s).
Definition modify {S} (f : S -> S) : M S unit := fun s => (f s, inr tt).

(** [try: m except e: h e]. *)
Definition try_except {S A} (m : M S A) (h : exn -> M S A) : M S A :=
  fun s => match m s with
           | (s', inl e) => h e s'
           | r => r
           end.

(** A value or an exception computed without touching the state. *)
Definition lift {S A} (r : exn + A) : M S A := fun s => (s, r).

Notation "'let*' x ':=' m 'in' k" := (bind m (fun x => k))
  (at level 10, x name, m at level 100, k at level 200).
Notation "'let*' ' p ':=' m 'in' k" := (bind m (fun x => match x with p => k end))
  (at level 10, p pattern, m at level 100, k at level 200).

(** [for x in xs: body x]; a [continue] in the body is [ret tt]. *)
Fixpoint for_ {S A} (xs : list A) (body : A -> M S unit) : M S unit :=
  match xs with
  | [] => ret tt
  | x :: xs' => let* _ := body x in for_ xs' body
  end.

(** [range(start, stop)]. *)
Definition range (start stop : Z) : list Z := seqZ start (stop - start).

(** ** Python strings *)

Module PyStr.

Definition code (c : ascii) : N := N_of_ascii c.

(** [str.isspace] on one character, for the code points below 256:
    TAB..CR, FS..US, SPACE, NEL (0x85) and NBSP (0xA0). *)
Definition isspace (c : ascii) : bool :=
  let n := code c in
  ((9 <=? n) && (n <=? 13) || (28 <=? n) && (n <=? 32) || (n =? 133) || (n =? 160))%N.

(** [str.isdecimal] on one character (the class [\d] and what [int] reads):
    below 256 these are the ASCII digits. *)
Definition isdecimal (c : ascii) : bool :=
  let n := code c in ((48 <=? n) && (n <=? 57))%N.

Definition digit_value (c : ascii) : Z := Z.of_N (code c) - 48.

(** Longest prefix whose characters satisfy [p], and the rest. *)
Fixpoint span (p : ascii -> bool) (s : string) : string * string :=
  match s with
  | EmptyString => (EmptyString, EmptyString)
  | String c r =>
      if p c then let '(a, b) := span p r in (String c a, b)
      else (EmptyString, s)
  end.

Fixpoint lstrip (s : string) : string :=
  match s with
  | String c r => if isspace c then lstrip r else s
  | EmptyString => EmptyString
  end.

(** [s.rstrip()]: a character is kept when it is not a space or when
    something is kept after it. *)
Fixpoint rstrip (s : string) : string :=
  match s with
  | EmptyString => EmptyString
  | String c r =>
      match rstrip r with
      | EmptyString => if isspace c then EmptyString else String c EmptyString
      | r' => String c r'
      end
  end.

(** [s.strip()]. *)
Definition strip (s : string) : string := rstrip (lstrip s).

(** [s.split(sep)] for a one-character separator: never empty. *)
Fixpoint split (sep : ascii) (s : string) : list string :=
  match s with
  | EmptyString => [EmptyString]
  | String c r =>
      if Ascii.eqb c sep then EmptyString :: split sep r
      else match split sep r with
           | [] => [String c EmptyString]
           | w :: ws => String c w :: ws
           end
  end.

(** [c in s] for a one-character [c]. *)
Fixpoint contains (c : ascii) (s : string) : bool :=
  match s with
  | EmptyString => false
  | String d r => Ascii.eqb d c || contains c r
  end.

(** Every character of [s] satisfies [p]. *)
Fixpoint forallb (p : ascii -> bool) (s : string) : bool :=
  match s with
  | EmptyString => true
  | String c r => p c && forallb p r
  end.

(** The first character of [s] satisfies [p]. *)
Definition starts_with (p : ascii -> bool) (s : string) : bool :=
  match s with
  | EmptyString => false
  | String c _ => p c
  end.

(** Truthiness of a string. *)
Definition truthy (s : string) : bool :=
  match s with EmptyString => false | _ => true end.

(** The digits of an [int] literal: groups of decimal digits separated by
    single underscores.  [acc] is the value read so far and [after_digit]
    tells whether the previous character was a digit. *)
Fixpoint int_body (s : string) (acc : Z) (after_digit : bool) : option Z :=
  match s with
  | EmptyString => if after_digit then Some acc else None
  | String c r =>
      if isdecimal c then int_body r (10 * acc + digit_value c) true
      else if Ascii.eqb c "_" && after_digit then int_body r acc false
      else None
  end.

(** The number of decimal digits in [s]. *)
Fixpoint count_digits (s : string) : Z :=
  match s with
  | EmptyString => 0
  | String c r => (if isdecimal c then 1 else 0) + count_digits r
  end.

(** The interpreter's limit on the digits of a decimal literal, at its
    default ([sys.get_int_max_str_digits()] is 4300), and the exception
    that [int] raises beyond it. *)
Definition max_str_digits : Z := 4300.

Definition digits_error (digits : Z) : exn :=
  ValueError ("Exceeds the limit (4300 digits) for integer string conversion: "
              +:+ "value has " +:+ pretty digits
              +:+ " digits; use sys.set_int_max_str_digits() to increase the limit").

(** [int(s)] in base 10: surrounding white space, an optional sign, then
    the digits; anything else is a [ValueError].  The interpreter reads the
    run of digits and underscores first and refuses a run of more than
    [max_str_digits] digits, then looks at what follows the run (the order
    of CPython 3.11; from 3.12 on what follows is looked at first, which
    changes the message of the [ValueError] for an overlong run with text
    behind it and nothing else). *)
Definition int (s : string) : exn + Z :=
  let t := strip s in
  let '(neg, body) :=
    match t with
    | String c r =>
        if Ascii.eqb c "-" then (true, r)
        else if Ascii.eqb c "+" then (false, r)
        else (false, t)
    | EmptyString => (false, t)
    end in
  let '(run, rest) := span (fun c => isdecimal c || Ascii.eqb c "_") body in
  match int_body run 0 false with
  | Some n =>
      if max_str_digits <? count_digits run
      then inl (digits_error (count_digits run))
      else match rest with
           | EmptyString => inr (if neg : bool then - n else n)
           | _ => inl (ValueError ("invalid literal for int() with base 10: '"
                                   +:+ s +:+ "'"))
           end
  | None => inl (ValueError ("invalid literal for int() with base 10: '" +:+ s +:+ "'"))
  end.

(** [re.match(r"(\d+)\s*-\s*(\d+)", s)]: the two groups of a match anchored at
    the start of [s] (anything may follow the second group).  The classes
    [\d], [\s] and the character [-] are pairwise disjoint, so the greedy
    match is the only one and no backtracking can produce another. *)
Definition re_match_range (s : string) : option (string * string) :=
  let '(g1, r1) := span isdecimal s in
  match g1 with
  | EmptyString => None
  | _ =>
      let '(_, r2) := span isspace r1 in
      match r2 with
      | String c r3 =>
          if Ascii.eqb c "-" then
            let '(_, r4) := span isspace r3 in
            let '(g2, _) := span isdecimal r4 in
            match g2 with
            | EmptyString => None
            | _ => Some (g1, g2)
            end
          else None
      | EmptyString => None
      end
  end.

(** [str.lower] on one character, for the code points below 256: the
    letters A..Z and the capital letters of Latin-1 (0xC0..0xDE without the
    multiplication sign 0xD7) move up by 32. *)
Definition lower_char (c : ascii) : ascii :=
  let n := code c in
  if ((65 <=? n) && (n <=? 90)
      || (192 <=? n) && (n <=? 222) && negb (n =? 215))%N
  then ascii_of_N (n + 32) else c.

Fixpoint lower (s : string) : string :=
  match s with
  | EmptyString => EmptyString
  | String c r => String (lower_char c) (lower r)
  end.

End PyStr.

(** ** separator.py *)

(** [sorted(pages)] for a set of integers. *)
Definition sorted (pages : gset Z) : list Z := merge_sort Z.le (elements pages).

(** The body of the loop of [parse_page_range] for one part; the state is the
    local set [pages]. *)
Definition parse_part (max_pages : Z) (part : string) : M (gset Z) unit :=
  if PyStr.contains "-" part then
    match PyStr.re_match_range part with
    | Some (g1, g2) =>
        let* start := lift (PyStr.int g1) in
        let* end_ := lift (PyStr.int g2) in
        for_ (range start (end_ + 1)) (fun i =>
          if (1 <=? i) && (i <=? max_pages)
          then modify (fun pages => {[ i - 1 ]} ∪ pages)
          else ret tt)
    | None => ret tt
    end
  else
    try_except
      (let* page := lift (PyStr.int part) in
       if (1 <=? page) && (page <=? max_pages)
       then modify (fun pages => {[ page - 1 ]} ∪ pages)
       else ret tt)
      (fun e => match e with
                | ValueError _ => ret tt
                | _ => raise e
                end).

(** The parts of the range string: split at commas, stripped, empty ones
    dropped. *)
Definition parts_of (range_str : string) : list string :=
  List.filter PyStr.truthy (List.map PyStr.strip (PyStr.split "," range_str)).

Definition parse_page_range (range_str : string) (max_pages : Z) : exn + list Z :=
  snd ((let* _ := for_ (parts_of range_str) (parse_part max_pages) in
        let* pages := get in
        ret (sorted pages)) ∅).

(** The 1-indexed page numbers that [parse_part] reads from a part: the
    integer [int] makes of a part without a dash, or the numbers between the
    two groups of the range pattern. *)
Definition selects (part : string) (n : Z) : Prop :=
  if PyStr.contains "-" part then
    exists g1 g2 a b,
      PyStr.re_match_range part = Some (g1, g2)
      /\ PyStr.int g1 = inr a /\ PyStr.int g2 = inr b /\ a <= n <= b
  else PyStr.int part = inr n.

(** The exception that the loop body raises for a part: that of [int] on
    a group of the range pattern.  (What [int] raises on a part without a
    dash is caught.) *)
Definition part_error (part : string) : option exn :=
  if PyStr.contains "-" part then
    match PyStr.re_match_range part with
    | Some (g1, g2) =>
        match PyStr.int g1 with
        | inl e => Some e
        | inr _ => match PyStr.int g2 with
                   | inl e => Some e
                   | inr _ => None
                   end
        end
    | None => None
    end
  else None.

(** The exception of the first part that raises. *)
Fixpoint first_error (parts : list string) : option exn :=
  match parts with
  | [] => None
  | part :: rest =>
      match part_error part with
      | Some e => Some e
      | None => first_error rest
      end
  end.

(** A part is a range with a numeral of more than [max_str_digits]
    digits. *)
Definition overlong (part : string) : bool :=
  PyStr.contains "-" part
  && match PyStr.re_match_range part with
     | Some (g1, g2) =>
         (PyStr.max_str_digits <? Z.of_nat (String.length g1))
         || (PyStr.max_str_digits <? Z.of_nat (String.length g2))
     | None => false
     end.

(** *** The page-range syntax in the words of the specification

    "comma-separated tokens, each either a single 1-indexed integer or an
    inclusive start-end range": a token is well formed when it is an integer,
    or two integers around one dash. *)
Module PageRangeSpec.

Definition is_integer (s : string) : bool :=
  match PyStr.int s with inr _ => true | inl _ => false end.

Definition well_formed (token : string) : bool :=
  is_integer token
  || match PyStr.split "-" token with
     | [a; b] => is_integer a && is_integer b
     | _ => false
     end.

(** "malformed tokens are silently dropped": a range string that is one
    malformed token selects no page. *)
Definition drops_malformed_tokens : Prop :=
  forall (token : string) (max_pages : Z),
    PyStr.contains "," token = false ->
    well_formed (PyStr.strip token) = false ->
    parse_page_range token max_pages = inr [].

End PageRangeSpec.

(** ** Python floats

    A finite double is [m * 2^e]; the representation is kept canonical ([m]
    odd, or [m = 0] and [e = 0]) so that equal doubles are equal terms.  The
    sign of zero is not represented. *)

Module PyFloat.

Inductive float : Type :=
  | Finite (m e : Z)
  | Inf (neg : bool)
  | NaN.

Fixpoint strip_zeros (p : positive) (e : Z) : positive * Z :=
  match p with
  | xO q => strip_zeros q (e + 1)
  | _ => (p, e)
  end.

Definition canon (m e : Z) : float :=
  match m with
  | Z0 => Finite 0 0
  | Zpos p => let '(q, e') := strip_zeros p e in Finite (Zpos q) e'
  | Zneg p => let '(q, e') := strip_zeros p e in Finite (Zneg q) e'
  end.

(** [a / 2^k] rounded to the nearest integer, ties to even ([0 <= a], [0 < k]). *)
Definition round_half_even (a k : Z) : Z :=
  let q := a / 2 ^ k in
  let r := a mod 2 ^ k in
  let half := 2 ^ (k - 1) in
  if r <? half then q
  else if half <? r then q + 1
  else if Z.even q then q else q + 1.

(** The double nearest to [m * 2^e] (53 bits of precision, least exponent
    -1074, infinite from 2^1024 on). *)
Definition round (m e : Z) : float :=
  let a := Z.abs m in
  let k := Z.max (Z.log2 a + 1 - 53) (- 1074 - e) in
  let '(a', e') := if 0 <? k then (round_half_even a k, e + k) else (a, e) in
  if a' =? 0 then Finite 0 0
  else if 1024 <=? Z.log2 a' + e' then Inf (m <? 0)
  else canon (Z.sgn m * a') e'.

Definition is_zero (x : float) : bool :=
  match x with Finite 0 _ => true | _ => false end.

Definition is_neg (x : float) : bool :=
  match x with Finite m _ => m <? 0 | Inf s => s | NaN => false end.

(** [x * y]. *)
Definition mul (x y : float) : float :=
  match x, y with
  | NaN, _ | _, NaN => NaN
  | Finite m1 e1, Finite m2 e2 => round (m1 * m2) (e1 + e2)
  | _, _ =>
      if is_zero x || is_zero y then NaN
      else Inf (xorb (is_neg x) (is_neg y))
  end.

(** [float(z)]. *)
Definition of_int (z : Z) : exn + float :=
  match round z 0 with
  | Inf _ => inl (OverflowError "int too large to convert to float")
  | f => inr f
  end.

(** [int(x)]: truncation towards zero. *)
Definition to_int (x : float) : exn + Z :=
  match x with
  | Finite m e => inr (if 0 <=? e then m * 2 ^ e else Z.quot m (2 ^ (- e)))
  | Inf _ => inl (OverflowError "cannot convert float infinity to integer")
  | NaN => inl (ValueError "cannot convert float NaN to integer")
  end.

(** [z * x] for an [int] [z] and a [float] [x]. *)
Definition int_mul (z : Z) (x : float) : exn + float :=
  match of_int z with
  | inr f => inr (mul f x)
  | inl e => inl e
  end.

(** The representations of doubles. *)
Definition is_double (x : float) : bool :=
  match x with
  | Finite 0 e => e =? 0
  | Finite m e =>
      Z.odd m && (Z.log2 (Z.abs m) <? 53) && (- 1074 <=? e)
      && (Z.log2 (Z.abs m) + e <? 1024)
  | _ => true
  end.

Definition one : float := Finite 1 0.
Definition two : float := Finite 1 1.

(** [a / b] for two [int]s with [b] positive: the double nearest to the
    quotient.  The quotient is computed to 1100 bits below the leading bit
    of [1 / b], with one more bit that tells whether anything is left, so
    that [round] sees on which side of a rounding boundary the quotient
    lies. *)
Definition int_truediv (a : Z) (b : positive) : exn + float :=
  let k := 1100 + Z.log2 (Z.pos b) in
  let n := Z.abs a * 2 ^ k in
  let q := n / Z.pos b in
  let sticky := if n mod Z.pos b =? 0 then 0 else 1 in
  match round (Z.sgn a * (2 * q + sticky)) (- (k + 1)) with
  | Inf _ => inl (OverflowError "integer division result too large for a float")
  | f => inr f
  end.

End PyFloat.

(** ** PIL images

    An image value has a mode, a size and its pixels by rows; a pixel is the
    list of its bands.  Image objects are mutable and live in a heap of image
    values, addressed by their index. *)

Module PIL.

Inductive Mode : Type := L | RGB | RGBA.

Definition Mode_eqb (a b : Mode) : bool :=
  match a, b with
  | L, L | RGB, RGB | RGBA, RGBA => true
  | _, _ => false
  end.

Definition pixel : Type := list Z.

Record Image : Type := mkImage {
  mode : Mode;
  width : Z;
  height : Z;
  data : list (list pixel)
}.

Definition box : Type := (Z * Z * Z * Z)%type.

(** The pixel data has [height] rows of [width] pixels. *)
Definition wf (im : Image) : Prop :=
  Z.of_nat (length (data im)) = height im
  /\ Forall (fun row => Z.of_nat (length row) = width im) (data im).

(** [ImageColor.getcolor(color, mode)] for the two colour names the masker
    uses. *)
Definition getcolor (color : string) (m : Mode) : exn + pixel :=
  if String.eqb color "black" then
    inr match m with L => [0] | RGB => [0; 0; 0] | RGBA => [0; 0; 0; 255] end
  else if String.eqb color "white" then
    inr match m with L => [255] | RGB => [255; 255; 255] | RGBA => [255; 255; 255; 255] end
  else inl (ValueError ("unknown color specifier: '" +:+ color +:+ "'")).

Definition zero_pixel (m : Mode) : pixel :=
  match m with L => [0] | RGB => [0; 0; 0] | RGBA => [0; 0; 0; 0] end.

(** The pixel at column [x] of row [y], when there is one. *)
Definition getpixel (im : Image) (x y : Z) : option pixel :=
  if (x <? 0) || (y <? 0) then None
  else match data im !! Z.to_nat y with
       | Some row => row !! Z.to_nat x
       | None => None
       end.

(** Rewrites every stored pixel: [f x y p] replaces the pixel [p] at [(x, y)]. *)
Definition map_pixels (f : Z -> Z -> pixel -> pixel) (im : Image) : Image :=
  mkImage (mode im) (width im) (height im)
    (imap (fun j row => imap (fun i p => f (Z.of_nat i) (Z.of_nat j) p) row) (data im)).

(** [draw.rectangle(box, fill=ink)] on the pixels: the box includes both
    corner points; what falls outside the image is clipped. *)
Definition fill_rectangle (b : box) (ink : pixel) (im : Image) : Image :=
  let '(x0, y0, x1, y1) := b in
  map_pixels (fun x y p =>
    if (x0 <=? x) && (x <=? x1) && (y0 <=? y) && (y <=? y1) then ink else p) im.

(** [im.crop(box)] on the pixels: the box is half-open; pixels outside the
    source are zero. *)
Definition crop_pixels (b : box) (im : Image) : Image :=
  let '(x0, y0, x1, y1) := b in
  mkImage (mode im) (x1 - x0) (y1 - y0)
    (List.map (fun y =>
       List.map (fun x => default (zero_pixel (mode im)) (getpixel im x y))
                (seqZ x0 (x1 - x0)))
       (seqZ y0 (y1 - y0))).

(** [im.paste(src, box)] on the pixels: the half-open box takes the pixels
    of [src]. *)
Definition paste_pixels (src : Image) (b : box) (im : Image) : Image :=
  let '(x0, y0, x1, y1) := b in
  map_pixels (fun x y p =>
    if (x0 <=? x) && (x <? x1) && (y0 <=? y) && (y <? y1)
    then default p (getpixel src (x - x0) (y - y0)) else p) im.

(** [im.convert("RGB")] on one pixel. *)
Definition to_rgb_pixel (m : Mode) (p : pixel) : pixel :=
  match m, p with
  | L, [v] => [v; v; v]
  | RGBA, [r; g; b; _] => [r; g; b]
  | _, _ => p
  end.

Definition convert_rgb (im : Image) : Image :=
  mkImage RGB (width im) (height im)
    (List.map (List.map (to_rgb_pixel (mode im))) (data im)).

(** A point lies strictly inside a box, on the closed box, or strictly
    outside it. *)
Definition strictly_inside (b : box) (x y : Z) : Prop :=
  let '(x0, y0, x1, y1) := b in x0 < x < x1 /\ y0 < y < y1.

Definition strictly_outside (b : box) (x y : Z) : Prop :=
  let '(x0, y0, x1, y1) := b in x < x0 \/ x1 < x \/ y < y0 \/ y1 < y.

Definition on_box (b : box) (x y : Z) : bool :=
  let '(x0, y0, x1, y1) := b in
  (x0 <=? x) && (x <=? x1) && (y0 <=? y) && (y <=? y1).

(** A point lies in the half-open box that [crop] and [paste] use. *)
Definition within (b : box) (x y : Z) : bool :=
  let '(x0, y0, x1, y1) := b in
  (x0 <=? x) && (x <? x1) && (y0 <=? y) && (y <? y1).

(** *** The heap of image objects *)

Abbreviation loc := nat (only parsing).
Abbreviation heap := (list Image) (only parsing).

Definition deref (l : loc) : M heap Image :=
  fun h => match h !! l with
           | Some v => (h, inr v)
           | None => (h, inl (ReferenceError "no such image object"))
           end.

(** A new image object. *)
Definition alloc (v : Image) : M heap loc :=
  fun h => (h ++ [v], inr (length h)).

(** In-place update of an image object. *)
Definition update (l : loc) (f : Image -> Image) : M heap unit :=
  let* v := deref l in
  modify (fun h => <[ l := f v ]> h).

(** [im.copy()]. *)
Definition copy (im : loc) : M heap loc :=
  let* v := deref im in alloc v.

Definition get_width (im : loc) : M heap Z := let* v := deref im in ret (width v).
Definition get_height (im : loc) : M heap Z := let* v := deref im in ret (height v).
Definition get_mode (im : loc) : M heap Mode := let* v := deref im in ret (mode v).

(** [im.crop(box)]. *)
Definition crop (im : loc) (b : box) : M heap loc :=
  let '(x0, y0, x1, y1) := b in
  if x1 <? x0 then raise (ValueError "Coordinate 'right' is less than 'left'")
  else if y1 <? y0 then raise (ValueError "Coordinate 'lower' is less than 'upper'")
  else let* v := deref im in alloc (crop_pixels b v).

(** [im.paste(src, box)]: the size of [src] must be the size of the box. *)
Definition paste (im : loc) (src : loc) (b : box) : M heap unit :=
  let '(x0, y0, x1, y1) := b in
  let* s := deref src in
  if (width s =? x1 - x0) && (height s =? y1 - y0)
  then update im (paste_pixels s b)
  else raise (ValueError "images do not match").

(** [ImageDraw.Draw(im).rectangle(box, fill=color)]. *)
Definition draw_rectangle (im : loc) (b : box) (color : string) : M heap unit :=
  let '(x0, y0, x1, y1) := b in
  let* v := deref im in
  let* ink := lift (getcolor color (mode v)) in
  if x1 <? x0 then raise (ValueError "x1 must be greater than or equal to x0")
  else if y1 <? y0 then raise (ValueError "y1 must be greater than or equal to y0")
  else update im (fill_rectangle b ink).

(** [im.convert("RGB")]. *)
Definition convert (im : loc) : M heap loc :=
  let* v := deref im in alloc (convert_rgb v).

End PIL.

(** ** The services the code calls and the model takes as given *)

Class Services : Type := {
  (** a page of an opened PDF document *)
  Page : Type;
  (** [validate_pdf(path)] followed by [pdfium.PdfDocument(path)]: the pages
      of the document, or the exception either of them raises *)
  open_pdf : string -> exn + list Page;
  (** [page.render(scale=s).to_pil()]: the pixels of the rendered page *)
  render : Page -> PyFloat.float -> PIL.Image;
  (** [im.filter(ImageFilter.GaussianBlur(radius=r))]: the filtered pixels *)
  GaussianBlur : Z -> PIL.Image -> PIL.Image;
  (** [draw.rectangle(box, outline=colour, width=w)] *)
  outline_rectangle : PIL.box -> string -> Z -> PIL.Image -> PIL.Image;
  (** [draw.text(xy, text, fill=colour)] *)
  draw_text : Z * Z -> string -> string -> PIL.Image -> PIL.Image;
  (** [draw.ellipse(box, fill=colour, outline=colour)] *)
  draw_ellipse : PIL.box -> string -> string -> PIL.Image -> PIL.Image
}.

(** [seq[i]] for an index that is not negative. *)
Definition getitem {A} (xs : list A) (i : Z) : exn + A :=
  if i <? 0 then inl (IndexError "index out of range")
  else match xs !! Z.to_nat i with
       | Some a => inr a
       | None => inl (IndexError "index out of range")
       end.

(** [len(xs)]. *)
Definition len {A} (xs : list A) : Z := Z.of_nat (length xs).

(** A loop that builds a local value: [acc] after [for x in xs: acc = body acc x]. *)
Fixpoint foldM {S A B} (body : B -> A -> M S B) (xs : list A) (acc : B) : M S B :=
  match xs with
  | [] => ret acc
  | x :: xs' => let* acc' := body acc x in foldM body xs' acc'
  end.

(** A list comprehension whose element expression may raise. *)
Fixpoint traverse {A B} (f : A -> exn + B) (xs : list A) : exn + list B :=
  match xs with
  | [] => inr []
  | x :: xs' =>
      match f x with
      | inl e => inl e
      | inr b => match traverse f xs' with
                 | inl e => inl e
                 | inr bs => inr (b :: bs)
                 end
      end
  end.

(** ** masker.py *)

Module Region.

(** A rectangular region for masking (in image pixel coordinates). *)
Record t : Type := mk { x : Z; y : Z; width : Z; height : Z }.

(** [(left, top, right, bottom)]. *)
Definition box (self : t) : PIL.box :=
  (x self, y self, x self + width self, y self + height self).

(** The coordinates are integers that a double holds exactly: their
    magnitude is at most 2^53. *)
Definition float_exact (self : t) : Prop :=
  Z.abs (x self) <= 2 ^ 53 /\ Z.abs (y self) <= 2 ^ 53
  /\ Z.abs (width self) <= 2 ^ 53 /\ Z.abs (height self) <= 2 ^ 53.

End Region.

Module Masker.

Record t : Type := mk { render_scale : PyFloat.float; blur_radius : Z }.

(** [Masker()]: [render_scale=2.0], [blur_radius=30]. *)
Definition new : t := mk PyFloat.two 30.

Section WithServices.
Context `{Services}.

(** [region.box] clamped to the image of the given size. *)
Definition clamp (img_width img_height : Z) (region : Region.t) : PIL.box :=
  let '(b0, b1, b2, b3) := Region.box region in
  (Z.max 0 b0, Z.max 0 b1, Z.min img_width b2, Z.min img_height b3).

(** The test that makes the loop [continue]. *)
Definition degenerate (b : PIL.box) : bool :=
  let '(b0, b1, b2, b3) := b in (b2 <=? b0) || (b3 <=? b1).

(** [im.filter(ImageFilter.GaussianBlur(radius=radius))]. *)
Definition filter_GaussianBlur (im : PIL.loc) (radius : Z) : M PIL.heap PIL.loc :=
  let* v := PIL.deref im in PIL.alloc (GaussianBlur radius v).

Definition _apply_masks (self : t) (img : PIL.loc) (regions : list Region.t)
    (mask_type : string) : M PIL.heap PIL.loc :=
  let* result := PIL.copy img in
  let* _ :=
    for_ regions (fun region =>
      let* img_width := PIL.get_width img in
      let* img_height := PIL.get_height img in
      let box := clamp img_width img_height region in
      if degenerate box then ret tt
      else if String.eqb mask_type "blur" then
        let* cropped := PIL.crop result box in
        let* blurred := filter_GaussianBlur cropped (blur_radius self) in
        PIL.paste result blurred box
      else
        let color := if String.eqb mask_type "black" then "black" else "white" in
        PIL.draw_rectangle result box color) in
  ret result.

(** *** The loop of [_apply_masks] read on image values

    What one iteration makes of the pixels of [result], for an input
    image of size [img_width] x [img_height]; it raises where the
    iteration raises. *)
Definition mask_region (self : t) (img_width img_height : Z) (mask_type : string)
    (result : PIL.Image) (region : Region.t) : exn + PIL.Image :=
  let box := clamp img_width img_height region in
  if degenerate box then inr result
  else
    let '(x0, y0, x1, y1) := box in
    if String.eqb mask_type "blur" then
      if x1 <? x0 then inl (ValueError "Coordinate 'right' is less than 'left'")
      else if y1 <? y0 then inl (ValueError "Coordinate 'lower' is less than 'upper'")
      else
        let blurred := GaussianBlur (blur_radius self) (PIL.crop_pixels box result) in
        if (PIL.width blurred =? x1 - x0) && (PIL.height blurred =? y1 - y0)
        then inr (PIL.paste_pixels blurred box result)
        else inl (ValueError "images do not match")
    else
      let color := if String.eqb mask_type "black" then "black" else "white" in
      match PIL.getcolor color (PIL.mode result) with
      | inl e => inl e
      | inr ink =>
          if x1 <? x0 then inl (ValueError "x1 must be greater than or equal to x0")
          else if y1 <? y0 then inl (ValueError "y1 must be greater than or equal to y0")
          else inr (PIL.fill_rectangle box ink result)
      end.

Fixpoint mask_regions (self : t) (img_width img_height : Z) (mask_type : string)
    (result : PIL.Image) (regions : list Region.t) : exn + PIL.Image :=
  match regions with
  | [] => inr result
  | region :: rest =>
      match mask_region self img_width img_height mask_type result region with
      | inl e => inl e
      | inr result' => mask_regions self img_width img_height mask_type result' rest
      end
  end.

(** The pixels [_apply_masks] returns for an input image with the pixels
    [img]. *)
Definition masked (self : t) (img : PIL.Image) (regions : list Region.t)
    (mask_type : string) : exn + PIL.Image :=
  mask_regions self (PIL.width img) (PIL.height img) mask_type img regions.

(** The regions the loop does not skip. *)
Definition visible (img_width img_height : Z) (region : Region.t) : bool :=
  negb (degenerate (clamp img_width img_height region)).

(** The filter returns an image of the size of its argument, as PIL's
    filters do. *)
Definition blur_keeps_size : Prop :=
  forall (radius : Z) (im : PIL.Image),
    PIL.width (GaussianBlur radius im) = PIL.width im
    /\ PIL.height (GaussianBlur radius im) = PIL.height im.

(** The pixels a call returns, as its caller reads them: those of the
    returned image object, or the exception. *)
Definition returned (r : PIL.heap * (exn + PIL.loc)) : exn + PIL.Image :=
  match r with
  | (h, inr l) =>
      match h !! l with
      | Some v => inr v
      | None => inl (ReferenceError "no such image object")
      end
  | (_, inl e) => inl e
  end.

(** [rgb_images[0].save(output, "PDF", save_all=True, append_images=...)]:
    the images that are handed to the PDF writer, first the image that is
    saved and then [append_images], one per page of the document.  What the
    writer stores of their pixels (it compresses an RGB page as a JPEG) is
    not modelled. *)
Definition save_pdf (first : PIL.loc) (append_images : list PIL.loc)
    : M PIL.heap (list PIL.Image) :=
  foldM (fun pages im => let* v := PIL.deref im in ret (pages ++ [v]))
        (first :: append_images) [].

(** The model returns the images handed to the PDF writer for [output],
    page by page. *)
Definition _images_to_pdf (images : list PIL.loc) : M PIL.heap (list PIL.Image) :=
  match images with
  | [] => raise (ValueError "No images to convert")
  | _ =>
      let* rgb_images :=
        foldM (fun rgb_images img =>
                 let* m := PIL.get_mode img in
                 let* img := if negb (PIL.Mode_eqb m PIL.RGB)
                             then PIL.convert img else ret img in
                 ret (rgb_images ++ [img]))
              images [] in
      let* first := lift (getitem rgb_images 0) in
      save_pdf first (if 1 <? len rgb_images then drop 1 rgb_images else [])
  end.

(** The loop of [redact] over the pages of the opened document: the list
    [page_images] it builds. *)
Definition redact_pages (self : t) (pdf : list Page)
    (page_regions : gmap Z (list Region.t)) (mask_type : string)
    : M PIL.heap (list PIL.loc) :=
  foldM (fun page_images page_idx =>
           let page_num := page_idx + 1 in
           let* page := lift (getitem pdf page_idx) in
           let* img := PIL.alloc (render page (render_scale self)) in
           let* img :=
             match page_regions !! page_num with
             | Some regions => _apply_masks self img regions mask_type
             | None => ret img
             end in
           ret (page_images ++ [img]))
        (range 0 (len pdf)) [].

(** The model returns the rasters handed to the PDF writer for
    [output_path], page by page. *)
Definition redact (self : t) (pdf_path : string)
    (page_regions : gmap Z (list Region.t)) (mask_type : string)
    : M PIL.heap (list PIL.Image) :=
  let* pdf := lift (open_pdf pdf_path) in
  let* page_images := redact_pages self pdf page_regions mask_type in
  _images_to_pdf page_images.

(** Convenience method to redact a single page. *)
Definition redact_page (self : t) (pdf_path : string) (page_num : Z)
    (regions : list Region.t) (mask_type : string) : M PIL.heap (list PIL.Image) :=
  redact self pdf_path {[ page_num := regions ]} mask_type.

(** The raster [redact] computes for the page numbered [page_num], read
    on image values. *)
Definition page_raster (self : t) (page_regions : gmap Z (list Region.t))
    (mask_type : string) (page_num : Z) (page : Page) : exn + PIL.Image :=
  match page_regions !! page_num with
  | Some regions => masked self (render page (render_scale self)) regions mask_type
  | None => inr (render page (render_scale self))
  end.

(** The pixels of the raster [redact] appends for the page numbered
    [page_num], before the conversion for encoding. *)
Definition committed_page (self : t) (pdf : list Page)
    (page_regions : gmap Z (list Region.t)) (mask_type : string) (page_num : Z)
    (h : PIL.heap) : exn + PIL.Image :=
  match redact_pages self pdf page_regions mask_type h with
  | (h', inr page_images) =>
      match getitem page_images (page_num - 1) with
      | inr l => returned (h', inr l)
      | inl e => inl e
      end
  | (_, inl e) => inl e
  end.

(** What [_images_to_pdf] makes of the pixels of one image. *)
Definition encoded (v : PIL.Image) : PIL.Image :=
  if negb (PIL.Mode_eqb (PIL.mode v) PIL.RGB) then PIL.convert_rgb v else v.

(** [Region(int(r.x * scale), int(r.y * scale), int(r.width * scale),
    int(r.height * scale))]. *)
Definition scale_coord (scale : PyFloat.float) (v : Z) : exn + Z :=
  match PyFloat.int_mul v scale with
  | inr f => PyFloat.to_int f
  | inl e => inl e
  end.

Definition scale_region (scale : PyFloat.float) (r : Region.t) : exn + Region.t :=
  match scale_coord scale (Region.x r) with
  | inl e => inl e
  | inr x' =>
  match scale_coord scale (Region.y r) with
  | inl e => inl e
  | inr y' =>
  match scale_coord scale (Region.width r) with
  | inl e => inl e
  | inr w' =>
  match scale_coord scale (Region.height r) with
  | inl e => inl e
  | inr h' => inr (Region.mk x' y' w' h')
  end end end end.

(** Truthiness of [regions : list[Region] | None]. *)
Definition regions_truthy (regions : option (list Region.t)) : bool :=
  match regions with
  | Some (_ :: _) => true
  | _ => false
  end.

Definition preview_page (self : t) (pdf_path : string) (page_num : Z)
    (regions : option (list Region.t)) (mask_type : string)
    (scale : PyFloat.float) : M PIL.heap PIL.loc :=
  let* pdf := lift (open_pdf pdf_path) in
  if (page_num <? 1) || (len pdf <? page_num) then
    raise (ValueError ("Page " +:+ pretty page_num +:+ " out of range"))
  else
    let* page := lift (getitem pdf (page_num - 1)) in
    let* img := PIL.alloc (render page (PyFloat.mul (render_scale self) scale)) in
    if regions_truthy regions then
      let* scaled_regions :=
        lift (traverse (scale_region scale) (default [] regions)) in
      _apply_masks self img scaled_regions mask_type
    else ret img.

End WithServices.

End Masker.

(** [Separator.get_page_count]. *)
Definition get_page_count `{Services} (pdf_path : string) : exn + Z :=
  match open_pdf pdf_path with
  | inr pdf => inr (len pdf)
  | inl e => inl e
  end.

(** ** utils.py *)

(** What the code asks of the file system and of the libraries that read
    and write files. *)
Class Files `{Services} : Type := {
  (** [Path(p).exists()] and [Path(p).is_file()] *)
  path_exists : string -> bool;
  path_is_file : string -> bool;
  (** [Path(p).suffix] and [Path(p).stem] *)
  path_suffix : string -> string;
  path_stem : string -> string;
  (** [Image.open(p)]: the image in the file, or the exception *)
  image_open : string -> exn + PIL.Image;
  (** [pdfium.PdfDocument(p)] for a file on disk: its pages *)
  pdf_document : string -> exn + list Page;
  (** the page of the PDF file that [img.save(f, "PDF", resolution=r,
      quality=95)] writes *)
  image_page : Z -> PIL.Image -> Page
}.

Module Utils.

Definition SUPPORTED_IMAGE_FORMATS : gset string :=
  {[ ".jpg"; ".jpeg"; ".png"; ".bmp"; ".tiff"; ".tif"; ".gif"; ".webp" ]}.
Definition SUPPORTED_PDF_FORMATS : gset string := {[ ".pdf" ]}.
Definition SUPPORTED_FORMATS : gset string :=
  SUPPORTED_IMAGE_FORMATS ∪ SUPPORTED_PDF_FORMATS.

Section WithFiles.
Context `{Files}.

(** A [Path] is kept as the string it is made from. *)
Definition validate_file (path : string) : exn + string :=
  let p := path in
  if negb (path_exists p) then inl (FileNotFoundError ("File not found: " +:+ p))
  else if negb (path_is_file p) then inl (ValueError ("Not a file: " +:+ p))
  else if negb (bool_decide (PyStr.lower (path_suffix p) ∈ SUPPORTED_FORMATS))
  then inl (ValueError ("Unsupported format: " +:+ path_suffix p))
  else inr p.

Definition validate_pdf (path : string) : exn + string :=
  let p := path in
  if negb (path_exists p) then inl (FileNotFoundError ("File not found: " +:+ p))
  else if negb (path_is_file p) then inl (ValueError ("Not a file: " +:+ p))
  else if negb (bool_decide (PyStr.lower (path_suffix p) ∈ SUPPORTED_PDF_FORMATS))
  then inl (ValueError ("Not a PDF file: " +:+ p))
  else inr p.

Definition is_image (path : string) : bool :=
  bool_decide (PyStr.lower (path_suffix path) ∈ SUPPORTED_IMAGE_FORMATS).

Definition is_pdf (path : string) : bool :=
  bool_decide (PyStr.lower (path_suffix path) ∈ SUPPORTED_PDF_FORMATS).

End WithFiles.

End Utils.

(** ** separator.py: the class [Separator] *)

(** Truthiness of a list. *)
Definition list_truthy {A} (xs : list A) : bool :=
  match xs with [] => false | _ => true end.

(** [new_pdf.import_pages(pdf, pages)] into a new document: the pages of
    [pdf] at the indices [pages], in the order of [pages]. *)
Definition import_pages {P} (pdf : list P) (pages : list Z) : exn + list P :=
  traverse (getitem pdf) pages.

Module Separator.

Record t : Type := mk { output_dpi : Z }.

(** [Separator()]: [output_dpi=150]. *)
Definition new : t := mk 150.

Section WithFiles.
Context `{Files}.

(** A file that [extract] writes: a PDF document or a PNG image. *)
Inductive file : Type :=
  | pdf_file (pages : list Page)
  | png_file (img : PIL.Image).

(** The state is the directory [output_dir], its files by name; the model
    returns the names of the files it writes there. *)
Definition extract (self : t) (pdf_path : string) (page_range : string)
    (as_images : bool) : M (gmap string file) (list string) :=
  let* pdf := lift (open_pdf pdf_path) in
  let page_count := len pdf in
  let* pages := lift (parse_page_range page_range page_count) in
  if negb (list_truthy pages) then
    raise (ValueError ("No valid pages in range '" +:+ page_range
                       +:+ "' (document has " +:+ pretty page_count +:+ " pages)"))
  else
    let stem := path_stem pdf_path in
    foldM (fun outputs page_idx =>
             let page_num := page_idx + 1 in
             let* output_file :=
               if as_images then
                 let output_file :=
                   stem +:+ "_page" +:+ pretty page_num +:+ ".png" in
                 let* page := lift (getitem pdf page_idx) in
                 let* scale := lift (PyFloat.int_truediv (output_dpi self) 72) in
                 let* _ := modify (insert output_file
                                     (png_file (render page scale))) in
                 ret output_file
               else
                 let output_file :=
                   stem +:+ "_page" +:+ pretty page_num +:+ ".pdf" in
                 let* new_pdf := lift (import_pages pdf [page_idx]) in
                 let* _ := modify (insert output_file (pdf_file new_pdf)) in
                 ret output_file in
             ret (outputs ++ [output_file]))
          pages [].

(** The model returns the pages of the PDF written to [output_path]. *)
Definition extract_single (pdf_path : string) (page_range : string)
    : exn + list Page :=
  match open_pdf pdf_path with
  | inl e => inl e
  | inr pdf =>
      let page_count := len pdf in
      match parse_page_range page_range page_count with
      | inl e => inl e
      | inr pages =>
          if negb (list_truthy pages) then
            inl (ValueError ("No valid pages in range '" +:+ page_range +:+ "'"))
          else import_pages pdf pages
      end
  end.

End WithFiles.

End Separator.

(** ** aggregator.py *)

Module Aggregator.

Record t : Type := mk { output_dpi : Z }.

(** [Aggregator()]: [output_dpi=300]. *)
Definition new : t := mk 300.

Section WithFiles.
Context `{Files}.

(** A path that [merge] hands to [_merge_pdfs]: a file of the temporary
    directory, by its name there, or a file the caller gave. *)
Inductive part : Type :=
  | in_temp_dir (name : string)
  | given (path : string).

(** The state is the temporary directory, its PDF files by name. *)
Definition _image_to_pdf (self : t) (image_path : string)
    : M (gmap string (list Page)) part :=
  let* img := lift (image_open image_path) in
  let img :=
    if negb (PIL.Mode_eqb (PIL.mode img) PIL.RGB || PIL.Mode_eqb (PIL.mode img) PIL.L)
    then PIL.convert_rgb img else img in
  let temp_pdf := path_stem image_path +:+ ".pdf" in
  let* _ := modify (insert temp_pdf [image_page (output_dpi self) img]) in
  ret (in_temp_dir temp_pdf).

(** [pdfium.PdfDocument(pdf_path)]. *)
Definition open_part (pdf_path : part) : M (gmap string (list Page)) (list Page) :=
  match pdf_path with
  | in_temp_dir name =>
      let* temp_dir := get in
      match temp_dir !! name with
      | Some pages => ret pages
      | None => raise (FileNotFoundError ("File not found: " +:+ name))
      end
  | given path => lift (pdf_document path)
  end.

(** The model returns the pages of the document saved to [output]. *)
Definition _merge_pdfs (pdf_paths : list part)
    : M (gmap string (list Page)) (list Page) :=
  foldM (fun merged pdf_path =>
           let* src := open_part pdf_path in
           let page_count := len src in
           let* imported := lift (import_pages src (range 0 page_count)) in
           ret (merged ++ imported))
        pdf_paths [].

Definition merge (self : t) (files : list string) : exn + list Page :=
  snd ((let* valid_files := lift (traverse Utils.validate_file files) in
        let* pdf_parts :=
          foldM (fun pdf_parts file_path =>
                   if Utils.is_image file_path then
                     let* temp_pdf := _image_to_pdf self file_path in
                     ret (pdf_parts ++ [temp_pdf])
                   else if Utils.is_pdf file_path then
                     ret (pdf_parts ++ [given file_path])
                   else ret pdf_parts)
                valid_files [] in
        _merge_pdfs pdf_parts) ∅).

(** The page of the temporary PDF that [_image_to_pdf] writes for an image. *)
Definition page_of_image (self : t) (img : PIL.Image) : Page :=
  image_page (output_dpi self)
    (if negb (PIL.Mode_eqb (PIL.mode img) PIL.RGB || PIL.Mode_eqb (PIL.mode img) PIL.L)
     then PIL.convert_rgb img else img).


End WithFiles.

End Aggregator.

(** ** ui/app.py *)

Module FileskadisApp.

(** The fields of the application object that the mask tab uses. *)
Record t : Type := mk {
  masker : Masker.t;
  _current_pdf : option string;
  _current_page : Z;
  _regions : list Region.t;
  _base_image : option PIL.loc;
  _click_start : option (Z * Z)
}.

(** [FileskadisApp()]. *)
Definition init : t := mk Masker.new None 1 [] None None.

Definition set_current_pdf (v : option string) (a : t) : t :=
  mk (masker a) v (_current_page a) (_regions a) (_base_image a) (_click_start a).
Definition set_current_page (v : Z) (a : t) : t :=
  mk (masker a) (_current_pdf a) v (_regions a) (_base_image a) (_click_start a).
Definition set_regions (v : list Region.t) (a : t) : t :=
  mk (masker a) (_current_pdf a) (_current_page a) v (_base_image a) (_click_start a).
Definition set_base_image (v : option PIL.loc) (a : t) : t :=
  mk (masker a) (_current_pdf a) (_current_page a) (_regions a) v (_click_start a).
Definition set_click_start (v : option (Z * Z)) (a : t) : t :=
  mk (masker a) (_current_pdf a) (_current_page a) (_regions a) (_base_image a) v.

(** The application object together with the image objects. *)
Definition state : Type := (t * PIL.heap)%type.

Definition self_ : M state t := fun s => (s, inr (fst s)).
Definition assign (f : t -> t) : M state unit := modify (fun s => (f (fst s), snd s)).
Definition on_heap {A} (m : M PIL.heap A) : M state A :=
  fun s => let '(h', r) := m (snd s) in ((fst s, h'), r).

(** A computation that leaves the application object as it is. *)
Definition app_stable {A} (m : M state A) : Prop :=
  forall s : state, (m s).1.1 = s.1.

(** The application object after a call, whether it returned or raised. *)
Definition after {A} (r : state * (exn + A)) : t := r.1.1.

(** Truthiness of [pdf_file : str | None]. *)
Definition file_truthy (pdf_file : option string) : bool :=
  match pdf_file with
  | Some p => PyStr.truthy p
  | None => false
  end.

Definition nl : string := String (ascii_of_nat 10) EmptyString.

(** The multiplication sign, U+00D7. *)
Definition times : string := String (ascii_of_nat 215) EmptyString.

(** [sep.join(lines)]. *)
Fixpoint join (sep : string) (lines : list string) : string :=
  match lines with
  | [] => ""
  | [l] => l
  | l :: ls => l +:+ sep +:+ join sep ls
  end.

(** [enumerate(xs)]. *)
Definition enumerate {A} (xs : list A) : list (Z * A) :=
  imap (fun i a => (Z.of_nat i, a)) xs.

Section WithServices.
Context `{Services}.

Definition _format_regions_text : M state string :=
  let* self := self_ in
  match _regions self with
  | [] => ret ""
  | _ =>
      ret (join nl
            (List.map (fun '(i, r) =>
               pretty (i + 1) +:+ ". (" +:+ pretty (Region.x r) +:+ ", "
               +:+ pretty (Region.y r) +:+ ") → " +:+ pretty (Region.width r)
               +:+ times +:+ pretty (Region.height r))
             (enumerate (_regions self))))
  end.

Definition _draw_regions_on_image (mask_type : string) : M state (option PIL.loc) :=
  let* self := self_ in
  match _base_image self with
  | None => ret None
  | Some base =>
      let* img := on_heap (PIL.copy base) in
      let* img :=
        match _regions self with
        | [] => ret img
        | _ => on_heap (Masker._apply_masks (masker self) img (_regions self) mask_type)
        end in
      let* _ :=
        on_heap (for_ (enumerate (_regions self)) (fun '(i, region) =>
          let '(b0, b1, b2, b3) := Region.box region in
          let* _ := PIL.update img (outline_rectangle (b0, b1, b2, b3) "#ff3366" 3) in
          PIL.update img (draw_text (b0 + 5, b1 + 5) (pretty (i + 1)) "#ff3366"))) in
      let* _ :=
        match _click_start self with
        | Some (x, y) =>
            on_heap (PIL.update img
              (draw_ellipse (x - 8, y - 8, x + 8, y + 8) "#00ff88" "#ffffff"))
        | None => ret tt
        end in
      ret (Some img)
  end.

Definition change_mask_page (pdf_file : option string) (page_num : Z)
    : M state (option PIL.loc * string * string) :=
  if negb (file_truthy pdf_file) then ret (None, "No PDF", "")
  else
    let pdf_file := default "" pdf_file in
    let* _ := assign (set_current_page page_num) in
    let* _ := assign (set_regions []) in
    let* _ := assign (set_click_start None) in
    try_except
      (let* count := lift (get_page_count pdf_file) in
       let* self := self_ in
       let* img := on_heap (Masker.preview_page (masker self) pdf_file
                              (_current_page self) None "blur" PyFloat.one) in
       let* base := on_heap (PIL.copy img) in
       let* _ := assign (set_base_image (Some base)) in
       ret (Some img,
            "Page " +:+ pretty (_current_page self) +:+ "/" +:+ pretty count
            +:+ " — Click to draw rectangles",
            ""))
      (fun e => ret (None, "Error: " +:+ exn_msg e, "")).

Definition handle_image_click (pdf_file : option string) (mask_type : string)
    (evt_index : Z * Z) : M state (option PIL.loc * string * string) :=
  let* self := self_ in
  if negb (file_truthy pdf_file) || negb (bool_decide (is_Some (_base_image self)))
  then ret (None, "Load a PDF first", "")
  else
    let '(x, y) := evt_index in
    match _click_start self with
    | None =>
        let* _ := assign (set_click_start (Some (x, y))) in
        let* img := _draw_regions_on_image mask_type in
        let* text := _format_regions_text in
        ret (img,
             "First corner set at (" +:+ pretty x +:+ ", " +:+ pretty y
             +:+ "). Click second corner.",
             text)
    | Some (x1, y1) =>
        let '(x2, y2) := (x, y) in
        let left := Z.min x1 x2 in
        let top := Z.min y1 y2 in
        let width := Z.abs (x2 - x1) in
        let height := Z.abs (y2 - y1) in
        let* _ :=
          if (5 <? width) && (5 <? height)
          then assign (fun a => set_regions (_regions a ++ [Region.mk left top width height]) a)
          else ret tt in
        let* _ := assign (set_click_start None) in
        let* img := _draw_regions_on_image mask_type in
        let* self := self_ in
        let* text := _format_regions_text in
        ret (img, pretty (len (_regions self)) +:+ " region(s) selected", text)
    end.

(** The guard [pdf_file and self._base_image] of the handlers that redraw. *)
Definition can_redraw (pdf_file : option string) (self : t) : bool :=
  file_truthy pdf_file && bool_decide (is_Some (_base_image self)).

(** [Path(pdf_file)] is kept as the string it is made from. *)
Definition load_mask_pdf (pdf_file : option string)
    : M state (option PIL.loc * string * Z * string) :=
  if negb (file_truthy pdf_file) then ret (None, "No PDF uploaded", 1, "")
  else
    let pdf_file := default "" pdf_file in
    let* _ := assign (set_current_pdf (Some pdf_file)) in
    let* _ := assign (set_current_page 1) in
    let* _ := assign (set_regions []) in
    let* _ := assign (set_click_start None) in
    try_except
      (let* count := lift (get_page_count pdf_file) in
       let* self := self_ in
       let* img := on_heap (Masker.preview_page (masker self) pdf_file 1 None "blur"
                              PyFloat.one) in
       let* base := on_heap (PIL.copy img) in
       let* _ := assign (set_base_image (Some base)) in
       ret (Some img,
            "Page 1/" +:+ pretty count +:+ " — Click to draw rectangles",
            count, ""))
      (fun e => ret (None, "Error: " +:+ exn_msg e, 1, "")).

Definition remove_last_region (pdf_file : option string) (mask_type : string)
    : M state (option PIL.loc * string * string) :=
  let* self := self_ in
  let* _ :=
    match _regions self with
    | [] => ret tt
    | _ => assign (fun a => set_regions (removelast (_regions a)) a)
    end in
  let* _ := assign (set_click_start None) in
  let* self := self_ in
  if can_redraw pdf_file self then
    let* img := _draw_regions_on_image mask_type in
    let* self := self_ in
    let* text := _format_regions_text in
    ret (img, pretty (len (_regions self)) +:+ " region(s)", text)
  else ret (None, "No regions", "").

Definition clear_regions (pdf_file : option string) (mask_type : string)
    : M state (option PIL.loc * string * string) :=
  let* _ := assign (set_regions []) in
  let* _ := assign (set_click_start None) in
  let* self := self_ in
  if can_redraw pdf_file self then
    let* img := _draw_regions_on_image mask_type in
    ret (img, "Cleared", "")
  else ret (None, "Cleared", "").

Definition update_preview (pdf_file : option string) (mask_type : string)
    : M state (option PIL.loc * string) :=
  let* self := self_ in
  if can_redraw pdf_file self then
    let* img := _draw_regions_on_image mask_type in
    let* self := self_ in
    ret (img, pretty (len (_regions self)) +:+ " region(s)")
  else ret (None, "").

(** The model returns the rasters handed to the PDF writer for
    "masked.pdf", page by page, where the code returns the path. *)
Definition apply_mask (pdf_file : option string) (mask_type : string)
    : M state (option (list PIL.Image) * string) :=
  if negb (file_truthy pdf_file) then ret (None, "No PDF loaded")
  else
    let pdf_file := default "" pdf_file in
    let* self := self_ in
    match _regions self with
    | [] => ret (None, "No regions selected — click on image to draw rectangles")
    | _ =>
        try_except
          (let* out := on_heap (Masker.redact (masker self) pdf_file
                                  {[ _current_page self := _regions self ]}
                                  mask_type) in
           let* self := self_ in
           ret (Some out,
                "Created masked PDF with " +:+ pretty (len (_regions self))
                +:+ " redaction(s)"))
          (fun e => ret (None, "Error: " +:+ exn_msg e))
    end.

(** *** The events of the mask tab

    [create_ui] binds each component of the tab to one handler and passes
    it the values of the components listed as its inputs. *)
Inductive event : Type :=
  | mask_file_change (mask_file : option string)
  | mask_page_change (mask_file : option string) (mask_page : Z)
  | mask_preview_select (mask_file : option string) (mask_type : string)
      (index : Z * Z)
  | mask_type_change (mask_file : option string) (mask_type : string)
  | mask_undo_btn_click (mask_file : option string) (mask_type : string)
  | mask_clear_btn_click (mask_file : option string) (mask_type : string)
  | mask_apply_btn_click (mask_file : option string) (mask_type : string).

(** The handler of an event, its outputs dropped. *)
Definition fire (e : event) : M state unit :=
  match e with
  | mask_file_change f => let* _ := load_mask_pdf f in ret tt
  | mask_page_change f n => let* _ := change_mask_page f n in ret tt
  | mask_preview_select f t i => let* _ := handle_image_click f t i in ret tt
  | mask_type_change f t => let* _ := update_preview f t in ret tt
  | mask_undo_btn_click f t => let* _ := remove_last_region f t in ret tt
  | mask_clear_btn_click f t => let* _ := clear_regions f t in ret tt
  | mask_apply_btn_click f t => let* _ := apply_mask f t in ret tt
  end.

(** The session after a sequence of events; a handler that raises leaves
    the session as it was when it raised, and the next event is handled. *)
Definition session_after (events : list event) (s : state) : state :=
  fold_left (fun s e => fst (fire e s)) events s.

(** Every region of the session is more than 5 pixels wide and high. *)
Definition regions_large (a : t) : Prop :=
  Forall (fun r => 5 < Region.width r /\ 5 < Region.height r) (_regions a).

End WithServices.

(** *** The separate tab *)

Section WithFiles.
Context `{Files}.

(** What [separate_pages] offers for download: the PDF it wrote, or the
    archive of the directory "separated". *)
Inductive download : Type :=
  | pdf_download (pages : list Page)
  | zip_download (files : gmap string Separator.file).

(** The state is the directory "separated" of the application's temporary
    directory, which lives as long as the application object. *)
Definition separate_pages (pdf_file : option string) (page_range : string)
    (as_single : bool) : M (gmap string Separator.file) (option download * string) :=
  if negb (file_truthy pdf_file) || negb (PyStr.truthy (PyStr.strip page_range))
  then ret (None, "Please upload a PDF and specify page range")
  else
    let pdf_file := default "" pdf_file in
    try_except
      (if as_single then
         let* pages := lift (Separator.extract_single pdf_file page_range) in
         ret (Some (pdf_download pages), "Created: separated.pdf")
       else
         let* outputs := Separator.extract Separator.new pdf_file page_range false in
         let* output_dir := get in
         ret (Some (zip_download output_dir),
              "Extracted " +:+ pretty (len outputs) +:+ " pages"))
      (fun e => ret (None, "Error: " +:+ exn_msg e)).

End WithFiles.

End FileskadisApp.

(** ** Computations that leave the image objects there are alone *)

Module Frame.

(** The computation [m] on the heap leaves the first [n] image objects as
    they are, and what it returns satisfies [Q]. *)
Definition keeps {A} (n : nat) (m : M PIL.heap A) (Q : A -> Prop) : Prop :=
  forall h : PIL.heap,
    (n <= length h)%nat ->
    take n (m h).1 = take n h
    /\ (n <= length (m h).1)%nat
    /\ match (m h).2 with inr a => Q a | inl _ => True end.

(** The same for a computation on the session. *)
Definition keeps_app {A} (n : nat) (m : M FileskadisApp.state A) (Q : A -> Prop)
    : Prop :=
  forall s : FileskadisApp.state,
    (n <= length s.2)%nat ->
    take n (m s).1.2 = take n s.2
    /\ (n <= length (m s).1.2)%nat
    /\ match (m s).2 with inr a => Q a | inl _ => True end.

(** The computation keeps the property [I] of the application object,
    whether it returns or raises. *)
Definition preserves {A} (I : FileskadisApp.t -> Prop)
    (m : M FileskadisApp.state A) : Prop :=
  forall s : FileskadisApp.state, I s.1 -> I (m s).1.1.

End Frame.

(** ** A concrete instance of the services, for tests *)

Module Fixture.

(** An image of one colour. *)
Definition solid (m : PIL.Mode) (w h : Z) (p : PIL.pixel) : PIL.Image :=
  PIL.mkImage m w h (replicate (Z.to_nat h) (replicate (Z.to_nat w) p)).

Definition white4 : PIL.Image := solid PIL.RGB 4 4 [255; 255; 255].
Definition grey4 : PIL.Image := solid PIL.L 4 4 [128].

(** Pages are kept as they render at every scale; "two.pdf" has two pages
    and "empty.pdf" none; no other file exists.  The blur and the overlay
    drawings leave the pixels as they are. *)
Definition services : Services := {|
  Page := PIL.Image;
  open_pdf := fun path =>
    if String.eqb path "two.pdf" then inr [white4; grey4]
    else if String.eqb path "empty.pdf" then inr []
    else inl (FileNotFoundError ("File not found: " +:+ path));
  render := fun page _ => page;
  GaussianBlur := fun _ im => im;
  outline_rectangle := fun _ _ _ im => im;
  draw_text := fun _ _ _ im => im;
  draw_ellipse := fun _ _ _ im => im
|}.

(** A session with the first page of "two.pdf" loaded: its base image is
    the object 0 of the heap. *)
Definition heap0 : PIL.heap := [white4].
Definition loaded : FileskadisApp.t :=
  FileskadisApp.mk Masker.new (Some "two.pdf") 1 [] (Some 0%nat) None.

(** The same session with a region selected and a corner pending. *)
Definition selecting : FileskadisApp.t :=
  FileskadisApp.mk Masker.new (Some "two.pdf") 1 [Region.mk 1 1 10 10]
    (Some 0%nat) (Some (3, 4)).

(** A region that reaches from far left of the canvas to its column 1; its
    coordinates are not doubles. *)
Definition far_left : Region.t := Region.mk (- (2 ^ 53 + 1)) 0 (2 ^ 53 + 2) 10.

(** [n] times the digit 0. *)
Definition zeros (n : nat) : string := string_of_list_ascii (replicate n "0"%char).

(** The pages of "two.pdf". *)
Definition two_pdf : list (@Page services) := [white4; grey4].

(** The files of the tests: the document "two.pdf", two images named
    "scan" in the directories "a" and "b", and the image "logo.png". *)
Definition files : @Files services := {|
  path_exists := fun p =>
    bool_decide (p ∈ ["two.pdf"; "a/scan.png"; "b/scan.jpg"; "logo.png"]);
  path_is_file := fun p =>
    bool_decide (p ∈ ["two.pdf"; "a/scan.png"; "b/scan.jpg"; "logo.png"]);
  path_suffix := fun p =>
    if String.eqb p "two.pdf" then ".pdf"
    else if String.eqb p "b/scan.jpg" then ".JPG"
    else if String.eqb p "a/scan.png" || String.eqb p "logo.png" then ".png"
    else "";
  path_stem := fun p =>
    if String.eqb p "two.pdf" then "two"
    else if String.eqb p "a/scan.png" || String.eqb p "b/scan.jpg" then "scan"
    else if String.eqb p "logo.png" then "logo"
    else p;
  image_open := fun p =>
    if String.eqb p "a/scan.png" || String.eqb p "logo.png" then inr white4
    else if String.eqb p "b/scan.jpg" then inr grey4
    else inl (FileNotFoundError ("No such file or directory: " +:+ p));
  pdf_document := fun p =>
    if String.eqb p "two.pdf" then inr two_pdf
    else inl (FileNotFoundError ("File not found: " +:+ p));
  image_page := fun _ img => img
|}.

End Fixture.

(** * Properties *)

(** ** Running monadic code *)

Ltac run := unfold bind, ret, raise, lift, get, modify, try_except; simpl.

(** A loop whose body agrees with another one on the elements it visits runs
    the same. *)
Lemma foldM_ext {S A B} (f g : B -> A -> M S B) (xs : list A) :
  (forall x acc s, x ∈ xs -> f acc x s = g acc x s) ->
  forall acc s, foldM f xs acc s = foldM g xs acc s.
Proof.
  induction xs as [|x xs IH]; intros Hfg acc s; simpl; [reflexivity|].
  unfold bind. rewrite Hfg by left.
  destruct (g acc x s) as [s1 [e|acc1]]; [reflexivity|].
  apply IH. intros y acc' s' Hy. apply Hfg. by right.
Qed.

(** ** Page ranges *)

Section PageRange.

Import PyStr.

Lemma isdecimal_not_space c : isdecimal c = true -> isspace c = false.
Proof.
  destruct c as [[] [] [] [] [] [] [] []]; vm_compute; congruence.
Qed.

Lemma isdecimal_not_sign c :
  isdecimal c = true -> Ascii.eqb c "-" = false /\ Ascii.eqb c "+" = false.
Proof.
  destruct c as [[] [] [] [] [] [] [] []]; vm_compute; intuition congruence.
Qed.

Lemma span_spec p s a b :
  span p s = (a, b) -> forallb p a = true /\ s = a +:+ b.
Proof.
  revert a b. induction s as [|c r IH]; intros a b; simpl.
  - intros [= <- <-]. done.
  - destruct (p c) eqn:Hc.
    + destruct (span p r) as [a' b'] eqn:E. intros [= <- <-].
      destruct (IH _ _ eq_refl) as [Ha ->]. simpl. by rewrite Hc, Ha.
    + intros [= <- <-]. done.
Qed.

Lemma rstrip_no_space s :
  forallb (fun c => negb (isspace c)) s = true -> rstrip s = s.
Proof.
  induction s as [|c r IH]; simpl; [done|].
  intros [Hc Hr]%andb_prop. rewrite (IH Hr).
  destruct r; [|done]. apply negb_true_iff in Hc. by rewrite Hc.
Qed.

Lemma forallb_impl (p q : ascii -> bool) s :
  (forall c, p c = true -> q c = true) -> forallb p s = true -> forallb q s = true.
Proof.
  intros Hpq. induction s as [|c r IH]; simpl; [done|].
  intros [Hc Hr]%andb_prop. by rewrite (Hpq _ Hc), (IH Hr).
Qed.

Lemma strip_digits s : forallb isdecimal s = true -> strip s = s.
Proof.
  intros Hs. unfold strip.
  assert (lstrip s = s) as ->.
  { destruct s as [|c r]; [done|]. simpl in *.
    apply andb_prop in Hs as [Hc _]. by rewrite (isdecimal_not_space _ Hc). }
  apply rstrip_no_space. revert Hs. apply forallb_impl.
  intros c Hc. by rewrite (isdecimal_not_space _ Hc).
Qed.

Lemma int_body_digits s acc b :
  forallb isdecimal s = true -> s <> EmptyString ->
  exists n, int_body s acc b = Some n.
Proof.
  revert acc b. induction s as [|c r IH]; intros acc b Hs Hne; [done|].
  simpl in *. apply andb_prop in Hs as [Hc Hr]. rewrite Hc.
  destruct r as [|d r'].
  - simpl. eauto.
  - apply IH; done.
Qed.

Lemma span_all p s : forallb p s = true -> span p s = (s, EmptyString).
Proof.
  induction s as [|c r IH]; simpl; [done|].
  intros [Hc Hr]%andb_prop. by rewrite Hc, (IH Hr).
Qed.

Lemma count_digits_length s :
  forallb isdecimal s = true -> count_digits s = Z.of_nat (String.length s).
Proof.
  induction s as [|c r IH]; [done|].
  cbn [forallb count_digits String.length]. intros [Hc Hr]%andb_prop.
  rewrite Hc, (IH Hr). lia.
Qed.

(** [int] reads every non-empty string of decimal digits, up to the limit
    on their number. *)
Lemma int_digits s :
  forallb isdecimal s = true -> s <> EmptyString ->
  exists n,
    int_body s 0 false = Some n
    /\ int s = if max_str_digits <? Z.of_nat (String.length s)
               then inl (digits_error (Z.of_nat (String.length s)))
               else inr n.
Proof.
  intros Hs Hne. unfold int. rewrite (strip_digits _ Hs).
  destruct s as [|c r]; [done|].
  assert (isdecimal c = true) as Hc by (simpl in Hs; by apply andb_prop in Hs as [? _]).
  destruct (isdecimal_not_sign _ Hc) as [-> ->].
  rewrite (span_all _ (String c r)).
  2:{ revert Hs. apply forallb_impl. by intros d ->. }
  destruct (int_body_digits (String c r) 0 false Hs Hne) as [n ->].
  rewrite (count_digits_length _ Hs). exists n. split; [done|].
  by destruct (max_str_digits <? _).
Qed.

(** [int] raises nothing but [ValueError]. *)
Lemma int_raises s e : int s = inl e -> exists msg, e = ValueError msg.
Proof.
  unfold int.
  destruct (match strip s with
            | String c r =>
                if Ascii.eqb c "-" then (true, r)
                else if Ascii.eqb c "+" then (false, r)
                else (false, strip s)
            | EmptyString => (false, strip s)
            end) as [neg body].
  destruct (span _ body) as [run rest].
  destruct (int_body run 0 false); [|intros [= <-]; eauto].
  destruct (max_str_digits <? _); [intros [= <-]; unfold digits_error; eauto|].
  destruct rest; [done|]. intros [= <-]. eauto.
Qed.

(** Both groups of a match of the range pattern are non-empty strings of
    digits. *)
Lemma re_match_range_digits part g1 g2 :
  re_match_range part = Some (g1, g2) ->
  (forallb isdecimal g1 = true /\ g1 <> EmptyString)
  /\ (forallb isdecimal g2 = true /\ g2 <> EmptyString).
Proof.
  unfold re_match_range.
  destruct (span isdecimal part) as [h1 r1] eqn:E1.
  destruct (span_spec _ _ _ _ E1) as [Hd1 _].
  destruct h1 as [|c1 h1]; [done|].
  destruct (span isspace r1) as [w1 r2].
  destruct r2 as [|c r3]; [done|].
  destruct (Ascii.eqb c "-"); [|done].
  destruct (span isspace r3) as [w2 r4].
  destruct (span isdecimal r4) as [h2 r5] eqn:E2.
  destruct (span_spec _ _ _ _ E2) as [Hd2 _].
  destruct h2 as [|c2 h2]; [done|]. by intros [= <- <-].
Qed.

(** A part raises exactly when it is a range with an overlong numeral, and
    then it raises the [ValueError] of the digit limit. *)
Lemma part_error_spec part :
  match part_error part with
  | Some e =>
      overlong part = true
      /\ exists digits, max_str_digits < digits /\ e = digits_error digits
  | None => overlong part = false
  end.
Proof.
  unfold part_error, overlong. destruct (contains "-" part); [|done].
  destruct (re_match_range part) as [[g1 g2]|] eqn:E; [|done].
  destruct (re_match_range_digits _ _ _ E) as [[Hd1 Hn1] [Hd2 Hn2]].
  destruct (int_digits g1 Hd1 Hn1) as (a & _ & ->).
  destruct (int_digits g2 Hd2 Hn2) as (b & _ & ->).
  destruct (max_str_digits <? Z.of_nat (String.length g1)) eqn:E1.
  { split; [done|]. apply Z.ltb_lt in E1. eauto. }
  destruct (max_str_digits <? Z.of_nat (String.length g2)) eqn:E2; [|done].
  split; [done|]. apply Z.ltb_lt in E2. eauto.
Qed.

Lemma span_rest p s a b : span p s = (a, b) -> starts_with p b = false.
Proof.
  revert a b. induction s as [|c r IH]; intros a b; simpl.
  - by intros [= <- <-].
  - destruct (p c) eqn:Hc.
    + destruct (span p r) as [a' b'] eqn:E. intros [= <- <-]. by apply (IH a').
    + intros [= <- <-]. done.
Qed.

Lemma span_append p a b :
  forallb p a = true -> starts_with p b = false -> span p (a +:+ b) = (a, b).
Proof.
  intros Ha Hb. induction a as [|c a' IH]; cbn [String.append forallb] in *.
  - destruct b as [|d b']; [done|]. simpl in *. by rewrite Hb.
  - apply andb_prop in Ha as [Hc Ha']. simpl. by rewrite Hc, (IH Ha').
Qed.

Lemma starts_with_append p a b :
  a <> EmptyString -> starts_with p (a +:+ b) = starts_with p a.
Proof. by destruct a. Qed.

(** [re_match_range] finds exactly the matches of the pattern
    [(\d+)\s*-\s*(\d+)] at the start of the string, with the groups of the
    greedy match: digits, white space, a dash, white space, and digits that no
    digit follows. *)
Lemma re_match_range_spec (s g1 g2 : string) :
  re_match_range s = Some (g1, g2) <->
  exists w1 w2 rest : string,
    s = g1 +:+ w1 +:+ String "-" (w2 +:+ g2 +:+ rest)
    /\ forallb isdecimal g1 = true /\ g1 <> EmptyString
    /\ forallb isspace w1 = true /\ forallb isspace w2 = true
    /\ forallb isdecimal g2 = true /\ g2 <> EmptyString
    /\ starts_with isdecimal rest = false.
Proof.
  unfold re_match_range. split.
  - destruct (span isdecimal s) as [h1 r1] eqn:E1.
    destruct (span_spec _ _ _ _ E1) as [Hd1 ->].
    destruct h1 as [|c1 h1]; [done|].
    destruct (span isspace r1) as [w1 r2] eqn:E2.
    destruct (span_spec _ _ _ _ E2) as [Hw1 ->].
    destruct r2 as [|c r3]; [done|].
    destruct (Ascii.eqb c "-") eqn:Ec; [|done]. apply Ascii.eqb_eq in Ec as ->.
    destruct (span isspace r3) as [w2 r4] eqn:E3.
    destruct (span_spec _ _ _ _ E3) as [Hw2 ->].
    destruct (span isdecimal r4) as [h2 r5] eqn:E4.
    destruct (span_spec _ _ _ _ E4) as [Hd2 ->].
    destruct h2 as [|c2 h2]; [done|]. intros [= <- <-].
    exists w1, w2, r5. repeat split; try done.
    by apply (span_rest _ _ _ _ E4).
  - intros (w1 & w2 & rest & -> & Hd1 & Hn1 & Hw1 & Hw2 & Hd2 & Hn2 & Hrest).
    assert (Hds : forall t, starts_with isdecimal t = true -> starts_with isspace t = false).
    { intros [|c t]; [done|]. apply isdecimal_not_space. }
    assert (Hsd : forall t, starts_with isspace t = true -> starts_with isdecimal t = false).
    { intros [|c t]; [done|]. simpl. intros Hc.
      destruct (isdecimal c) eqn:Hd; [|done].
      by rewrite (isdecimal_not_space _ Hd) in Hc. }
    rewrite (span_append isdecimal g1).
    2: done.
    2:{ destruct w1 as [|c w1']; [done|]. apply Hsd. simpl in *.
        by apply andb_prop in Hw1 as [? _]. }
    destruct g1 as [|c1 g1']; [done|].
    rewrite (span_append isspace w1); [|done|done].
    rewrite Ascii.eqb_refl.
    rewrite (span_append isspace w2).
    2: done.
    2:{ rewrite starts_with_append by done. apply Hds.
        destruct g2 as [|c2 g2']; [done|]. simpl in *.
        by apply andb_prop in Hd2 as [? _]. }
    rewrite (span_append isdecimal g2); [|done|done].
    by destruct g2.
Qed.

End PageRange.

Section ParsePageRange.

Variable max_pages : Z.

(** The loop over a range adds exactly the in-range pages, 0-indexed. *)
Lemma range_loop_run (idxs : list Z) (pages : gset Z) :
  exists pages',
    for_ idxs (fun i =>
      if (1 <=? i) && (i <=? max_pages)
      then modify (fun pages => {[ i - 1 ]} ∪ pages)
      else ret tt) pages = (pages', inr tt)
    /\ forall p, p ∈ pages' <->
         p ∈ pages \/ (p + 1 ∈ idxs /\ 1 <= p + 1 <= max_pages).
Proof.
  revert pages.
  set (body := fun i : Z => if (1 <=? i) && (i <=? max_pages) then _ else _).
  induction idxs as [|i idxs IH]; intros pages; simpl.
  - exists pages. split; [done|]. intros p. rewrite elem_of_nil. tauto.
  - unfold bind. unfold body at 1.
    destruct ((1 <=? i) && (i <=? max_pages)) eqn:Hi; unfold modify, ret.
    + destruct (IH ({[ i - 1 ]} ∪ pages)) as (pages' & -> & Hp).
      exists pages'. split; [done|]. intros p. rewrite Hp, elem_of_cons.
      rewrite elem_of_union, elem_of_singleton.
      apply andb_prop in Hi as [?%Z.leb_le ?%Z.leb_le].
      split; [intros [[->|?]|[? ?]]|intros [?|[[?|?] ?]]]; auto; try lia.
    + destruct (IH pages) as (pages' & -> & Hp).
      exists pages'. split; [done|]. intros p. rewrite Hp, elem_of_cons.
      apply andb_false_iff in Hi.
      split; [intros [?|[? ?]]|intros [?|[[?|?] ?]]]; auto.
      exfalso. destruct Hi as [Hi|Hi]; [apply Z.leb_gt in Hi|apply Z.leb_gt in Hi]; lia.
Qed.

(** One part raises [part_error], before it adds a page, or adds the
    in-range pages it selects. *)
Lemma parse_part_run (part : string) (pages : gset Z) :
  match part_error part with
  | Some e => parse_part max_pages part pages = (pages, inl e)
  | None =>
      exists pages',
        parse_part max_pages part pages = (pages', inr tt)
        /\ forall p, p ∈ pages' <->
             p ∈ pages \/ (selects part (p + 1) /\ 1 <= p + 1 <= max_pages)
  end.
Proof.
  unfold parse_part, part_error, selects.
  destruct (PyStr.contains "-" part).
  - destruct (PyStr.re_match_range part) as [[g1 g2]|] eqn:E.
    + unfold bind, lift.
      destruct (PyStr.int g1) as [e|a] eqn:Ha; [done|].
      destruct (PyStr.int g2) as [e|b] eqn:Hb; [done|].
      destruct (range_loop_run (range a (b + 1)) pages) as (pages' & -> & Hp).
      exists pages'. split; [done|]. intros p. rewrite Hp.
      unfold range. rewrite elem_of_seqZ.
      split; (intros [?|[? ?]]; [by left|right]).
      * split; [|done]. exists g1, g2, a, b. repeat split; auto; lia.
      * destruct H as (g1' & g2' & a' & b' & [= <- <-] & Ha' & Hb' & ?).
        rewrite Ha in Ha'. rewrite Hb in Hb'.
        injection Ha' as <-. injection Hb' as <-. split; [lia|done].
    + exists pages. split; [done|]. intros p.
      split; [by left|]. intros [?|[(? & ? & ? & ? & ? & _) _]]; done.
  - unfold try_except, bind, lift.
    destruct (PyStr.int part) as [e|page] eqn:E.
    + destruct (int_raises _ _ E) as [msg ->]. run.
      exists pages. split; [done|]. intros p.
      split; [by left|]. intros [?|[? _]]; done.
    + destruct ((1 <=? page) && (page <=? max_pages)) eqn:Hi; run.
      * exists ({[ page - 1 ]} ∪ pages). split; [done|]. intros p.
        rewrite elem_of_union, elem_of_singleton.
        apply andb_prop in Hi as [?%Z.leb_le ?%Z.leb_le].
        split; [intros [->|?]|intros [?|[[= ->] ?]]]; auto.
        -- right. split; [f_equal|]; lia.
        -- left. lia.
      * exists pages. split; [done|]. intros p.
        split; [by left|]. intros [?|[[= ->] ?]]; [done|].
        apply andb_false_iff in Hi.
        exfalso. destruct Hi as [Hi|Hi]; apply Z.leb_gt in Hi; lia.
Qed.

(** The loop over the parts stops at the first part that raises. *)
Lemma parse_parts_run (parts : list string) (pages : gset Z) :
  match first_error parts with
  | Some e =>
      exists pages', for_ parts (parse_part max_pages) pages = (pages', inl e)
  | None =>
      exists pages',
        for_ parts (parse_part max_pages) pages = (pages', inr tt)
        /\ forall p, p ∈ pages' <->
             p ∈ pages
             \/ (1 <= p + 1 <= max_pages
                 /\ exists part, part ∈ parts /\ selects part (p + 1))
  end.
Proof.
  revert pages. induction parts as [|part parts IH]; intros pages; simpl.
  - exists pages. split; [done|]. intros p.
    split; [by left|]. intros [?|[_ (? & []%elem_of_nil & _)]]. done.
  - unfold bind.
    pose proof (parse_part_run part pages) as H1.
    destruct (part_error part) as [e|].
    { rewrite H1. by exists pages. }
    destruct H1 as (pages1 & -> & H1).
    specialize (IH pages1).
    destruct (first_error parts) as [e|].
    { destruct IH as (pages' & ->). by exists pages'. }
    destruct IH as (pages' & -> & Hp).
    exists pages'. split; [done|]. intros p. rewrite Hp, H1.
    split.
    + intros [[?|[? ?]]|[? (q & ? & ?)]]; auto.
      * right. split; [done|]. exists part. split; [left|done].
      * right. split; [done|]. exists q. split; [by right|done].
    + intros [?|[? (q & [->|?]%elem_of_cons & ?)]]; auto.
      right. split; [done|]. by exists q.
Qed.

End ParsePageRange.

(** [sorted] of a set is strictly ascending and lists the set. *)
Lemma StronglySorted_le_NoDup (l : list Z) :
  StronglySorted Z.le l -> NoDup l -> StronglySorted Z.lt l.
Proof.
  induction 1 as [|x l Hs IH Hx]; intros Hnd; constructor.
  - apply IH. by apply NoDup_cons in Hnd as [_ ?].
  - apply NoDup_cons in Hnd as [Hnx _].
    rewrite Forall_forall in Hx |- *. intros y Hy.
    specialize (Hx y Hy).
    assert (x <> y) by (intros ->; done). lia.
Qed.

Lemma sorted_spec (pages : gset Z) :
  StronglySorted Z.lt (sorted pages) /\ forall p, p ∈ sorted pages <-> p ∈ pages.
Proof.
  unfold sorted. split.
  - apply StronglySorted_le_NoDup.
    + apply StronglySorted_merge_sort; apply _.
    + rewrite merge_sort_Permutation. apply NoDup_elements.
  - intros p. rewrite merge_sort_Permutation. apply elem_of_elements.
Qed.

(** The first part that raises, if there is one, is a range with an
    overlong numeral, and what it raises is the [ValueError] of the digit
    limit. *)
Lemma first_error_spec (parts : list string) :
  match first_error parts with
  | Some e =>
      List.existsb overlong parts = true
      /\ exists digits,
           PyStr.max_str_digits < digits /\ e = PyStr.digits_error digits
  | None => List.existsb overlong parts = false
  end.
Proof.
  induction parts as [|part parts IH]; [done|]. cbn [first_error List.existsb].
  pose proof (part_error_spec part) as Hp.
  destruct (part_error part) as [e|].
  - destruct Hp as [-> Hp]. done.
  - rewrite Hp. done.
Qed.

(** What [parse_page_range] does, for every input: it raises the exception
    of the first part that raises, or returns the selected pages. *)
Lemma parse_page_range_run (range_str : string) (max_pages : Z) :
  match first_error (parts_of range_str) with
  | Some e => parse_page_range range_str max_pages = inl e
  | None =>
      exists pages : list Z,
        parse_page_range range_str max_pages = inr pages
        /\ StronglySorted Z.lt pages
        /\ forall p, p ∈ pages <->
             1 <= p + 1 <= max_pages
             /\ exists part, part ∈ parts_of range_str /\ selects part (p + 1)
  end.
Proof.
  unfold parse_page_range, bind.
  pose proof (parse_parts_run max_pages (parts_of range_str) ∅) as Hrun.
  destruct (first_error (parts_of range_str)) as [e|].
  { by destruct Hrun as (pages & ->). }
  destruct Hrun as (pages & -> & Hp).
  run. exists (sorted pages). split; [done|].
  destruct (sorted_spec pages) as [Hs Hm]. split; [done|].
  intros p. rewrite Hm, Hp. rewrite elem_of_empty. tauto.
Qed.

(** ** Image objects *)

Section Heap.

Import PIL.

Lemma deref_Some (h : heap) (l : loc) (v : Image) :
  h !! l = Some v -> deref l h = (h, inr v).
Proof. unfold deref. by intros ->. Qed.

Lemma update_Some (h : heap) (l : loc) (v : Image) (f : Image -> Image) :
  h !! l = Some v -> update l f h = (<[ l := f v ]> h, inr tt).
Proof. intros Hl. unfold update, bind. by rewrite (deref_Some _ _ _ Hl). Qed.

(** An update at or above [n] leaves the first [n] objects alone. *)
Lemma take_insert_above (h : heap) (n l : nat) (v : Image) :
  (n <= l)%nat -> take n (<[ l := v ]> h) = take n h.
Proof. intros. by apply take_insert_ge. Qed.

Lemma take_alloc (h0 h : heap) (v : Image) :
  take (length h0) h = h0 -> take (length h0) (h ++ [v]) = h0.
Proof.
  intros Ht. rewrite take_app_le; [done|].
  rewrite <- Ht at 1. rewrite length_take. lia.
Qed.

Lemma lookup_alloc_old (h : heap) (l : loc) (v w : Image) :
  h !! l = Some v -> (h ++ [w]) !! l = Some v.
Proof. intros. by apply lookup_app_l_Some. Qed.

Lemma lookup_alloc_new (h : heap) (w : Image) :
  (h ++ [w]) !! length h = Some w.
Proof. by rewrite lookup_app_r, Nat.sub_diag. Qed.

(** Objects below [length h0] are those of [h0]. *)
Lemma lookup_take_prefix (h0 h : heap) (l : loc) (v : Image) :
  take (length h0) h = h0 -> h0 !! l = Some v -> h !! l = Some v.
Proof.
  intros Ht Hl. rewrite <- Ht in Hl.
  apply lookup_take_Some in Hl as [? _]. done.
Qed.

End Heap.

(** ** [_apply_masks] on image objects and on image values *)

Section ApplyMasks.

Context `{Services}.
Import PIL.

(** What [_apply_masks] does to the heap [h0]: the objects of [h0] are left
    as they are, and the result is a new object, at [length h0], whose
    pixels are [masked]; it raises exactly when [masked] does. *)
Lemma _apply_masks_run (self : Masker.t) (h0 : heap) (img : loc) (v : Image)
    (regions : list Region.t) (mask_type : string) :
  h0 !! img = Some v ->
  exists h' : heap,
    take (length h0) h' = h0
    /\ match Masker.masked self v regions mask_type with
       | inr v' =>
           Masker._apply_masks self img regions mask_type h0 = (h', inr (length h0))
           /\ h' !! length h0 = Some v'
       | inl e =>
           Masker._apply_masks self img regions mask_type h0 = (h', inl e)
       end.
Proof.
  intros Hv. unfold Masker._apply_masks, Masker.masked.
  unfold bind at 1. unfold copy, bind. rewrite (deref_Some _ _ _ Hv).
  unfold alloc.
  set (result := length h0).
  set (body := fun region : Region.t => _).
  assert (Hstep : forall region h cur,
    take (length h0) h = h0 -> h !! result = Some cur ->
    exists h1, take (length h0) h1 = h0
      /\ match Masker.mask_region self (width v) (height v) mask_type cur region with
         | inr cur' => body region h = (h1, inr tt) /\ h1 !! result = Some cur'
         | inl e => body region h = (h1, inl e)
         end).
  { intros region h cur Ht Hcur.
    assert (Himg : h !! img = Some v) by (by apply (lookup_take_prefix h0)).
    assert (Hlen : (result < length h)%nat) by (by apply lookup_lt_Some in Hcur).
    unfold body, Masker.mask_region, get_width, get_height, bind.
    rewrite (deref_Some _ _ _ Himg). unfold ret.
    rewrite (deref_Some _ _ _ Himg).
    destruct (Masker.degenerate _); [by exists h|].
    destruct (Masker.clamp (width v) (height v) region) as [[[x0 y0] x1] y1].
    destruct (String.eqb mask_type "blur").
    - unfold crop, raise.
      destruct (x1 <? x0); [by exists h|].
      destruct (y1 <? y0); [by exists h|].
      unfold bind. rewrite (deref_Some _ _ _ Hcur). unfold alloc.
      set (c := crop_pixels _ cur).
      unfold Masker.filter_GaussianBlur, bind.
      rewrite (deref_Some _ _ _ (lookup_alloc_new h c)). unfold alloc.
      set (b := GaussianBlur _ c).
      unfold paste, bind.
      assert (length (h ++ [c]) = length h + 1)%nat as Hl1
        by (rewrite length_app; simpl; lia).
      rewrite (deref_Some _ _ _ (lookup_alloc_new (h ++ [c]) b)).
      destruct ((width b =? x1 - x0) && (height b =? y1 - y0)).
      + rewrite (update_Some _ _ cur).
        2:{ by apply lookup_alloc_old, lookup_alloc_old. }
        eexists. split; [|split; [reflexivity|]].
        * rewrite take_insert_above by (unfold result; lia).
          by apply take_alloc, take_alloc.
        * apply list_lookup_insert_eq. rewrite !length_app. simpl. lia.
      + unfold raise. eexists. split; [|reflexivity].
        by apply take_alloc, take_alloc.
    - unfold draw_rectangle, bind. rewrite (deref_Some _ _ _ Hcur). unfold lift.
      destruct (getcolor _ (mode cur)) as [e|ink]; [by exists h|].
      unfold raise.
      destruct (x1 <? x0); [by exists h|].
      destruct (y1 <? y0); [by exists h|].
      rewrite (update_Some _ _ cur _ Hcur).
      eexists. split; [|split; [reflexivity|]].
      + by rewrite take_insert_above by (unfold result; lia).
      + by apply list_lookup_insert_eq. }
  assert (Hloop : forall regions h cur,
    take (length h0) h = h0 -> h !! result = Some cur ->
    exists h', take (length h0) h' = h0
      /\ match Masker.mask_regions self (width v) (height v) mask_type cur regions with
         | inr v' => for_ regions body h = (h', inr tt) /\ h' !! result = Some v'
         | inl e => for_ regions body h = (h', inl e)
         end).
  { clear regions. induction regions as [|region rest IH]; intros h cur Ht Hcur; simpl.
    - exists h. by split.
    - unfold bind.
      destruct (Hstep region h cur Ht Hcur) as (h1 & Ht1 & Hr).
      destruct (Masker.mask_region _ _ _ _ cur region) as [e|cur'].
      + rewrite Hr. by exists h1.
      + destruct Hr as [-> Hcur']. by apply IH. }
  destruct (Hloop regions (h0 ++ [v]) v) as (h' & Ht & Hr).
  { by rewrite take_app_length. }
  { apply lookup_alloc_new. }
  exists h'. split; [done|].
  destruct (Masker.mask_regions _ _ _ _ v regions) as [e|v'].
  - by rewrite Hr.
  - destruct Hr as [-> ?]. by split.
Qed.

End ApplyMasks.

(** ** Pixels *)

Section Pixels.

Import PIL.

Lemma getpixel_map_pixels (f : Z -> Z -> pixel -> pixel) (im : Image) (x y : Z) :
  getpixel (map_pixels f im) x y = f x y <$> getpixel im x y.
Proof.
  unfold getpixel, map_pixels. simpl.
  destruct ((x <? 0) || (y <? 0)) eqn:Hxy; [done|].
  apply orb_false_elim in Hxy as [Hx%Z.ltb_ge Hy%Z.ltb_ge].
  rewrite list_lookup_imap.
  destruct (data im !! Z.to_nat y) as [row|]; simpl; [|done].
  rewrite list_lookup_imap.
  destruct (row !! Z.to_nat x) as [p|]; simpl; [|done].
  by rewrite !Z2Nat.id.
Qed.

Lemma getpixel_fill_rectangle (b : box) (ink : pixel) (im : Image) (x y : Z) :
  getpixel (fill_rectangle b ink im) x y =
  (fun p => if on_box b x y then ink else p) <$> getpixel im x y.
Proof.
  destruct b as [[[x0 y0] x1] y1]. unfold fill_rectangle.
  by rewrite getpixel_map_pixels.
Qed.

Lemma fill_rectangle_size (b : box) (ink : pixel) (im : Image) :
  width (fill_rectangle b ink im) = width im
  /\ height (fill_rectangle b ink im) = height im
  /\ mode (fill_rectangle b ink im) = mode im.
Proof. by destruct b as [[[x0 y0] x1] y1]. Qed.

(** A well-formed image has a pixel at every point of its canvas. *)
Lemma wf_getpixel (im : Image) (x y : Z) :
  wf im -> 0 <= x < width im -> 0 <= y < height im ->
  is_Some (getpixel im x y).
Proof.
  intros [Hh Hw] Hx Hy. unfold getpixel.
  destruct ((x <? 0) || (y <? 0)) eqn:Hxy.
  { apply orb_prop in Hxy as [?%Z.ltb_lt|?%Z.ltb_lt]; lia. }
  destruct (lookup_lt_is_Some_2 (data im) (Z.to_nat y)) as [row Hrow]; [lia|].
  rewrite Hrow. apply lookup_lt_is_Some_2.
  rewrite Forall_forall in Hw.
  specialize (Hw row (list_elem_of_lookup_2 _ _ _ Hrow)). lia.
Qed.

Lemma getcolor_mask (mask_type : string) (m : Mode) :
  exists ink,
    getcolor (if String.eqb mask_type "black" then "black" else "white") m = inr ink.
Proof. destruct (String.eqb mask_type "black"); unfold getcolor; simpl; eauto. Qed.

End Pixels.

(** ** The masking loop on image values *)

Section MaskRegions.

Context `{Services}.
Import PIL.

Variables (self : Masker.t) (iw ih : Z) (mask_type : string).

Local Arguments Masker.clamp : simpl never.
Local Arguments Masker.degenerate : simpl never.
Local Arguments on_box : simpl never.
Local Arguments fill_rectangle : simpl never.

Lemma degenerate_false (b : box) :
  Masker.degenerate b = false -> b.1.1.1 < b.1.2 /\ b.1.1.2 < b.2.
Proof.
  destruct b as [[[x0 y0] x1] y1]. unfold Masker.degenerate. simpl.
  intros [?%Z.leb_gt ?%Z.leb_gt]%orb_false_elim. lia.
Qed.

Lemma mask_region_size (cur cur' : Image) (region : Region.t) :
  Masker.mask_region self iw ih mask_type cur region = inr cur' ->
  width cur' = width cur /\ height cur' = height cur /\ mode cur' = mode cur.
Proof.
  unfold Masker.mask_region.
  destruct (Masker.degenerate _); [by intros [= <-]|].
  destruct (Masker.clamp iw ih region) as [[[x0 y0] x1] y1].
  destruct (String.eqb mask_type "blur").
  - destruct (x1 <? x0); [done|]. destruct (y1 <? y0); [done|].
    destruct (_ && _); [|done]. intros [= <-]. by repeat split.
  - destruct (getcolor _ _) as [e|ink]; [done|].
    destruct (x1 <? x0); [done|]. destruct (y1 <? y0); [done|].
    intros [= <-]. by repeat split.
Qed.

Lemma mask_regions_size (regions : list Region.t) (cur v' : Image) :
  Masker.mask_regions self iw ih mask_type cur regions = inr v' ->
  width v' = width cur /\ height v' = height cur /\ mode v' = mode cur.
Proof.
  revert cur. induction regions as [|region rest IH]; intros cur; simpl.
  - by intros [= <-].
  - destruct (Masker.mask_region _ _ _ _ cur region) as [e|cur'] eqn:E; [done|].
    intros Hr. destruct (IH _ Hr) as (-> & -> & ->). by apply (mask_region_size _ _ _ E).
Qed.

(** A region the loop skips leaves the pixels as they are. *)
Lemma mask_region_skip (cur : Image) (region : Region.t) :
  Masker.visible iw ih region = false ->
  Masker.mask_region self iw ih mask_type cur region = inr cur.
Proof.
  unfold Masker.visible, Masker.mask_region.
  intros Hd%negb_false_iff. by rewrite Hd.
Qed.

Lemma mask_regions_filter (regions : list Region.t) (cur : Image) :
  Masker.mask_regions self iw ih mask_type cur regions =
  Masker.mask_regions self iw ih mask_type cur
    (List.filter (Masker.visible iw ih) regions).
Proof.
  revert cur. induction regions as [|region rest IH]; intros cur; simpl; [done|].
  destruct (Masker.visible iw ih region) eqn:Hv; simpl.
  - destruct (Masker.mask_region _ _ _ _ cur region); [done|]. apply IH.
  - rewrite (mask_region_skip _ _ Hv). apply IH.
Qed.

(** The loop raises nothing: a flat fill always goes through, and a blur
    does when the filter keeps the size of the cropped box. *)
Lemma mask_region_total (cur : Image) (region : Region.t) :
  (String.eqb mask_type "blur" = true -> Masker.blur_keeps_size) ->
  exists cur', Masker.mask_region self iw ih mask_type cur region = inr cur'.
Proof.
  intros Hblur. unfold Masker.mask_region.
  destruct (Masker.degenerate _) eqn:Hd; [eauto|].
  apply degenerate_false in Hd.
  destruct (Masker.clamp iw ih region) as [[[x0 y0] x1] y1]. simpl in Hd.
  assert ((x1 <? x0) = false) as -> by (apply Z.ltb_ge; lia).
  assert ((y1 <? y0) = false) as -> by (apply Z.ltb_ge; lia).
  destruct (String.eqb mask_type "blur").
  - destruct (Hblur eq_refl (Masker.blur_radius self)
                (crop_pixels (x0, y0, x1, y1) cur)) as [-> ->].
    simpl. rewrite !Z.eqb_refl. simpl. eauto.
  - destruct (getcolor_mask mask_type (mode cur)) as [ink ->]. eauto.
Qed.

Lemma mask_regions_total (regions : list Region.t) (cur : Image) :
  (String.eqb mask_type "blur" = true -> Masker.blur_keeps_size) ->
  exists v', Masker.mask_regions self iw ih mask_type cur regions = inr v'.
Proof.
  intros Hblur. revert cur.
  induction regions as [|region rest IH]; intros cur; simpl; [eauto|].
  destruct (mask_region_total cur region Hblur) as [cur' ->]. apply IH.
Qed.

(** With a flat colour, a pixel takes the ink when it lies on the clamped
    box of a region that is not skipped, and keeps its value otherwise. *)
Lemma mask_regions_fill (regions : list Region.t) (cur : Image) (ink : pixel) :
  String.eqb mask_type "blur" = false ->
  getcolor (if String.eqb mask_type "black" then "black" else "white") (mode cur)
    = inr ink ->
  exists v',
    Masker.mask_regions self iw ih mask_type cur regions = inr v'
    /\ forall x y,
         getpixel v' x y =
         (fun p =>
            if List.existsb (fun r => Masker.visible iw ih r
                                      && on_box (Masker.clamp iw ih r) x y) regions
            then ink else p) <$> getpixel cur x y.
Proof.
  intros Hmt. revert cur.
  induction regions as [|region rest IH]; intros cur Hink;
    cbn [Masker.mask_regions List.existsb].
  - exists cur. split; [done|]. intros x y. by destruct (getpixel cur x y).
  - unfold Masker.mask_region, Masker.visible.
    destruct (Masker.clamp iw ih region) as [[[x0 y0] x1] y1] eqn:Hb.
    destruct (Masker.degenerate (x0, y0, x1, y1)) eqn:Hd; cbn [negb andb orb].
    + destruct (IH cur Hink) as (v' & -> & Hp). by exists v'.
    + apply degenerate_false in Hd. cbn [fst snd] in Hd.
      rewrite Hmt, Hink.
      assert ((x1 <? x0) = false) as -> by (apply Z.ltb_ge; lia).
      assert ((y1 <? y0) = false) as -> by (apply Z.ltb_ge; lia).
      destruct (IH (fill_rectangle (x0, y0, x1, y1) ink cur)) as (v' & -> & Hp).
      { by destruct (fill_rectangle_size (x0, y0, x1, y1) ink cur) as (_ & _ & ->). }
      exists v'. split; [done|]. intros x y.
      rewrite Hp, getpixel_fill_rectangle.
      destruct (getpixel cur x y) as [p|]; cbn [fmap option_fmap option_map]; [|done].
      destruct (on_box (x0, y0, x1, y1) x y); cbn [orb]; [|done].
      by destruct (List.existsb _ rest).
Qed.

End MaskRegions.

(** ** [Masker._apply_masks] *)

Section ApplyMasksProperties.

Context `{Services}.
Import PIL.

Local Arguments Masker.clamp : simpl never.

(** A caller of [_apply_masks] reads the pixels [masked] computes. *)
Lemma returned_apply_masks (self : Masker.t) (h0 : heap) (img : loc) (v : Image)
    (regions : list Region.t) (mask_type : string) :
  h0 !! img = Some v ->
  Masker.returned (Masker._apply_masks self img regions mask_type h0)
  = Masker.masked self v regions mask_type.
Proof.
  intros Hv.
  destruct (_apply_masks_run self h0 img v regions mask_type Hv) as (h' & _ & Hr).
  destruct (Masker.masked self v regions mask_type) as [e|v'].
  - by rewrite Hr.
  - destruct Hr as [-> Hv']. simpl. by rewrite Hv'.
Qed.

Lemma clamp_bounds (iw ih : Z) (region : Region.t) :
  0 <= (Masker.clamp iw ih region).1.1.1
  /\ 0 <= (Masker.clamp iw ih region).1.1.2
  /\ (Masker.clamp iw ih region).1.2 <= iw
  /\ (Masker.clamp iw ih region).2 <= ih.
Proof. unfold Masker.clamp, Region.box. simpl. lia. Qed.

(** C1.  For the mask types "black" and "white", [_apply_masks] returns a
    new image in which every pixel strictly inside the clamped box of a
    region has the pure colour of the mask type, and every pixel strictly
    outside all clamped boxes is the pixel of the input image. *)
Theorem apply_masks_flat_colour (self : Masker.t) (h0 : heap) (img : loc)
    (v : Image) (regions : list Region.t) (mask_type : string) :
  h0 !! img = Some v ->
  wf v ->
  mask_type = "black" \/ mask_type = "white" ->
  exists (h' : heap) (v' : Image) (ink : pixel),
    Masker._apply_masks self img regions mask_type h0 = (h', inr (length h0))
    /\ h' !! length h0 = Some v'
    /\ getcolor mask_type (mode v) = inr ink
    /\ (forall (region : Region.t) (x y : Z),
          region ∈ regions ->
          strictly_inside (Masker.clamp (width v) (height v) region) x y ->
          getpixel v' x y = Some ink)
    /\ (forall x y : Z,
          (forall region, region ∈ regions ->
             strictly_outside (Masker.clamp (width v) (height v) region) x y) ->
          getpixel v' x y = getpixel v x y).
Proof.
  intros Hv Hwf Hmt.
  assert (String.eqb mask_type "blur" = false) as Hnb
    by (destruct Hmt as [-> | ->]; reflexivity).
  assert ((if String.eqb mask_type "black" then "black" else "white") = mask_type)
    as Hcol by (destruct Hmt as [-> | ->]; reflexivity).
  destruct (getcolor_mask mask_type (mode v)) as [ink Hink].
  destruct (mask_regions_fill self (width v) (height v) mask_type regions v ink
              Hnb Hink) as (v' & Hm & Hp).
  destruct (_apply_masks_run self h0 img v regions mask_type Hv) as (h' & _ & Hr).
  unfold Masker.masked in Hr. rewrite Hm in Hr. destruct Hr as [Hrun Hv'].
  exists h', v', ink. rewrite Hcol in Hink.
  split; [done|]. split; [done|]. split; [done|]. split.
  - intros region x y Hin Hins. rewrite Hp.
    pose proof (clamp_bounds (width v) (height v) region) as Hb.
    destruct (Masker.clamp (width v) (height v) region) as [[[x0 y0] x1] y1] eqn:Ec.
    simpl in Hb, Hins.
    destruct (wf_getpixel v x y Hwf) as [p ->]; [lia|lia|].
    cbn [fmap option_fmap option_map].
    assert (List.existsb (fun r => Masker.visible (width v) (height v) r
              && on_box (Masker.clamp (width v) (height v) r) x y) regions = true)
      as ->; [|done].
    apply existsb_exists. exists region. split; [by apply list_elem_of_In|].
    unfold Masker.visible. rewrite Ec. simpl.
    apply andb_true_intro. split.
    + apply negb_true_iff, orb_false_intro; apply Z.leb_gt; lia.
    + repeat (apply andb_true_intro; split); apply Z.leb_le; lia.
  - intros x y Hout. rewrite Hp.
    assert (List.existsb (fun r => Masker.visible (width v) (height v) r
              && on_box (Masker.clamp (width v) (height v) r) x y) regions = false)
      as ->; [|by destruct (getpixel v x y)].
    apply not_true_is_false. intros (region & Hin & Hon)%existsb_exists.
    apply list_elem_of_In in Hin. specialize (Hout region Hin).
    apply andb_prop in Hon as [_ Hon].
    destruct (Masker.clamp (width v) (height v) region) as [[[x0 y0] x1] y1].
    simpl in Hout, Hon.
    apply andb_prop in Hon as [[[?%Z.leb_le ?%Z.leb_le]%andb_prop ?%Z.leb_le]%andb_prop
                                 ?%Z.leb_le]. lia.
Qed.

(** C7.  A region whose clamped box has no positive width or height is
    skipped: a call reads the same pixels, or raises the same, with these
    regions removed from the list; a list of such regions only returns the
    pixels of the input, whatever the mask type; and no call raises, for a
    flat colour always and for a blur when the filter keeps the size of the
    image it is given. *)
Theorem apply_masks_skips_degenerate (self : Masker.t) (h0 : heap) (img : loc)
    (v : Image) (regions : list Region.t) (mask_type : string) :
  h0 !! img = Some v ->
  Masker.returned (Masker._apply_masks self img regions mask_type h0)
  = Masker.returned
      (Masker._apply_masks self img
         (List.filter (Masker.visible (width v) (height v)) regions) mask_type h0)
  /\ (List.filter (Masker.visible (width v) (height v)) regions = [] ->
      Masker.returned (Masker._apply_masks self img regions mask_type h0) = inr v)
  /\ ((String.eqb mask_type "blur" = true -> Masker.blur_keeps_size) ->
      exists v' : Image,
        Masker.returned (Masker._apply_masks self img regions mask_type h0) = inr v').
Proof.
  intros Hv. rewrite !(returned_apply_masks _ _ _ v) by done.
  unfold Masker.masked. split; [|split].
  - apply mask_regions_filter.
  - intros Hnil. by rewrite mask_regions_filter, Hnil.
  - apply mask_regions_total.
Qed.

(** C9.  The image [_apply_masks] returns has the width, the height and the
    mode of the input image; it is a new object, and the input image (like
    every other object there was) is left as it was. *)
Theorem apply_masks_preserves (self : Masker.t) (h0 : heap) (img : loc)
    (v : Image) (regions : list Region.t) (mask_type : string) :
  h0 !! img = Some v ->
  (String.eqb mask_type "blur" = true -> Masker.blur_keeps_size) ->
  exists (h' : heap) (v' : Image),
    Masker._apply_masks self img regions mask_type h0 = (h', inr (length h0))
    /\ h' !! length h0 = Some v'
    /\ width v' = width v /\ height v' = height v /\ mode v' = mode v
    /\ length h0 <> img
    /\ h' !! img = Some v
    /\ take (length h0) h' = h0.
Proof.
  intros Hv Hblur.
  destruct (_apply_masks_run self h0 img v regions mask_type Hv) as (h' & Ht & Hr).
  unfold Masker.masked in Hr.
  destruct (mask_regions_total self (width v) (height v) mask_type regions v Hblur)
    as [v' Hm].
  rewrite Hm in Hr. destruct Hr as [Hrun Hv'].
  exists h', v'. split; [done|]. split; [done|].
  destruct (mask_regions_size _ _ _ _ _ _ _ Hm) as (-> & -> & ->).
  repeat split; try done.
  - apply lookup_lt_Some in Hv. lia.
  - by apply (lookup_take_prefix h0).
Qed.

End ApplyMasksProperties.

(** ** Floats: multiplying by 1.0 *)

Section Floats.

Import PyFloat.

Lemma strip_zeros_spec (p : positive) (e : Z) :
  0 <= e ->
  let '(q, e') := strip_zeros p e in
  Zpos p * 2 ^ e = Zpos q * 2 ^ e' /\ e <= e' /\ Z.odd (Zpos q) = true
  /\ Zpos q <= Zpos p.
Proof.
  revert e. induction p as [p IH|p IH|]; intros e He; simpl.
  - repeat split; lia.
  - specialize (IH (e + 1)). destruct (strip_zeros p (e + 1)) as [q e'].
    destruct IH as (Hv & Hle & Hodd & Hq); [lia|].
    repeat split; try lia; try done.
    rewrite <- Hv, Z.pow_add_r by lia. lia.
  - repeat split; lia.
Qed.

Lemma strip_zeros_odd (p : positive) (e : Z) :
  Z.odd (Zpos p) = true -> strip_zeros p e = (p, e).
Proof. by destruct p. Qed.

Lemma canon_odd (m e : Z) : Z.odd m = true -> canon m e = Finite m e.
Proof.
  destruct m as [|p|p]; simpl; [done| |]; intros Hp.
  - by rewrite strip_zeros_odd.
  - by rewrite strip_zeros_odd by (by destruct p).
Qed.

(** Rounding a double gives the double. *)
Lemma round_double (m e : Z) :
  is_double (Finite m e) = true -> round m e = Finite m e.
Proof.
  unfold is_double, round.
  destruct (Z.eq_dec m 0) as [->|Hm].
  - intros ->%Z.eqb_eq. reflexivity.
  - assert (Hd : Z.odd m && (Z.log2 (Z.abs m) <? 53) && (- 1074 <=? e)
                 && (Z.log2 (Z.abs m) + e <? 1024) = true ->
                 round m e = Finite m e); [|by destruct m].
    intros [[[Ho Hl%Z.ltb_lt]%andb_prop He%Z.leb_le]%andb_prop Hx%Z.ltb_lt]%andb_prop.
    unfold round.
    assert ((0 <? Z.max (Z.log2 (Z.abs m) + 1 - 53) (- 1074 - e)) = false) as ->
      by (apply Z.ltb_ge; lia).
    assert ((Z.abs m =? 0) = false) as -> by (apply Z.eqb_neq; lia).
    assert ((1024 <=? Z.log2 (Z.abs m) + e) = false) as -> by (apply Z.leb_gt; lia).
    rewrite Z.mul_comm, Z.abs_sgn. by apply canon_odd.
Qed.

(** [x * 1.0] is [x]. *)
Lemma mul_one (x : float) : is_double x = true -> mul x one = x.
Proof.
  destruct x as [m e|s|]; intros Hx; simpl; [|by destruct s|done].
  rewrite Z.mul_1_r, Z.add_0_r. by apply round_double.
Qed.

(** [float(z)] is exact below 2^53. *)
Lemma of_int_small (z : Z) :
  Z.abs z < 2 ^ 53 ->
  exists m e, of_int z = inr (Finite m e) /\ is_double (Finite m e) = true
              /\ 0 <= e /\ m * 2 ^ e = z.
Proof.
  intros Hz. unfold of_int, round.
  destruct (Z.eq_dec z 0) as [->|Hnz].
  { exists 0, 0. by repeat split. }
  assert (Z.log2 (Z.abs z) < 53) as Hl by (apply Z.log2_lt_pow2; lia).
  assert ((0 <? Z.max (Z.log2 (Z.abs z) + 1 - 53) (- 1074 - 0)) = false) as ->
    by (apply Z.ltb_ge; lia).
  assert ((Z.abs z =? 0) = false) as -> by (apply Z.eqb_neq; lia).
  assert ((1024 <=? Z.log2 (Z.abs z) + 0) = false) as -> by (apply Z.leb_gt; lia).
  rewrite Z.mul_comm, Z.abs_sgn.
  assert (Hpos : forall p : positive, Zpos p < 2 ^ 53 ->
    let '(q, e) := strip_zeros p 0 in
    is_double (Finite (Zpos q) e) = true /\ is_double (Finite (Zneg q) e) = true
    /\ 0 <= e /\ Zpos q * 2 ^ e = Zpos p).
  { intros p Hp. pose proof (strip_zeros_spec p 0 ltac:(lia)) as Hs.
    destruct (strip_zeros p 0) as [q e]. destruct Hs as (Hv & He & Ho & Hq).
    rewrite Z.pow_0_r, Z.mul_1_r in Hv.
    assert (Z.log2 (Zpos q) + e < 53).
    { rewrite Z.add_comm, <- Z.log2_mul_pow2 by lia. rewrite <- Hv.
      apply Z.log2_lt_pow2; lia. }
    assert (0 <= Z.log2 (Zpos q)) by apply Z.log2_nonneg.
    assert (Hd : Z.odd (Zpos q) && (Z.log2 (Zpos q) <? 53) && (- 1074 <=? e)
                 && (Z.log2 (Zpos q) + e <? 1024) = true).
    { rewrite Ho.
      assert ((Z.log2 (Zpos q) <? 53) = true) as -> by (apply Z.ltb_lt; lia).
      assert ((- 1074 <=? e) = true) as -> by (apply Z.leb_le; lia).
      assert ((Z.log2 (Zpos q) + e <? 1024) = true) as -> by (apply Z.ltb_lt; lia).
      reflexivity. }
    repeat split; try lia; try done. }
  destruct z as [|p|p]; [done| |]; simpl.
  - specialize (Hpos p Hz). destruct (strip_zeros p 0) as [q e].
    destruct Hpos as (Hd & _ & He & Hv). exists (Zpos q), e. by repeat split.
  - specialize (Hpos p Hz). destruct (strip_zeros p 0) as [q e].
    destruct Hpos as (_ & Hd & He & Hv). exists (Zneg q), e.
    repeat split; try done. lia.
Qed.

(** [int(z * 1.0)] is [z] for an integer of magnitude at most 2^53. *)
Lemma int_mul_one (z : Z) :
  Z.abs z <= 2 ^ 53 ->
  match int_mul z one with
  | inr f => to_int f
  | inl e => inl e
  end = inr z.
Proof.
  intros Hz.
  assert (Z.abs z < 2 ^ 53 \/ z = 2 ^ 53 \/ z = - 2 ^ 53) as [Hlt|[->| ->]] by lia;
    [|by vm_compute..].
  destruct (of_int_small z Hlt) as (m & e & Hf & Hd & He & Hv).
  unfold int_mul. rewrite Hf, (mul_one _ Hd). simpl.
  assert ((0 <=? e) = true) as -> by (apply Z.leb_le; lia). by rewrite Hv.
Qed.

End Floats.

(** ** [Masker.redact] *)

Section Redact.

Context `{Services}.
Import PIL.

Lemma take_prefix_trans (a b c : heap) :
  take (length a) b = a -> take (length b) c = b -> take (length a) c = a.
Proof.
  intros Hab Hbc.
  assert (length a <= length b)%nat.
  { rewrite <- Hab at 1. rewrite length_take. lia. }
  rewrite <- Hbc in Hab. rewrite take_take in Hab.
  by replace (length a `min` length b)%nat with (length a) in Hab by lia.
Qed.

Lemma getitem_nat {A} (xs : list A) (i : nat) (a : A) :
  xs !! i = Some a -> getitem xs (Z.of_nat i) = inr a.
Proof.
  intros Hi. unfold getitem.
  assert ((Z.of_nat i <? 0) = false) as -> by (apply Z.ltb_ge; lia).
  by rewrite Nat2Z.id, Hi.
Qed.

(** The loop of [redact]: one image object per page, in page order, each
    with the pixels of [page_raster]; the objects there were are left as
    they were. *)
Lemma redact_pages_run (self : Masker.t) (pdf : list Page)
    (page_regions : gmap Z (list Region.t)) (mask_type : string) (h0 : heap) :
  (String.eqb mask_type "blur" = true -> Masker.blur_keeps_size) ->
  exists (h' : heap) (page_images : list loc) (vs : list Image),
    Masker.redact_pages self pdf page_regions mask_type h0 = (h', inr page_images)
    /\ take (length h0) h' = h0
    /\ Forall2 (fun l v => h' !! l = Some v) page_images vs
    /\ length vs = length pdf
    /\ forall (i : nat) (page : Page),
         pdf !! i = Some page ->
         exists v : Image,
           vs !! i = Some v
           /\ Masker.page_raster self page_regions mask_type (Z.of_nat i + 1) page
              = inr v.
Proof.
  intros Hblur. unfold Masker.redact_pages.
  set (body := fun (page_images : list loc) (page_idx : Z) => _).
  assert (Hloop : forall (n k : nat) (acc : list loc) (h : heap),
    (k + n = length pdf)%nat ->
    exists (h' : heap) (imgs : list loc) (vs : list Image),
      foldM body (seqZ (Z.of_nat k) (Z.of_nat n)) acc h = (h', inr (acc ++ imgs))
      /\ take (length h) h' = h
      /\ Forall2 (fun l v => h' !! l = Some v) imgs vs
      /\ length vs = n
      /\ forall (i : nat) (page : Page),
           pdf !! (k + i)%nat = Some page ->
           exists v : Image,
             vs !! i = Some v
             /\ Masker.page_raster self page_regions mask_type
                  (Z.of_nat (k + i) + 1) page = inr v).
  { induction n as [|n IH]; intros k acc h Hk.
    - exists h, [], []. simpl. rewrite app_nil_r, firstn_all.
      split; [done|]. split; [done|]. split; [constructor|]. split; [done|].
      intros i page Hp. apply lookup_lt_Some in Hp. lia.
    - rewrite seqZ_cons by lia.
      replace (Z.succ (Z.of_nat k)) with (Z.of_nat (S k)) by lia.
      replace (Z.pred (Z.of_nat (S n))) with (Z.of_nat n) by lia.
      simpl. unfold bind at 1.
      destruct (lookup_lt_is_Some_2 pdf k) as [page Hpage]; [lia|].
      assert (Hstep : exists (h1 : heap) (l : loc) (v : Image),
        body acc (Z.of_nat k) h = (h1, inr (acc ++ [l]))
        /\ take (length h) h1 = h /\ h1 !! l = Some v
        /\ Masker.page_raster self page_regions mask_type (Z.of_nat k + 1) page
           = inr v).
      { unfold body, bind, lift. rewrite (getitem_nat _ _ _ Hpage).
        unfold alloc, Masker.page_raster.
        set (r := render page (Masker.render_scale self)).
        destruct (page_regions !! (Z.of_nat k + 1)) as [regions|].
        - destruct (_apply_masks_run self (h ++ [r]) (length h) r regions mask_type)
            as (h1 & Ht & Hr); [apply lookup_alloc_new|].
          destruct (mask_regions_total self (width r) (height r) mask_type
                      regions r Hblur) as [v Hm].
          unfold Masker.masked in *. rewrite Hm in Hr. destruct Hr as [-> Hv].
          exists h1, (length (h ++ [r])), v. unfold ret.
          split; [done|]. split; [|by split].
          apply (take_prefix_trans h (h ++ [r]) h1); [|done].
          by rewrite take_app_length.
        - exists (h ++ [r]), (length h), r. unfold ret.
          split; [done|]. split; [by rewrite take_app_length|].
          split; [apply lookup_alloc_new|done]. }
      destruct Hstep as (h1 & l & v & -> & Ht1 & Hl & Hv).
      destruct (IH (S k) (acc ++ [l]) h1)
        as (h' & imgs & vs & -> & Ht & Hvs & Hlen & Hi); [lia|].
      exists h', (l :: imgs), (v :: vs). rewrite <- app_assoc. simpl.
      split; [done|]. split; [by apply (take_prefix_trans h h1 h')|].
      split; [|split; [by rewrite Hlen|]].
      + constructor; [|done]. by apply (lookup_take_prefix h1).
      + intros [|i] page' Hp.
        * rewrite Nat.add_0_r in Hp |- *.
          assert (page' = page) as -> by congruence.
          by exists v.
        * replace (k + S i)%nat with (S k + i)%nat in Hp |- * by lia.
          apply Hi, Hp. }
  unfold range, len. rewrite Z.sub_0_r.
  destruct (Hloop (length pdf) 0%nat [] h0)
    as (h' & imgs & vs & Hrun & Ht & Hvs & Hlen & Hi); [lia|].
  exists h', imgs, vs. simpl in Hrun. by repeat split.
Qed.

End Redact.

Section Encode.

Context `{Services}.
Import PIL.

Lemma heap_values_mono (h h' : heap) (ls : list loc) (vs : list Image) :
  take (length h) h' = h ->
  Forall2 (fun l v => h !! l = Some v) ls vs ->
  Forall2 (fun l v => h' !! l = Some v) ls vs.
Proof.
  intros Ht Hf. eapply Forall2_impl; [exact Hf|].
  intros l v. by apply lookup_take_prefix.
Qed.

Lemma save_pdf_run (h : heap) (ls : list loc) (vs : list Image) :
  Forall2 (fun l v => h !! l = Some v) ls vs ->
  forall acc : list Image,
    foldM (fun pages im => let* v := deref im in ret (pages ++ [v])) ls acc h
    = (h, inr (acc ++ vs)).
Proof.
  induction 1 as [|l v ls vs Hl _ IH]; intros acc; simpl.
  - by rewrite app_nil_r.
  - unfold bind at 1. unfold bind at 1. rewrite (deref_Some _ _ _ Hl). unfold ret at 1.
    rewrite IH. by rewrite <- app_assoc.
Qed.

(** [_images_to_pdf] writes the images in order, each converted to RGB
    when it is not, and raises [ValueError] on an empty list. *)
Lemma _images_to_pdf_run (h : heap) (images : list loc) (vs : list Image) :
  Forall2 (fun l v => h !! l = Some v) images vs ->
  match images with
  | [] => Masker._images_to_pdf images h = (h, inl (ValueError "No images to convert"))
  | _ => exists h' : heap,
           Masker._images_to_pdf images h = (h', inr (List.map Masker.encoded vs))
           /\ take (length h) h' = h
  end.
Proof.
  intros Hvs. destruct images as [|img0 images0]; [done|].
  unfold Masker._images_to_pdf.
  set (cbody := fun (rgb_images : list loc) (img : loc) => _).
  assert (Hconv : forall (images : list loc) (vs : list Image) (acc : list loc) (h1 : heap),
    Forall2 (fun l v => h1 !! l = Some v) images vs ->
    exists (h2 : heap) (rgb : list loc),
      foldM cbody images acc h1 = (h2, inr (acc ++ rgb))
      /\ take (length h1) h2 = h1
      /\ Forall2 (fun l v => h2 !! l = Some v) rgb (List.map Masker.encoded vs)).
  { clear. induction images as [|img images IH]; intros vs acc h1 Hvs.
    - apply Forall2_nil_inv_l in Hvs as ->. exists h1, []. simpl.
      rewrite app_nil_r, firstn_all. by repeat split.
    - apply Forall2_cons_inv_l in Hvs as (v & vs' & Hv & Hvs' & ->). simpl.
      unfold bind at 1.
      assert (Hstep : exists (h1' : heap) (l : loc),
        cbody acc img h1 = (h1', inr (acc ++ [l]))
        /\ take (length h1) h1' = h1 /\ h1' !! l = Some (Masker.encoded v)).
      { unfold cbody, get_mode, bind. rewrite (deref_Some _ _ _ Hv).
        unfold ret at 1. unfold Masker.encoded.
        destruct (negb (Mode_eqb (mode v) RGB)).
        - unfold convert, bind. rewrite (deref_Some _ _ _ Hv). unfold alloc, ret.
          exists (h1 ++ [convert_rgb v]), (length h1).
          split; [done|]. split; [by rewrite take_app_length|apply lookup_alloc_new].
        - unfold ret. exists h1, img. by rewrite firstn_all. }
      destruct Hstep as (h1' & l & -> & Ht1 & Hl).
      destruct (IH vs' (acc ++ [l]) h1') as (h2 & rgb & -> & Ht2 & Hrgb).
      { by apply (heap_values_mono h1). }
      exists h2, (l :: rgb). rewrite <- app_assoc. simpl.
      split; [done|]. split; [by apply (take_prefix_trans h1 h1' h2)|].
      constructor; [|done]. by apply (lookup_take_prefix h1'). }
  destruct (Hconv (img0 :: images0) vs [] h Hvs) as (h2 & rgb & Hrun & Ht & Hrgb).
  rewrite app_nil_l in Hrun. unfold bind at 1. rewrite Hrun.
  assert (exists first rest, rgb = first :: rest) as (first & rest & ->).
  { apply Forall2_length in Hrgb, Hvs. rewrite length_map in Hrgb.
    destruct rgb; [simpl in *; lia|eauto]. }
  unfold bind, lift. change (getitem (first :: rest) 0) with (@inr exn loc first).
  cbv beta iota.
  assert ((if 1 <? len (first :: rest) then drop 1 (first :: rest) else []) = rest)
    as ->.
  { simpl. destruct (1 <? len (first :: rest)) eqn:E; [done|].
    apply Z.ltb_ge in E. unfold len in E. simpl in E. destruct rest; [done|].
    simpl in E. lia. }
  unfold Masker.save_pdf. rewrite (save_pdf_run h2 _ _ Hrgb []).
  by exists h2.
Qed.

End Encode.

Section RedactProperties.

Context `{Services}.
Import PIL.

(** The pixels [_apply_masks] returns for an image with the pixels [v],
    whatever else the heap holds. *)
Lemma masked_standalone (self : Masker.t) (v : Image) (regions : list Region.t)
    (mask_type : string) :
  Masker.masked self v regions mask_type
  = Masker.returned (Masker._apply_masks self 0%nat regions mask_type [v]).
Proof. symmetry. by apply returned_apply_masks. Qed.

(** C2.  [redact] goes through the pages 1..page_count in ascending order and
    writes one raster per page, in page order: the rendered page, masked by
    [_apply_masks] exactly when its number is a key of [page_regions], and
    then converted for encoding; without pages it raises [ValueError]. *)
Theorem redact_every_page_in_order (self : Masker.t) (pdf_path : string)
    (pdf : list Page) (page_regions : gmap Z (list Region.t))
    (mask_type : string) (h0 : heap) :
  open_pdf pdf_path = inr pdf ->
  (String.eqb mask_type "blur" = true -> Masker.blur_keeps_size) ->
  match pdf with
  | [] =>
      exists h' : heap,
        Masker.redact self pdf_path page_regions mask_type h0
        = (h', inl (ValueError "No images to convert"))
  | _ =>
      exists (h' : heap) (out : list Image),
        Masker.redact self pdf_path page_regions mask_type h0 = (h', inr out)
        /\ length out = length pdf
        /\ forall (i : nat) (page : Page),
             pdf !! i = Some page ->
             exists v : Image,
               out !! i = Some (Masker.encoded v)
               /\ match page_regions !! (Z.of_nat i + 1) with
                  | Some regions =>
                      Masker.returned
                        (Masker._apply_masks self 0%nat regions mask_type
                           [render page (Masker.render_scale self)]) = inr v
                  | None => v = render page (Masker.render_scale self)
                  end
  end.
Proof.
  intros Hopen Hblur. unfold Masker.redact, bind, lift. rewrite Hopen.
  destruct (redact_pages_run self pdf page_regions mask_type h0 Hblur)
    as (h1 & imgs & vs & -> & Ht & Hvs & Hlen & Hi).
  pose proof (_images_to_pdf_run h1 imgs vs Hvs) as Henc.
  destruct pdf as [|page0 pdf'].
  - destruct vs; [|done]. apply Forall2_nil_inv_r in Hvs as ->.
    exists h1. exact Henc.
  - destruct imgs as [|l imgs'].
    { apply Forall2_length in Hvs. simpl in *. lia. }
    destruct Henc as (h' & -> & _).
    exists h', (List.map Masker.encoded vs).
    split; [done|]. split; [by rewrite length_map|].
    intros i page Hp. destruct (Hi i page Hp) as (v & Hv & Hr).
    exists v. split.
    + change (List.map Masker.encoded vs) with (Masker.encoded <$> vs).
      by rewrite list_lookup_fmap, Hv.
    + unfold Masker.page_raster in Hr.
      destruct (page_regions !! (Z.of_nat i + 1)) as [regions|].
      * by rewrite <- masked_standalone.
      * by injection Hr.
Qed.

(** C8.  Keys of [page_regions] outside 1..page_count are never looked at:
    [redact] runs the same, to the same result, on the mapping without
    them. *)
Theorem redact_ignores_keys_out_of_range (self : Masker.t) (pdf_path : string)
    (pdf : list Page) (page_regions : gmap Z (list Region.t))
    (mask_type : string) (h0 : heap) :
  open_pdf pdf_path = inr pdf ->
  Masker.redact self pdf_path page_regions mask_type h0
  = Masker.redact self pdf_path
      (filter (fun kv => 1 <= kv.1 <= len pdf) page_regions) mask_type h0.
Proof.
  intros Hopen. unfold Masker.redact, bind, lift. rewrite Hopen.
  assert (Masker.redact_pages self pdf page_regions mask_type h0
          = Masker.redact_pages self pdf
              (filter (fun kv => 1 <= kv.1 <= len pdf) page_regions) mask_type h0)
    as ->; [|done].
  unfold Masker.redact_pages. apply foldM_ext.
  intros page_idx acc s Hin. unfold range in Hin.
  apply elem_of_seqZ in Hin.
  assert (filter (fun kv : Z * list Region.t => 1 <= kv.1 <= len pdf) page_regions
            !! (page_idx + 1) = page_regions !! (page_idx + 1)) as ->; [|done].
  rewrite map_lookup_filter.
  destruct (page_regions !! (page_idx + 1)) as [regions|]; simpl; [|done].
  rewrite option_guard_True; [done|]. simpl. lia.
Qed.

End RedactProperties.

(** ** Preview and commit *)

Section PreviewCommit.

Context `{Services}.
Import PIL.

Lemma scale_region_one (r : Region.t) :
  Region.float_exact r -> Masker.scale_region PyFloat.one r = inr r.
Proof.
  destruct r as [x y w h]. unfold Region.float_exact, Masker.scale_region. simpl.
  intros (Hx & Hy & Hw & Hh). unfold Masker.scale_coord.
  by rewrite (int_mul_one x Hx), (int_mul_one y Hy), (int_mul_one w Hw),
    (int_mul_one h Hh).
Qed.

Lemma traverse_scale_one (regions : list Region.t) :
  Forall Region.float_exact regions ->
  traverse (Masker.scale_region PyFloat.one) regions = inr regions.
Proof.
  induction 1 as [|r rs Hr _ IH]; simpl; [done|].
  by rewrite (scale_region_one r Hr), IH.
Qed.

Lemma getitem_Z {A} (xs : list A) (i : Z) :
  0 <= i < len xs -> exists a, xs !! Z.to_nat i = Some a /\ getitem xs i = inr a.
Proof.
  unfold len. intros Hi.
  destruct (lookup_lt_is_Some_2 xs (Z.to_nat i)) as [a Ha]; [lia|].
  exists a. split; [done|].
  rewrite <- (Z2Nat.id i) by lia. by apply getitem_nat.
Qed.

(** C3, as it holds.  For a page number of the document and regions whose
    coordinates a double holds exactly (magnitude at most 2^53), the image
    [preview_page] returns at [scale=1.0] has the pixels of the raster that
    [redact] computes for that page with [page_regions = {n: regions}]. *)
Theorem preview_matches_commit (self : Masker.t) (pdf_path : string)
    (pdf : list Page) (page_num : Z) (regions : list Region.t)
    (mask_type : string) (h0 : heap) :
  open_pdf pdf_path = inr pdf ->
  1 <= page_num <= len pdf ->
  PyFloat.is_double (Masker.render_scale self) = true ->
  Forall Region.float_exact regions ->
  (String.eqb mask_type "blur" = true -> Masker.blur_keeps_size) ->
  exists v : Image,
    Masker.returned
      (Masker.preview_page self pdf_path page_num (Some regions) mask_type
         PyFloat.one h0) = inr v
    /\ Masker.committed_page self pdf {[ page_num := regions ]} mask_type
         page_num h0 = inr v.
Proof.
  intros Hopen Hn Hscale Hexact Hblur.
  destruct (getitem_Z pdf (page_num - 1)) as (page & Hpage & Hget); [lia|].
  set (r := render page (Masker.render_scale self)).
  destruct (mask_regions_total self (width r) (height r) mask_type regions r Hblur)
    as [v Hv].
  exists v. split.
  - unfold Masker.preview_page, bind, lift. rewrite Hopen.
    assert ((page_num <? 1) || (len pdf <? page_num) = false) as ->.
    { apply orb_false_intro; apply Z.ltb_ge; lia. }
    rewrite Hget, (mul_one _ Hscale). fold r. unfold alloc at 1.
    destruct regions as [|r0 rs]; simpl.
    + unfold ret. simpl in Hv. injection Hv as <-.
      by rewrite lookup_alloc_new.
    + pose proof (traverse_scale_one _ Hexact) as Ht. simpl in Ht.
      destruct (Masker.scale_region PyFloat.one r0) as [e|r0']; [done|].
      destruct (traverse (Masker.scale_region PyFloat.one) rs) as [e|rs']; [done|].
      injection Ht as -> ->.
      rewrite (returned_apply_masks self (h0 ++ [r]) (length h0) r).
      * exact Hv.
      * apply lookup_alloc_new.
  - unfold Masker.committed_page.
    destruct (redact_pages_run self pdf {[ page_num := regions ]} mask_type h0 Hblur)
      as (h' & imgs & vs & -> & _ & Hvs & Hlen & Hi).
    destruct (Hi _ _ Hpage) as (v' & Hv' & Hr).
    replace (Z.of_nat (Z.to_nat (page_num - 1)) + 1) with page_num in Hr by lia.
    unfold Masker.page_raster in Hr. rewrite lookup_singleton_eq in Hr.
    fold r in Hr. unfold Masker.masked in Hr. rewrite Hv in Hr. injection Hr as <-.
    destruct (Forall2_lookup_r _ _ _ _ _ Hvs Hv') as (l & Hl & Hhl).
    assert (getitem imgs (page_num - 1) = inr l) as ->.
    { rewrite <- (Z2Nat.id (page_num - 1)) by lia. by apply getitem_nat. }
    simpl. by rewrite Hhl.
Qed.

End PreviewCommit.

(** ** The redaction session *)

Section Session.

Context `{Services}.
Import PIL FileskadisApp.

Lemma app_stable_ret {A} (a : A) : app_stable (ret a).
Proof. by intros s. Qed.

Lemma app_stable_self : app_stable self_.
Proof. by intros s. Qed.

Lemma app_stable_on_heap {A} (m : M heap A) : app_stable (on_heap m).
Proof. intros s. unfold on_heap. by destruct (m s.2). Qed.

Lemma app_stable_bind {A B} (m : M state A) (k : A -> M state B) :
  app_stable m -> (forall a, app_stable (k a)) -> app_stable (bind m k).
Proof.
  intros Hm Hk s. unfold bind. specialize (Hm s).
  destruct (m s) as [s1 [e|a]]; [done|].
  rewrite (Hk a s1). exact Hm.
Qed.

Lemma app_stable_format : app_stable _format_regions_text.
Proof.
  unfold _format_regions_text. apply app_stable_bind; [apply app_stable_self|].
  intros self. destruct (_regions self); apply app_stable_ret.
Qed.

Lemma app_stable_draw (mask_type : string) :
  app_stable (_draw_regions_on_image mask_type).
Proof.
  unfold _draw_regions_on_image. apply app_stable_bind; [apply app_stable_self|].
  intros self. destruct (_base_image self) as [base|]; [|apply app_stable_ret].
  apply app_stable_bind; [apply app_stable_on_heap|]. intros img.
  apply app_stable_bind.
  { destruct (_regions self); [apply app_stable_ret|apply app_stable_on_heap]. }
  intros img'. apply app_stable_bind; [apply app_stable_on_heap|]. intros _.
  apply app_stable_bind; [|intros _; apply app_stable_ret].
  destruct (_click_start self) as [[x y]|];
    [apply app_stable_on_heap|apply app_stable_ret].
Qed.


(** The first click records the corner and nothing else. *)
Lemma first_click (pdf_file : option string) (mask_type : string) (x y : Z)
    (app : t) (h : heap) :
  file_truthy pdf_file = true ->
  is_Some (_base_image app) ->
  _click_start app = None ->
  after (handle_image_click pdf_file mask_type (x, y) (app, h))
  = set_click_start (Some (x, y)) app.
Proof.
  intros Hfile Hbase Hclick. unfold after, handle_image_click.
  unfold bind at 1. unfold self_ at 1. cbn [fst snd].
  rewrite Hfile, (bool_decide_eq_true_2 _ Hbase), Hclick. cbn [negb orb].
  unfold bind at 1. unfold assign at 1, modify. cbn [fst snd].
  rewrite (app_stable_bind _ _ (app_stable_draw mask_type)); [done|].
  intros img. apply app_stable_bind; [apply app_stable_format|].
  intros text. apply app_stable_ret.
Qed.

(** The second click: the region between the two corners is appended when
    it is more than 5 pixels wide and high, and the pending corner is cleared
    either way. *)
Lemma second_click (pdf_file : option string) (mask_type : string)
    (x1 y1 x2 y2 : Z) (app : t) (h : heap) :
  file_truthy pdf_file = true ->
  is_Some (_base_image app) ->
  _click_start app = Some (x1, y1) ->
  after (handle_image_click pdf_file mask_type (x2, y2) (app, h))
  = set_click_start None
      (if (5 <? Z.abs (x2 - x1)) && (5 <? Z.abs (y2 - y1))
       then set_regions
              (_regions app ++ [Region.mk (Z.min x1 x2) (Z.min y1 y2)
                                  (Z.abs (x2 - x1)) (Z.abs (y2 - y1))]) app
       else app).
Proof.
  intros Hfile Hbase Hclick. unfold after, handle_image_click.
  unfold bind at 1. unfold self_ at 1. cbn [fst snd].
  rewrite Hfile, (bool_decide_eq_true_2 _ Hbase), Hclick. cbn [negb orb].
  unfold bind at 1.
  destruct ((5 <? Z.abs (x2 - x1)) && (5 <? Z.abs (y2 - y1)));
    [unfold assign at 1, modify|unfold ret at 1]; cbn [fst snd];
    unfold bind at 1; unfold assign at 1, modify; cbn [fst snd].
  all: rewrite (app_stable_bind _ _ (app_stable_draw mask_type)); [done|].
  all: intros img; apply app_stable_bind; [apply app_stable_self|].
  all: intros self; apply app_stable_bind; [apply app_stable_format|].
  all: intros text; apply app_stable_ret.
Qed.

(** C4.  With a document loaded: a second click at (x2, y2) after a pending
    corner (x1, y1) clears the pending corner in every case and appends
    [Region(min x1 x2, min y1 y2, |x2-x1|, |y2-y1|)] if and only if both sizes
    exceed 5; the clicks (10,10), (50,60) append exactly [Region(10,10,40,50)]
    and the clicks (10,10), (10,10) append nothing. *)
Theorem two_click_protocol (pdf_file : option string) (mask_type : string)
    (app : t) (h : heap) :
  file_truthy pdf_file = true ->
  is_Some (_base_image app) ->
  (forall x1 y1 x2 y2 : Z,
     _click_start app = Some (x1, y1) ->
     let app' := after (handle_image_click pdf_file mask_type (x2, y2) (app, h)) in
     let w := Z.abs (x2 - x1) in
     let ht := Z.abs (y2 - y1) in
     _click_start app' = None
     /\ (5 < w /\ 5 < ht ->
         _regions app' = _regions app ++ [Region.mk (Z.min x1 x2) (Z.min y1 y2) w ht])
     /\ (~ (5 < w /\ 5 < ht) -> _regions app' = _regions app)
     /\ _current_page app' = _current_page app
     /\ _base_image app' = _base_image app)
  /\ (_click_start app = None ->
      let s1 := (handle_image_click pdf_file mask_type (10, 10) (app, h)).1 in
      _click_start s1.1 = Some (10, 10)
      /\ _regions s1.1 = _regions app
      /\ _regions (after (handle_image_click pdf_file mask_type (50, 60) s1))
         = _regions app ++ [Region.mk 10 10 40 50]
      /\ _click_start (after (handle_image_click pdf_file mask_type (50, 60) s1))
         = None
      /\ _regions (after (handle_image_click pdf_file mask_type (10, 10) s1))
         = _regions app
      /\ _click_start (after (handle_image_click pdf_file mask_type (10, 10) s1))
         = None).
Proof.
  intros Hfile Hbase. split.
  - intros x1 y1 x2 y2 Hclick. cbv zeta.
    rewrite (second_click _ _ x1 y1 x2 y2 _ _ Hfile Hbase Hclick).
    destruct ((5 <? Z.abs (x2 - x1)) && (5 <? Z.abs (y2 - y1))) eqn:Hsz.
    + apply andb_prop in Hsz as [?%Z.ltb_lt ?%Z.ltb_lt].
      repeat split; try done. intros Hn. exfalso. apply Hn. lia.
    + apply andb_false_iff in Hsz.
      repeat split; try done. intros [? ?]. exfalso.
      destruct Hsz as [Hsz|Hsz]; apply Z.ltb_ge in Hsz; lia.
  - intros Hclick. cbv zeta.
    pose proof (first_click pdf_file mask_type 10 10 app h Hfile Hbase Hclick) as H1.
    unfold after in H1.
    destruct (handle_image_click pdf_file mask_type (10, 10) (app, h)) as [[app1 h1] r1].
    cbn [fst snd] in *. subst app1.
    rewrite (second_click pdf_file mask_type 10 10 50 60
               (set_click_start (Some (10, 10)) app) h1 Hfile Hbase eq_refl).
    rewrite (second_click pdf_file mask_type 10 10 10 10
               (set_click_start (Some (10, 10)) app) h1 Hfile Hbase eq_refl).
    by repeat split.
Qed.


End Session.

(** ** [parse_page_range] *)

(** X25.  What [parse_page_range] does, in full, for every string and every
    [max_pages].  When a part is a range with a numeral of more than 4300
    digits, it raises the [ValueError] of the digit limit of [int].
    Otherwise it returns a strictly ascending (hence duplicate-free) list of
    0-indexed pages below [max_pages], namely the pages [p] such that some
    part selects [p + 1].  With them the results the tests and the
    specification list, and a range whose end has 4301 digits. *)
Lemma parse_page_range_pages :
  (forall (range_str : string) (max_pages : Z),
     if List.existsb overlong (parts_of range_str)
     then exists digits : Z,
            PyStr.max_str_digits < digits
            /\ parse_page_range range_str max_pages
               = inl (PyStr.digits_error digits)
     else exists pages : list Z,
            parse_page_range range_str max_pages = inr pages
            /\ StronglySorted Z.lt pages
            /\ forall p : Z,
                 p ∈ pages <->
                 0 <= p < max_pages
                 /\ exists part, part ∈ parts_of range_str /\ selects part (p + 1))
  /\ parse_page_range "1-3, 5, 7-10" 10 = inr [0; 1; 2; 4; 6; 7; 8; 9]
  /\ parse_page_range "1, 100" 10 = inr [0]
  /\ parse_page_range "1, abc, 3" 10 = inr [0; 2]
  /\ parse_page_range "" 10 = inr []
  /\ parse_page_range "1,1,1-2" 10 = inr [0; 1]
  /\ parse_page_range ("3, 1-" +:+ Fixture.zeros 4301) 10
     = inl (PyStr.digits_error 4301).
Proof.
  split; [|by vm_compute].
  intros range_str max_pages.
  pose proof (parse_page_range_run range_str max_pages) as Hrun.
  pose proof (first_error_spec (parts_of range_str)) as Herr.
  destruct (first_error (parts_of range_str)) as [e|].
  - destruct Herr as (-> & digits & Hd & ->). by exists digits.
  - rewrite Herr. destruct Hrun as (pages & Hrun & Hs & Hp).
    exists pages. split; [done|]. split; [done|].
    intros p. rewrite Hp. split; (intros [? ?]; split; [lia|done]).
Qed.

(** C5.  The malformed token "1-3abc" is not dropped: the range pattern is
    matched at the start of the part only, and the part selects the pages 1 to
    3.  The branch for parts without a dash does drop "3abc". *)
Theorem parse_page_range_trailing_text :
  PageRangeSpec.well_formed "1-3abc" = false
  /\ parse_page_range "1-3abc" 10 = inr [0; 1; 2]
  /\ PageRangeSpec.well_formed "3abc" = false
  /\ parse_page_range "3abc" 10 = inr []
  /\ ~ PageRangeSpec.drops_malformed_tokens.
Proof.
  split; [by vm_compute|]. split; [by vm_compute|].
  split; [by vm_compute|]. split; [by vm_compute|].
  intros Hdrop. specialize (Hdrop "1-3abc" 10 eq_refl eq_refl).
  vm_compute in Hdrop. discriminate.
Qed.

(** C10.  [parse_page_range] is not total.  [int] refuses a numeral of more
    than 4300 digits with a [ValueError], and the two calls of [int] on the
    groups of a range are outside any [try]: the range "00...01-2", whose
    start has 4301 digits, raises.  The branch for a part without a dash
    catches the same exception: "00...01" alone is dropped.  This is the one
    way to raise: [parse_page_range] raises when a part is a range with a
    numeral of more than 4300 digits, and returns a list otherwise; negative
    numbers, reversed ranges, white space and other text raise nothing. *)
Theorem parse_page_range_digit_limit :
  parse_page_range (Fixture.zeros 4300 +:+ "1-2") 10
  = inl (PyStr.digits_error 4301)
  /\ parse_page_range (Fixture.zeros 4300 +:+ "1") 10 = inr []
  /\ parse_page_range (Fixture.zeros 4299 +:+ "1-2") 10 = inr [0; 1]
  /\ (forall (range_str : string) (max_pages : Z),
        if List.existsb overlong (parts_of range_str)
        then exists digits : Z,
               PyStr.max_str_digits < digits
               /\ parse_page_range range_str max_pages
                  = inl (PyStr.digits_error digits)
        else exists pages : list Z,
               parse_page_range range_str max_pages = inr pages)
  /\ parse_page_range "-2, 3-1,  4 , 2 - 3, x-y, 7-, ,," 10 = inr [1; 2; 3]
  /\ parse_page_range "1-5" (-3) = inr [].
Proof.
  split; [by vm_compute|]. split; [by vm_compute|]. split; [by vm_compute|].
  split; [|by vm_compute].
  intros range_str max_pages.
  pose proof (parse_page_range_run range_str max_pages) as Hrun.
  pose proof (first_error_spec (parts_of range_str)) as Herr.
  destruct (first_error (parts_of range_str)) as [e|].
  - destruct Herr as (-> & digits & Hd & ->). by exists digits.
  - rewrite Herr. destruct Hrun as (pages & Hrun & _). by exists pages.
Qed.

(** ** The properties at concrete inputs *)

(** C1 on a white 4x4 page with one region, in black. *)
Lemma apply_masks_flat_colour_witness :
  exists (h' : list PIL.Image) (v' : PIL.Image) (ink : PIL.pixel),
    Masker._apply_masks (H := Fixture.services) Masker.new 0%nat
      [Region.mk 1 1 2 2] "black" Fixture.heap0 = (h', inr 1%nat)
    /\ h' !! 1%nat = Some v'
    /\ PIL.getcolor "black" PIL.RGB = inr ink
    /\ (forall (region : Region.t) (x y : Z),
          region ∈ [Region.mk 1 1 2 2] ->
          PIL.strictly_inside (Masker.clamp 4 4 region) x y ->
          PIL.getpixel v' x y = Some ink)
    /\ (forall x y : Z,
          (forall region, region ∈ [Region.mk 1 1 2 2] ->
             PIL.strictly_outside (Masker.clamp 4 4 region) x y) ->
          PIL.getpixel v' x y = PIL.getpixel Fixture.white4 x y).
Proof.
  apply (apply_masks_flat_colour (H := Fixture.services) Masker.new Fixture.heap0
           0%nat Fixture.white4 [Region.mk 1 1 2 2] "black").
  - reflexivity.
  - split; [reflexivity|]. repeat constructor.
  - left. reflexivity.
Defined.

(** C7 on a white 4x4 page: one region off the canvas, one on it, one of
    width 0. *)
Lemma apply_masks_skips_degenerate_witness :
  let regions := [Region.mk 9 9 5 5; Region.mk 1 1 2 2; Region.mk 2 2 0 3] in
  Masker.returned
    (Masker._apply_masks (H := Fixture.services) Masker.new 0%nat regions "blur"
       Fixture.heap0)
  = Masker.returned
      (Masker._apply_masks (H := Fixture.services) Masker.new 0%nat
         [Region.mk 1 1 2 2] "blur" Fixture.heap0)
  /\ (List.filter (Masker.visible 4 4) regions = [] ->
      Masker.returned
        (Masker._apply_masks (H := Fixture.services) Masker.new 0%nat regions "blur"
           Fixture.heap0) = inr Fixture.white4)
  /\ ((String.eqb "blur" "blur" = true -> Masker.blur_keeps_size (H := Fixture.services)) ->
      exists v' : PIL.Image,
        Masker.returned
          (Masker._apply_masks (H := Fixture.services) Masker.new 0%nat regions "blur"
             Fixture.heap0) = inr v').
Proof.
  apply (apply_masks_skips_degenerate (H := Fixture.services) Masker.new Fixture.heap0
           0%nat Fixture.white4
           [Region.mk 9 9 5 5; Region.mk 1 1 2 2; Region.mk 2 2 0 3] "blur").
  reflexivity.
Defined.

(** C9 on a white 4x4 page, with the blur of the test services. *)
Lemma apply_masks_preserves_witness :
  exists (h' : list PIL.Image) (v' : PIL.Image),
    Masker._apply_masks (H := Fixture.services) Masker.new 0%nat
      [Region.mk 1 1 2 2] "blur" Fixture.heap0 = (h', inr 1%nat)
    /\ h' !! 1%nat = Some v'
    /\ PIL.width v' = 4 /\ PIL.height v' = 4 /\ PIL.mode v' = PIL.RGB
    /\ 1%nat <> 0%nat
    /\ h' !! 0%nat = Some Fixture.white4
    /\ take 1 h' = Fixture.heap0.
Proof.
  apply (apply_masks_preserves (H := Fixture.services) Masker.new Fixture.heap0
           0%nat Fixture.white4 [Region.mk 1 1 2 2] "blur").
  - reflexivity.
  - intros _ radius im. split; reflexivity.
Defined.

(** C2 on the two pages of "two.pdf", the second one masked. *)
Lemma redact_every_page_in_order_witness :
  exists (h' : list PIL.Image) (out : list PIL.Image),
    Masker.redact (H := Fixture.services) Masker.new "two.pdf"
      {[ 2 := [Region.mk 1 1 2 2] ]} "black" [] = (h', inr out)
    /\ length out = 2%nat
    /\ forall (i : nat) (page : PIL.Image),
         [Fixture.white4; Fixture.grey4] !! i = Some page ->
         exists v : PIL.Image,
           out !! i = Some (Masker.encoded v)
           /\ match ({[ 2 := [Region.mk 1 1 2 2] ]} : gmap Z (list Region.t))
                    !! (Z.of_nat i + 1) with
              | Some regions =>
                  Masker.returned
                    (Masker._apply_masks (H := Fixture.services) Masker.new 0%nat
                       regions "black" [page]) = inr v
              | None => v = page
              end.
Proof.
  apply (redact_every_page_in_order (H := Fixture.services) Masker.new "two.pdf"
           [Fixture.white4; Fixture.grey4] {[ 2 := [Region.mk 1 1 2 2] ]} "black" []).
  - reflexivity.
  - intros Hblur. vm_compute in Hblur. discriminate.
Defined.

(** C8 on "two.pdf" with the keys 0, 2 and 7. *)
Lemma redact_ignores_keys_out_of_range_witness :
  Masker.redact (H := Fixture.services) Masker.new "two.pdf"
    {[ 2 := [Region.mk 1 1 2 2]; 7 := [Region.mk 0 0 4 4]; 0 := [Region.mk 0 0 4 4] ]}
    "white" []
  = Masker.redact (H := Fixture.services) Masker.new "two.pdf"
      (filter (fun kv => 1 <= kv.1 <= 2)
         ({[ 2 := [Region.mk 1 1 2 2]; 7 := [Region.mk 0 0 4 4];
             0 := [Region.mk 0 0 4 4] ]} : gmap Z (list Region.t)))
      "white" [].
Proof.
  apply (redact_ignores_keys_out_of_range (H := Fixture.services) Masker.new "two.pdf"
           [Fixture.white4; Fixture.grey4]).
  reflexivity.
Defined.

(** C3, as it holds, on the second page of "two.pdf". *)
Lemma preview_matches_commit_witness :
  exists v : PIL.Image,
    Masker.returned
      (Masker.preview_page (H := Fixture.services) Masker.new "two.pdf" 2
         (Some [Region.mk 1 1 2 2]) "white" PyFloat.one []) = inr v
    /\ Masker.committed_page (H := Fixture.services) Masker.new
         [Fixture.white4; Fixture.grey4] {[ 2 := [Region.mk 1 1 2 2] ]} "white" 2 []
       = inr v.
Proof.
  apply (preview_matches_commit (H := Fixture.services) Masker.new "two.pdf"
           [Fixture.white4; Fixture.grey4] 2 [Region.mk 1 1 2 2] "white" []).
  - reflexivity.
  - vm_compute. split; discriminate.
  - reflexivity.
  - repeat constructor; vm_compute; discriminate.
  - intros Hblur. vm_compute in Hblur. discriminate.
Defined.

(** C3 as stated fails: a region whose coordinates are not doubles is
    rescaled by [int(v * 1.0)]; preview blackens the column 2 of the page,
    commit does not. *)
Lemma preview_differs_from_commit :
  exists v1 v2 : PIL.Image,
    Masker.returned
      (Masker.preview_page (H := Fixture.services) Masker.new "two.pdf" 1
         (Some [Fixture.far_left]) "black" PyFloat.one []) = inr v1
    /\ Masker.committed_page (H := Fixture.services) Masker.new
         [Fixture.white4; Fixture.grey4] {[ 1 := [Fixture.far_left] ]} "black" 1 []
       = inr v2
    /\ PIL.getpixel v1 2 0 = Some [0; 0; 0]
    /\ PIL.getpixel v2 2 0 = Some [255; 255; 255]
    /\ v1 <> v2.
Proof.
  eexists _, _. split; [vm_compute; reflexivity|].
  split; [vm_compute; reflexivity|].
  split; [reflexivity|]. split; [reflexivity|]. discriminate.
Qed.

(** C4 on a session that has "two.pdf" loaded and no region yet. *)
Lemma two_click_protocol_witness :
  let click := FileskadisApp.handle_image_click (H := Fixture.services)
                 (Some "two.pdf") "black" in
  let s1 := (click (10, 10) (Fixture.loaded, Fixture.heap0)).1 in
  FileskadisApp._click_start s1.1 = Some (10, 10)
  /\ FileskadisApp._regions s1.1 = []
  /\ FileskadisApp._regions (FileskadisApp.after (click (50, 60) s1))
     = [Region.mk 10 10 40 50]
  /\ FileskadisApp._click_start (FileskadisApp.after (click (50, 60) s1)) = None
  /\ FileskadisApp._regions (FileskadisApp.after (click (10, 10) s1)) = []
  /\ FileskadisApp._click_start (FileskadisApp.after (click (10, 10) s1)) = None.
Proof.
  apply (two_click_protocol (H := Fixture.services) (Some "two.pdf") "black"
           Fixture.loaded Fixture.heap0).
  - reflexivity.
  - exists 0%nat. reflexivity.
  - reflexivity.
Defined.



(** * Further properties of the code *)

(** ** Images with the same pixels *)

Section ImageExt.

Import PIL.

(** Images of the same mode, size and row lengths that agree on every
    pixel are equal. *)
Lemma image_ext (a b : Image) :
  mode a = mode b -> width a = width b -> height a = height b ->
  length <$> data a = length <$> data b ->
  (forall x y, getpixel a x y = getpixel b x y) ->
  a = b.
Proof.
  destruct a as [ma wa ha da], b as [mb wb hb db]. simpl.
  intros -> -> -> Hshape Hpix. f_equal.
  apply list_eq. intros j.
  assert (Hj : length <$> da !! j = length <$> db !! j)
    by (by rewrite <- !list_lookup_fmap, Hshape).
  destruct (da !! j) as [ra|] eqn:Ea, (db !! j) as [rb|] eqn:Eb; simplify_eq/=;
    [|done].
  f_equal. apply list_eq. intros i.
  specialize (Hpix (Z.of_nat i) (Z.of_nat j)). unfold getpixel in Hpix. simpl in Hpix.
  assert ((Z.of_nat i <? 0) || (Z.of_nat j <? 0) = false) as Hneg
    by (apply orb_false_intro; apply Z.ltb_ge; lia).
  rewrite Hneg, !Nat2Z.id, Ea, Eb in Hpix. exact Hpix.
Qed.

Lemma map_pixels_shape (f : Z -> Z -> pixel -> pixel) (im : Image) :
  length <$> data (map_pixels f im) = length <$> data im.
Proof.
  unfold map_pixels. simpl. apply list_eq. intros j.
  rewrite !list_lookup_fmap, list_lookup_imap.
  destruct (data im !! j) as [row|]; simpl; [|done].
  by rewrite length_imap.
Qed.

Lemma wf_shape (a b : Image) :
  width a = width b -> height a = height b ->
  length <$> data a = length <$> data b ->
  wf a -> wf b.
Proof.
  unfold wf. intros Hw Hh Hs [Hlen Hrows]. split.
  - rewrite <- Hh, <- Hlen.
    by rewrite <- (length_fmap length (data b)), <- Hs, length_fmap.
  - apply Forall_forall. intros row Hrow.
    apply list_elem_of_lookup in Hrow as [j Hj].
    assert (Hl : (length <$> data a) !! j = Some (length row))
      by (by rewrite Hs, list_lookup_fmap, Hj).
    rewrite list_lookup_fmap in Hl.
    destruct (data a !! j) as [ra|] eqn:Ea; [|done]. simpl in Hl.
    injection Hl as Hl. rewrite <- Hw, <- Hl.
    rewrite Forall_forall in Hrows. apply Hrows.
    by apply list_elem_of_lookup_2 with j.
Qed.

Lemma getpixel_paste_pixels (src : Image) (b : box) (im : Image) (x y : Z) :
  getpixel (paste_pixels src b im) x y =
  (fun p => if within b x y
            then default p (getpixel src (x - b.1.1.1) (y - b.1.1.2)) else p)
    <$> getpixel im x y.
Proof.
  destruct b as [[[x0 y0] x1] y1]. unfold paste_pixels.
  by rewrite getpixel_map_pixels.
Qed.

End ImageExt.

(** ** [_apply_masks]: the pixels, the order of the regions, composition *)

Section MaskAlgebra.

Context `{Services}.
Import PIL.

Local Arguments Masker.clamp : simpl never.
Local Arguments Masker.degenerate : simpl never.
Local Arguments on_box : simpl never.
Local Arguments within : simpl never.
Local Arguments fill_rectangle : simpl never.
Local Arguments paste_pixels : simpl never.

Lemma fill_rectangle_shape (b : box) (ink : pixel) (im : Image) :
  length <$> data (fill_rectangle b ink im) = length <$> data im.
Proof. destruct b as [[[x0 y0] x1] y1]. apply map_pixels_shape. Qed.

Lemma paste_pixels_shape (src : Image) (b : box) (im : Image) :
  length <$> data (paste_pixels src b im) = length <$> data im.
Proof. destruct b as [[[x0 y0] x1] y1]. apply map_pixels_shape. Qed.

Lemma mask_region_shape (self : Masker.t) (iw ih : Z) (mask_type : string)
    (cur cur' : Image) (region : Region.t) :
  Masker.mask_region self iw ih mask_type cur region = inr cur' ->
  length <$> data cur' = length <$> data cur.
Proof.
  unfold Masker.mask_region.
  destruct (Masker.degenerate _); [by intros [= <-]|].
  destruct (Masker.clamp iw ih region) as [[[x0 y0] x1] y1].
  destruct (String.eqb mask_type "blur").
  - destruct (x1 <? x0); [done|]. destruct (y1 <? y0); [done|].
    destruct (_ && _); [|done]. intros [= <-]. apply paste_pixels_shape.
  - destruct (getcolor _ _) as [e|ink]; [done|].
    destruct (x1 <? x0); [done|]. destruct (y1 <? y0); [done|].
    intros [= <-]. apply fill_rectangle_shape.
Qed.

Lemma mask_regions_shape (self : Masker.t) (iw ih : Z) (mask_type : string)
    (regions : list Region.t) (cur v' : Image) :
  Masker.mask_regions self iw ih mask_type cur regions = inr v' ->
  length <$> data v' = length <$> data cur.
Proof.
  revert cur. induction regions as [|region rest IH]; intros cur; simpl.
  - by intros [= <-].
  - destruct (Masker.mask_region _ _ _ _ cur region) as [e|cur'] eqn:E; [done|].
    intros Hr. rewrite (IH _ Hr). by apply (mask_region_shape _ _ _ _ _ _ _ E).
Qed.

(** The loop over [r1 ++ r2] is the loop over [r1] followed by the loop
    over [r2]. *)
Lemma mask_regions_app (self : Masker.t) (iw ih : Z) (mask_type : string)
    (r1 r2 : list Region.t) (cur : Image) :
  Masker.mask_regions self iw ih mask_type cur (r1 ++ r2)
  = match Masker.mask_regions self iw ih mask_type cur r1 with
    | inl e => inl e
    | inr v1 => Masker.mask_regions self iw ih mask_type v1 r2
    end.
Proof.
  revert cur. induction r1 as [|region rest IH]; intros cur; simpl; [done|].
  by destruct (Masker.mask_region _ _ _ _ cur region).
Qed.

Lemma masked_app (self : Masker.t) (mask_type : string)
    (r1 r2 : list Region.t) (v : Image) :
  Masker.masked self v (r1 ++ r2) mask_type
  = match Masker.masked self v r1 mask_type with
    | inl e => inl e
    | inr v1 => Masker.masked self v1 r2 mask_type
    end.
Proof.
  unfold Masker.masked. rewrite mask_regions_app.
  destruct (Masker.mask_regions _ _ _ _ v r1) as [e|v1] eqn:E; [done|].
  by destruct (mask_regions_size _ _ _ _ _ _ _ E) as (-> & -> & _).
Qed.

(** The regions that paint the point [(x, y)] of an image of the given
    size: those the loop does not skip whose clamped box, corners and
    edges included, holds the point. *)
Lemma covered_ext (iw ih x y : Z) (regions regions' : list Region.t) :
  (forall r, r ∈ regions <-> r ∈ regions') ->
  List.existsb (fun r => Masker.visible iw ih r
                  && on_box (Masker.clamp iw ih r) x y) regions
  = List.existsb (fun r => Masker.visible iw ih r
                  && on_box (Masker.clamp iw ih r) x y) regions'.
Proof.
  intros Hsame. apply eq_true_iff_eq. rewrite !existsb_exists.
  split; intros (r & Hin & Hr); exists r; (split; [|done]);
    apply list_elem_of_In, Hsame, list_elem_of_In, Hin.
Qed.

(** For a flat colour the loop computes the same image from two lists with
    the same regions, and never raises. *)
Lemma masked_flat_ext (self : Masker.t) (mask_type : string)
    (regions regions' : list Region.t) (v : Image) :
  String.eqb mask_type "blur" = false ->
  (forall r, r ∈ regions <-> r ∈ regions') ->
  exists v', Masker.masked self v regions mask_type = inr v'
             /\ Masker.masked self v regions' mask_type = inr v'.
Proof.
  intros Hnb Hsame. unfold Masker.masked.
  destruct (getcolor_mask mask_type (mode v)) as [ink Hink].
  destruct (mask_regions_fill self (width v) (height v) mask_type regions v ink Hnb Hink)
    as (v1 & H1 & Hp1).
  destruct (mask_regions_fill self (width v) (height v) mask_type regions' v ink Hnb Hink)
    as (v2 & H2 & Hp2).
  exists v1. split; [done|]. rewrite H2. f_equal.
  destruct (mask_regions_size _ _ _ _ _ _ _ H1) as (Hw1 & Hh1 & Hm1).
  destruct (mask_regions_size _ _ _ _ _ _ _ H2) as (Hw2 & Hh2 & Hm2).
  apply image_ext; try congruence.
  - rewrite (mask_regions_shape _ _ _ _ _ _ _ H1).
    by rewrite (mask_regions_shape _ _ _ _ _ _ _ H2).
  - intros x y. rewrite Hp1, Hp2.
    by rewrite (covered_ext _ _ x y regions regions' Hsame).
Qed.

(** A blurred region changes no pixel outside its half-open clamped box. *)
Lemma mask_region_blur_outside (self : Masker.t) (iw ih : Z)
    (cur cur' : Image) (region : Region.t) (x y : Z) :
  Masker.mask_region self iw ih "blur" cur region = inr cur' ->
  within (Masker.clamp iw ih region) x y = false ->
  getpixel cur' x y = getpixel cur x y.
Proof.
  unfold Masker.mask_region.
  destruct (Masker.degenerate _); [by intros [= <-]|].
  destruct (Masker.clamp iw ih region) as [[[x0 y0] x1] y1] eqn:Ec.
  rewrite String.eqb_refl.
  destruct (x1 <? x0); [done|]. destruct (y1 <? y0); [done|].
  destruct (_ && _); [|done]. intros [= <-] Hout.
  rewrite getpixel_paste_pixels, Hout. by destruct (getpixel cur x y).
Qed.

Lemma mask_regions_blur_outside (self : Masker.t) (iw ih : Z)
    (regions : list Region.t) (cur v' : Image) (x y : Z) :
  Masker.mask_regions self iw ih "blur" cur regions = inr v' ->
  (forall r, r ∈ regions -> within (Masker.clamp iw ih r) x y = false) ->
  getpixel v' x y = getpixel cur x y.
Proof.
  revert cur. induction regions as [|region rest IH]; intros cur; simpl.
  - by intros [= <-].
  - destruct (Masker.mask_region _ _ _ _ cur region) as [e|cur'] eqn:E; [done|].
    intros Hr Hout. rewrite (IH _ Hr).
    + apply (mask_region_blur_outside _ _ _ _ _ _ _ _ E). apply Hout. by left.
    + intros r Hin. apply Hout. by right.
Qed.

(** X1.  For every mask type other than "blur", [_apply_masks] never raises
    and returns the input image with some pixels repainted in one colour:
    black for "black", white for any other name.  A pixel is repainted
    exactly when it lies on the clamped box of a region that is not skipped,
    the corner points and the four edges of the box included: the column
    [x + width] and the row [y + height] of a region are painted when they
    are on the canvas.  Every other pixel is the pixel of the input. *)
Theorem apply_masks_flat_pixels (self : Masker.t) (h0 : heap) (img : loc)
    (v : Image) (regions : list Region.t) (mask_type : string) :
  h0 !! img = Some v ->
  String.eqb mask_type "blur" = false ->
  exists (v' : Image) (ink : pixel),
    Masker.returned (Masker._apply_masks self img regions mask_type h0) = inr v'
    /\ getcolor (if String.eqb mask_type "black" then "black" else "white") (mode v)
       = inr ink
    /\ (forall (x y : Z) (p : pixel),
          getpixel v x y = Some p ->
          getpixel v' x y =
          Some (if List.existsb
                     (fun r => Masker.visible (width v) (height v) r
                               && on_box (Masker.clamp (width v) (height v) r) x y)
                     regions
                then ink else p))
    /\ (forall x y : Z, getpixel v x y = None -> getpixel v' x y = None).
Proof.
  intros Hv Hnb. rewrite (returned_apply_masks _ _ _ v) by done.
  destruct (getcolor_mask mask_type (mode v)) as [ink Hink].
  destruct (mask_regions_fill self (width v) (height v) mask_type regions v ink Hnb Hink)
    as (v' & Hm & Hp).
  exists v', ink. split; [done|]. split; [done|].
  split; [intros x y p Hxy|intros x y Hxy]; by rewrite Hp, Hxy.
Qed.

(** X2.  For a flat colour neither the order of the regions nor a region
    given twice matters: two lists with the same regions give the same
    image. *)
Theorem apply_masks_flat_order_free (self : Masker.t) (h0 : heap) (img : loc)
    (v : Image) (regions regions' : list Region.t) (mask_type : string) :
  h0 !! img = Some v ->
  String.eqb mask_type "blur" = false ->
  (forall r, r ∈ regions <-> r ∈ regions') ->
  Masker.returned (Masker._apply_masks self img regions mask_type h0)
  = Masker.returned (Masker._apply_masks self img regions' mask_type h0).
Proof.
  intros Hv Hnb Hsame. rewrite !(returned_apply_masks _ _ _ v) by done.
  destruct (masked_flat_ext self mask_type regions regions' v Hnb Hsame)
    as (v' & -> & ->). done.
Qed.

(** X3.  Masking composes: masking with [r1] and then masking the image
    that call returned with [r2] gives the pixels (or the exception) of one
    call with [r1 ++ r2], for every mask type; when the first call raises,
    so does the call with [r1 ++ r2]. *)
Theorem apply_masks_composes (self : Masker.t) (h0 : heap) (img : loc)
    (v : Image) (r1 r2 : list Region.t) (mask_type : string) :
  h0 !! img = Some v ->
  Masker.returned (Masker._apply_masks self img (r1 ++ r2) mask_type h0)
  = match Masker._apply_masks self img r1 mask_type h0 with
    | (h1, inr img1) =>
        Masker.returned (Masker._apply_masks self img1 r2 mask_type h1)
    | (_, inl e) => inl e
    end.
Proof.
  intros Hv. rewrite (returned_apply_masks _ _ _ v) by done.
  rewrite masked_app.
  destruct (_apply_masks_run self h0 img v r1 mask_type Hv) as (h1 & _ & Hr).
  destruct (Masker.masked self v r1 mask_type) as [e|v1].
  - by rewrite Hr.
  - destruct Hr as [-> Hv1]. by rewrite (returned_apply_masks _ _ _ v1).
Qed.

(** X4.  Masking in a flat colour is idempotent: masking the returned
    image again with the same regions returns the same pixels. *)
Theorem apply_masks_flat_idempotent (self : Masker.t) (h0 : heap) (img : loc)
    (v : Image) (regions : list Region.t) (mask_type : string) :
  h0 !! img = Some v ->
  String.eqb mask_type "blur" = false ->
  exists (h1 : heap) (img1 : loc) (v1 : Image),
    Masker._apply_masks self img regions mask_type h0 = (h1, inr img1)
    /\ h1 !! img1 = Some v1
    /\ Masker.returned (Masker._apply_masks self img1 regions mask_type h1) = inr v1.
Proof.
  intros Hv Hnb.
  destruct (_apply_masks_run self h0 img v regions mask_type Hv) as (h1 & _ & Hr).
  destruct (masked_flat_ext self mask_type regions (regions ++ regions) v Hnb)
    as (v1 & H1 & H2).
  { intros r. rewrite elem_of_app. tauto. }
  rewrite H1 in Hr. destruct Hr as [Hrun Hv1].
  exists h1, (length h0), v1. split; [done|]. split; [done|].
  rewrite (returned_apply_masks _ _ _ v1) by done.
  rewrite masked_app, H1 in H2. exact H2.
Qed.

(** X5.  A blur changes no pixel outside the boxes: when the filter keeps
    the size of the image it is given, [_apply_masks] with "blur" returns an
    image whose pixel at every point outside all the clamped boxes (read
    half-open, as [crop] and [paste] read them) is the pixel of the input.
    The right column and the bottom row of a box, which a flat colour
    paints, are left as they are. *)
Theorem apply_masks_blur_outside (self : Masker.t) (h0 : heap) (img : loc)
    (v : Image) (regions : list Region.t) :
  h0 !! img = Some v ->
  Masker.blur_keeps_size ->
  exists v' : Image,
    Masker.returned (Masker._apply_masks self img regions "blur" h0) = inr v'
    /\ forall x y : Z,
         (forall r, r ∈ regions ->
            within (Masker.clamp (width v) (height v) r) x y = false) ->
         getpixel v' x y = getpixel v x y.
Proof.
  intros Hv Hblur. rewrite (returned_apply_masks _ _ _ v) by done.
  unfold Masker.masked.
  destruct (mask_regions_total self (width v) (height v) "blur" regions v
              (fun _ => Hblur)) as [v' Hm].
  exists v'. split; [done|]. intros x y Hout.
  by apply (mask_regions_blur_outside _ _ _ _ _ _ _ _ Hm).
Qed.

End MaskAlgebra.

(** ** [redact], [redact_page] and [_images_to_pdf]: the pages handed to the
    PDF writer *)

Section Written.

Context `{Services}.
Import PIL.

Lemma Mode_eqb_eq (a b : Mode) : Mode_eqb a b = true <-> a = b.
Proof. destruct a, b; simpl; split; congruence. Qed.

(** The conversion for encoding gives an RGB image of the same size, with
    the pixels converted one by one; an RGB image is kept as it is. *)
Lemma encoded_spec (v : Image) :
  mode (Masker.encoded v) = RGB
  /\ width (Masker.encoded v) = width v
  /\ height (Masker.encoded v) = height v
  /\ (mode v = RGB -> Masker.encoded v = v)
  /\ forall x y, getpixel (Masker.encoded v) x y
                 = to_rgb_pixel (mode v) <$> getpixel v x y.
Proof.
  unfold Masker.encoded.
  destruct (Mode_eqb (mode v) RGB) eqn:E; simpl.
  - apply Mode_eqb_eq in E. repeat split; try done.
    intros x y. rewrite E. destruct (getpixel v x y) as [p|]; [|done].
    simpl. by destruct p.
  - repeat split; try done.
    + intros E'. apply Mode_eqb_eq in E'. congruence.
    + intros x y. unfold getpixel, convert_rgb. simpl.
      destruct ((x <? 0) || (y <? 0)); [done|].
      change (List.map (List.map (to_rgb_pixel (mode v))) (data v))
        with (fmap (M := list) (fmap (M := list) (to_rgb_pixel (mode v))) (data v)).
      rewrite list_lookup_fmap.
      destruct (data v !! Z.to_nat y) as [row|]; simpl; [|done].
      by rewrite list_lookup_fmap.
Qed.

(** X6.  [_images_to_pdf] hands one image per given image to the PDF writer,
    in the order of the list: an RGB image of the size of the given image,
    with its pixels converted to RGB (a grey value repeated three times, the
    alpha band dropped); an image that is RGB already is handed over without
    a conversion.  What the writer stores of these pixels in the file is not
    part of the statement.  No image object that existed is modified.  An
    empty list raises [ValueError] before the writer is called. *)
Theorem images_to_pdf_pages (h : heap) (images : list loc) (vs : list Image) :
  Forall2 (fun l v => h !! l = Some v) images vs ->
  match images with
  | [] => Masker._images_to_pdf images h = (h, inl (ValueError "No images to convert"))
  | _ =>
      exists (h' : heap) (out : list Image),
        Masker._images_to_pdf images h = (h', inr out)
        /\ take (length h) h' = h
        /\ Forall2 (fun v o =>
                      mode o = RGB /\ width o = width v /\ height o = height v
                      /\ (mode v = RGB -> o = v)
                      /\ forall x y, getpixel o x y
                                     = to_rgb_pixel (mode v) <$> getpixel v x y)
                   vs out
  end.
Proof.
  intros Hvs. pose proof (_images_to_pdf_run h images vs Hvs) as Hrun.
  destruct images as [|img0 images0]; [done|].
  destruct Hrun as (h' & Hrun & Ht).
  exists h', (List.map Masker.encoded vs). split; [done|]. split; [done|].
  change (List.map Masker.encoded vs) with (Masker.encoded <$> vs).
  apply Forall2_fmap_r, Forall_Forall2_diag, Forall_forall.
  intros v _. apply encoded_spec.
Qed.

(** The pages [redact] hands to the PDF writer, with the heap it leaves. *)
Lemma redact_run (self : Masker.t) (pdf_path : string) (pdf : list Page)
    (page_regions : gmap Z (list Region.t)) (mask_type : string) (h0 : heap) :
  open_pdf pdf_path = inr pdf ->
  pdf <> [] ->
  (String.eqb mask_type "blur" = true -> Masker.blur_keeps_size) ->
  exists (h' : heap) (vs : list Image),
    Masker.redact self pdf_path page_regions mask_type h0
    = (h', inr (Masker.encoded <$> vs))
    /\ take (length h0) h' = h0
    /\ length vs = length pdf
    /\ forall (i : nat) (page : Page),
         pdf !! i = Some page ->
         exists v : Image,
           vs !! i = Some v
           /\ Masker.page_raster self page_regions mask_type (Z.of_nat i + 1) page
              = inr v.
Proof.
  intros Hopen Hne Hblur. unfold Masker.redact, bind, lift. rewrite Hopen.
  destruct (redact_pages_run self pdf page_regions mask_type h0 Hblur)
    as (h1 & imgs & vs & -> & Ht & Hvs & Hlen & Hi).
  pose proof (_images_to_pdf_run h1 imgs vs Hvs) as Henc.
  destruct imgs as [|l imgs'].
  { apply Forall2_length in Hvs. destruct pdf; [done|]. simpl in *. lia. }
  destruct Henc as (h' & -> & Ht').
  exists h', vs. split; [done|]. split; [|done].
  by apply (take_prefix_trans h0 h1 h').
Qed.

(** X7.  [redact] writes pages that are RGB and have the width and the
    height of the rendered page, masked or not, and modifies no image
    object that existed before the call. *)
Theorem redact_pages_rgb_same_size (self : Masker.t) (pdf_path : string)
    (pdf : list Page) (page_regions : gmap Z (list Region.t))
    (mask_type : string) (h0 : heap) :
  open_pdf pdf_path = inr pdf ->
  pdf <> [] ->
  (String.eqb mask_type "blur" = true -> Masker.blur_keeps_size) ->
  exists (h' : heap) (out : list Image),
    Masker.redact self pdf_path page_regions mask_type h0 = (h', inr out)
    /\ take (length h0) h' = h0
    /\ Forall2 (fun page o =>
                  mode o = RGB
                  /\ width o = width (render page (Masker.render_scale self))
                  /\ height o = height (render page (Masker.render_scale self)))
               pdf out.
Proof.
  intros Hopen Hne Hblur.
  destruct (redact_run self pdf_path pdf page_regions mask_type h0 Hopen Hne Hblur)
    as (h' & vs & Hrun & Ht & Hlen & Hi).
  exists h', (Masker.encoded <$> vs). split; [done|]. split; [done|].
  apply Forall2_same_length_lookup. split; [by rewrite length_fmap|].
  intros i page o Hp Ho. destruct (Hi i page Hp) as (v & Hv & Hr).
  rewrite list_lookup_fmap, Hv in Ho. injection Ho as <-.
  destruct (encoded_spec v) as (-> & -> & -> & _). split; [done|].
  unfold Masker.page_raster in Hr.
  destruct (page_regions !! (Z.of_nat i + 1)) as [regions|].
  - unfold Masker.masked in Hr.
    by destruct (mask_regions_size _ _ _ _ _ _ _ Hr) as (-> & -> & _).
  - by injection Hr as <-.
Qed.

(** X8.  [redact_page] writes every page of the document and masks the
    page [page_num] only: every other page is the rendered page, converted
    for encoding.  A [page_num] that is no page of the document raises
    nothing: the document is written with no page masked. *)
Theorem redact_page_masks_one_page (self : Masker.t) (pdf_path : string)
    (pdf : list Page) (page_num : Z) (regions : list Region.t)
    (mask_type : string) (h0 : heap) :
  open_pdf pdf_path = inr pdf ->
  pdf <> [] ->
  (String.eqb mask_type "blur" = true -> Masker.blur_keeps_size) ->
  exists (h' : heap) (out : list Image),
    Masker.redact_page self pdf_path page_num regions mask_type h0 = (h', inr out)
    /\ length out = length pdf
    /\ (forall (i : nat) (page : Page),
          pdf !! i = Some page ->
          if Z.of_nat i + 1 =? page_num then
            exists v : Image,
              Masker.returned
                (Masker._apply_masks self 0%nat regions mask_type
                   [render page (Masker.render_scale self)]) = inr v
              /\ out !! i = Some (Masker.encoded v)
          else
            out !! i = Some (Masker.encoded (render page (Masker.render_scale self))))
    /\ (~ 1 <= page_num <= len pdf ->
        out = List.map (fun page =>
                Masker.encoded (render page (Masker.render_scale self))) pdf).
Proof.
  intros Hopen Hne Hblur. unfold Masker.redact_page.
  destruct (redact_run self pdf_path pdf {[ page_num := regions ]} mask_type h0
              Hopen Hne Hblur) as (h' & vs & Hrun & Ht & Hlen & Hi).
  exists h', (Masker.encoded <$> vs). split; [done|].
  split; [by rewrite length_fmap|].
  assert (Hpage : forall (i : nat) (page : Page),
            pdf !! i = Some page -> Z.of_nat i + 1 <> page_num ->
            vs !! i = Some (render page (Masker.render_scale self))).
  { intros i page Hp Hneq. destruct (Hi i page Hp) as (v & Hv & Hr).
    unfold Masker.page_raster in Hr.
    rewrite lookup_singleton_ne in Hr by done. by injection Hr as <-. }
  split.
  - intros i page Hp. destruct (Z.eqb_spec (Z.of_nat i + 1) page_num) as [Heq|Hneq].
    + destruct (Hi i page Hp) as (v & Hv & Hr).
      unfold Masker.page_raster in Hr. rewrite <- Heq, lookup_singleton_eq in Hr.
      exists v. rewrite <- masked_standalone. split; [done|].
      by rewrite list_lookup_fmap, Hv.
    + by rewrite list_lookup_fmap, (Hpage i page Hp Hneq).
  - intros Hout.
    change (List.map (fun page => Masker.encoded (render page (Masker.render_scale self))) pdf)
      with ((fun page => Masker.encoded (render page (Masker.render_scale self))) <$> pdf).
    apply list_eq. intros i. rewrite !list_lookup_fmap.
    destruct (pdf !! i) as [page|] eqn:Hp.
    + rewrite (Hpage i page Hp); [done|].
      apply lookup_lt_Some in Hp. unfold len in Hout. lia.
    + apply lookup_ge_None in Hp. rewrite lookup_ge_None_2; [done|lia].
Qed.

End Written.

(** ** [parse_page_range]: commas, the page count, plain numbers and ranges *)

Section PageRangeAlgebra.

Import PyStr.

Lemma StronglySorted_lt_NoDup (l : list Z) : StronglySorted Z.lt l -> NoDup l.
Proof.
  induction 1 as [|x l _ IH Hx]; constructor; [|done].
  intros Hin. rewrite Forall_forall in Hx. specialize (Hx x Hin). lia.
Qed.

(** A strictly ascending list is determined by its elements. *)
Lemma sorted_lt_unique (l1 l2 : list Z) :
  StronglySorted Z.lt l1 -> StronglySorted Z.lt l2 ->
  (forall p, p ∈ l1 <-> p ∈ l2) -> l1 = l2.
Proof.
  intros H1 H2 Hsame.
  apply (StronglySorted_unique_strong Z.lt); [intros; lia|done|done|].
  apply NoDup_Permutation; auto using StronglySorted_lt_NoDup.
Qed.

Lemma StronglySorted_seqZ (m n : Z) : StronglySorted Z.lt (seqZ m n).
Proof.
  destruct (Z.le_gt_cases n 0) as [Hn|Hn].
  { rewrite seqZ_nil by done. constructor. }
  rewrite <- (Z2Nat.id n) by lia. clear Hn.
  generalize (Z.to_nat n). clear n. intros k. revert m.
  induction k as [|k IH]; intros m.
  { rewrite seqZ_nil by done. constructor. }
  rewrite seqZ_cons by lia.
  replace (Z.pred (Z.of_nat (S k))) with (Z.of_nat k) by lia.
  constructor; [apply IH|].
  apply Forall_forall. intros p Hp%elem_of_seqZ. lia.
Qed.

Lemma split_nonempty (sep : ascii) (s : string) : split sep s <> [].
Proof.
  destruct s as [|c r]; simpl; [done|].
  destruct (Ascii.eqb c sep); [done|]. by destruct (split sep r).
Qed.

(** [(a + sep + b).split(sep)] is [a.split(sep) + b.split(sep)]. *)
Lemma split_append (sep : ascii) (a b : string) :
  split sep (a +:+ String sep b) = split sep a ++ split sep b.
Proof.
  induction a as [|c r IH]; simpl.
  - by rewrite Ascii.eqb_refl.
  - destruct (Ascii.eqb c sep); [by rewrite IH|].
    rewrite IH. pose proof (split_nonempty sep r).
    by destruct (split sep r).
Qed.

Lemma parts_of_comma (a b : string) :
  parts_of (a +:+ "," +:+ b) = parts_of a ++ parts_of b.
Proof.
  unfold parts_of. change ("," +:+ b) with (String "," b).
  by rewrite split_append, List.map_app, List.filter_app.
Qed.

Lemma selected_app (m p : Z) (xs ys : list string) :
  (1 <= p + 1 <= m /\ exists part, part ∈ xs ++ ys /\ selects part (p + 1))
  <-> (1 <= p + 1 <= m /\ exists part, part ∈ xs /\ selects part (p + 1))
      \/ (1 <= p + 1 <= m /\ exists part, part ∈ ys /\ selects part (p + 1)).
Proof.
  split.
  - intros [Hr (part & [Hin|Hin]%elem_of_app & Hs)]; [left|right]; eauto.
  - intros [[Hr (part & Hin & Hs)]|[Hr (part & Hin & Hs)]];
      (split; [done|]); exists part; rewrite elem_of_app; auto.
Qed.

Lemma first_error_app (xs ys : list string) :
  first_error (xs ++ ys)
  = match first_error xs with
    | Some e => Some e
    | None => first_error ys
    end.
Proof.
  induction xs as [|x xs IH]; [done|]. simpl.
  by destruct (part_error x).
Qed.

(** X9.  A comma joins range strings.  When [a] and [b] both give pages, the
    pages of [a,b] are the pages of [a] together with the pages of [b], in
    ascending order and each page once; so the order of the parts and a part
    given twice make no difference.  When one of them raises, so does the
    joined string, with the exception of the first that raises. *)
Theorem parse_page_range_comma (a b : string) (max_pages : Z) :
  match parse_page_range a max_pages, parse_page_range b max_pages with
  | inr pa, inr pb =>
      exists pab : list Z,
        parse_page_range (a +:+ "," +:+ b) max_pages = inr pab
        /\ parse_page_range (b +:+ "," +:+ a) max_pages = inr pab
        /\ parse_page_range (a +:+ "," +:+ a) max_pages = inr pa
        /\ StronglySorted Z.lt pab
        /\ forall p : Z, p ∈ pab <-> p ∈ pa \/ p ∈ pb
  | inl ea, inr _ =>
      parse_page_range (a +:+ "," +:+ b) max_pages = inl ea
      /\ parse_page_range (b +:+ "," +:+ a) max_pages = inl ea
      /\ parse_page_range (a +:+ "," +:+ a) max_pages = inl ea
  | inr _, inl eb =>
      parse_page_range (a +:+ "," +:+ b) max_pages = inl eb
      /\ parse_page_range (b +:+ "," +:+ a) max_pages = inl eb
  | inl ea, inl eb =>
      parse_page_range (a +:+ "," +:+ b) max_pages = inl ea
      /\ parse_page_range (b +:+ "," +:+ a) max_pages = inl eb
      /\ parse_page_range (a +:+ "," +:+ a) max_pages = inl ea
  end.
Proof.
  pose proof (parse_page_range_run a max_pages) as Ha.
  pose proof (parse_page_range_run b max_pages) as Hb.
  pose proof (parse_page_range_run (a +:+ "," +:+ b) max_pages) as Hab.
  pose proof (parse_page_range_run (b +:+ "," +:+ a) max_pages) as Hba.
  pose proof (parse_page_range_run (a +:+ "," +:+ a) max_pages) as Haa.
  rewrite parts_of_comma, first_error_app in Hab, Hba, Haa.
  destruct (first_error (parts_of a)) as [ea|], (first_error (parts_of b)) as [eb|].
  - by rewrite Ha, Hb.
  - rewrite Ha. by destruct Hb as (pb & -> & _).
  - rewrite Hb. by destruct Ha as (pa & -> & _).
  - destruct Ha as (pa & -> & Hsa & Hpa). destruct Hb as (pb & -> & Hsb & Hpb).
    destruct Hab as (pab & Hab & Hsab & Hpab).
    destruct Hba as (pba & Hba & Hsba & Hpba).
    destruct Haa as (paa & Haa & Hsaa & Hpaa).
    assert (Hu : forall p, p ∈ pab <-> p ∈ pa \/ p ∈ pb).
    { intros p. by rewrite Hpab, Hpa, Hpb, selected_app. }
    assert (pba = pab) as ->.
    { apply sorted_lt_unique; [done|done|]. intros p.
      rewrite Hu, Hpba, Hpa, Hpb, selected_app. tauto. }
    assert (paa = pa) as ->.
    { apply sorted_lt_unique; [done|done|]. intros p.
      rewrite Hpaa, Hpa, selected_app. tauto. }
    by exists pab.
Qed.

Lemma StronglySorted_filter (f : Z -> bool) (l : list Z) :
  StronglySorted Z.lt l -> StronglySorted Z.lt (List.filter f l).
Proof.
  induction 1 as [|x l _ IH Hx]; simpl; [constructor|].
  destruct (f x); [|done]. constructor; [done|].
  rewrite Forall_forall in Hx |- *.
  intros y Hy%list_elem_of_In%filter_In. apply Hx, list_elem_of_In, Hy.
Qed.

(** X10.  The page count only clips: the pages selected in a document of
    [m] pages are the pages below [m] among those selected in a longer
    document, and a page count that is not positive selects nothing; a range
    string that raises does so whatever the page count. *)
Theorem parse_page_range_clip (range_str : string) (m m' : Z) :
  m <= m' ->
  match parse_page_range range_str m' with
  | inr pages' =>
      parse_page_range range_str m = inr (List.filter (fun p => p <? m) pages')
      /\ (m <= 0 -> parse_page_range range_str m = inr [])
  | inl e => parse_page_range range_str m = inl e
  end.
Proof.
  intros Hm.
  pose proof (parse_page_range_run range_str m) as Hr.
  pose proof (parse_page_range_run range_str m') as Hr'.
  destruct (first_error (parts_of range_str)) as [e|].
  { by rewrite Hr', Hr. }
  destruct Hr as (pages & -> & Hs & Hp).
  destruct Hr' as (pages' & -> & Hs' & Hp').
  split; [f_equal|intros Hle; f_equal].
  - apply sorted_lt_unique; [done|by apply StronglySorted_filter|].
    intros p. rewrite (list_elem_of_In (List.filter _ _) p), filter_In.
    rewrite <- list_elem_of_In, Hp, Hp', Z.ltb_lt.
    split; [intros [? ?]|intros [[? ?] ?]]; repeat split; auto; lia.
  - destruct pages as [|p pages0]; [done|].
    destruct (proj1 (Hp p)) as [? _]; [left|lia].
Qed.

(** *** Decimal numerals: [int(str(n))] is [n] *)

Lemma pretty_N_char_digit (d : N) :
  (d < 10)%N ->
  isdecimal (pretty_N_char d) = true /\ digit_value (pretty_N_char d) = Z.of_N d.
Proof.
  intros Hd.
  assert (d = 0 \/ d = 1 \/ d = 2 \/ d = 3 \/ d = 4 \/ d = 5 \/ d = 6 \/ d = 7
          \/ d = 8 \/ d = 9)%N as Hc by lia.
  repeat (destruct Hc as [->|Hc]; [by vm_compute|]). subst. by vm_compute.
Qed.

Lemma pretty_N_go_digits (x : N) (s : string) :
  forallb isdecimal s = true -> forallb isdecimal (pretty_N_go x s) = true.
Proof.
  revert s. induction (N.lt_wf_0 x) as [x _ IH]. intros s Hs.
  destruct (N.eq_dec x 0%N) as [->|Hx]; [by rewrite pretty_N_go_0|].
  rewrite pretty_N_go_step by lia. apply IH.
  - apply N.div_lt; lia.
  - simpl. rewrite Hs, andb_true_r.
    apply pretty_N_char_digit, N.mod_lt. lia.
Qed.

Lemma pretty_N_go_nonempty (x : N) (s : string) :
  s <> EmptyString -> pretty_N_go x s <> EmptyString.
Proof.
  revert s. induction (N.lt_wf_0 x) as [x _ IH]. intros s Hs.
  destruct (N.eq_dec x 0%N) as [->|Hx]; [by rewrite pretty_N_go_0|].
  rewrite pretty_N_go_step by lia. apply IH; [apply N.div_lt; lia|done].
Qed.

Lemma int_body_pretty_N_go (x : N) :
  (0 < x)%N ->
  forall (s : string) (acc : Z) (b : bool),
  exists k : Z,
    0 <= k
    /\ int_body (pretty_N_go x s) acc b = int_body s (acc * 10 ^ k + Z.of_N x) true.
Proof.
  induction (N.lt_wf_0 x) as [x _ IH]. intros Hx s acc b.
  rewrite pretty_N_go_step by done.
  destruct (pretty_N_char_digit (x `mod` 10)%N) as [Hd Hv]; [apply N.mod_lt; lia|].
  assert (Hdm : Z.of_N x = 10 * Z.of_N (x `div` 10)%N + Z.of_N (x `mod` 10)%N).
  { rewrite (N.div_mod x 10%N) at 1 by done.
    by rewrite N2Z.inj_add, N2Z.inj_mul. }
  destruct (N.eq_dec (x `div` 10)%N 0%N) as [H0|H0].
  - rewrite H0 in Hdm |- *. rewrite pretty_N_go_0. exists 1. split; [lia|].
    simpl. rewrite Hd, Hv. f_equal. rewrite Hdm. simpl. lia.
  - destruct (IH (x `div` 10)%N) with (s := String (pretty_N_char (x `mod` 10)%N) s)
      (acc := acc) (b := b) as (k & Hk & ->);
      [by apply N.div_lt|by apply N.neq_0_lt_0|].
    exists (k + 1). split; [lia|].
    simpl. rewrite Hd, Hv. f_equal. rewrite Hdm, Z.pow_add_r by lia.
    generalize (Z.of_N (x `div` 10)%N) (Z.of_N (x `mod` 10)%N) (10 ^ k).
    intros. lia.
Qed.

(** The numeral of a natural number is a non-empty string of digits, and
    reads as the number. *)
Lemma pretty_nonneg (n : Z) :
  0 <= n ->
  forallb isdecimal (pretty n) = true /\ pretty n <> EmptyString
  /\ int_body (pretty n) 0 false = Some n.
Proof.
  intros Hn. destruct n as [|q|q]; [by vm_compute| |lia].
  change (pretty (Z.pos q)) with (pretty_N_go (N.pos q) "").
  split; [by apply pretty_N_go_digits|]. split.
  - rewrite pretty_N_go_step by lia. by apply pretty_N_go_nonempty.
  - destruct (int_body_pretty_N_go (N.pos q) ltac:(lia) "" 0 false) as (k & _ & ->).
    simpl. f_equal.
Qed.

Lemma strip_no_space (s : string) :
  forallb (fun c => negb (isspace c)) s = true -> strip s = s.
Proof.
  intros Hs. unfold strip.
  assert (lstrip s = s) as ->.
  { destruct s as [|c r]; [done|]. simpl in *.
    apply andb_prop in Hs as [Hc%negb_true_iff _]. by rewrite Hc. }
  by apply rstrip_no_space.
Qed.

Lemma digits_no_space (s : string) :
  forallb isdecimal s = true -> forallb (fun c => negb (isspace c)) s = true.
Proof.
  apply forallb_impl. intros c Hc. by rewrite (isdecimal_not_space _ Hc).
Qed.

(** [int] reads the numeral of a natural number as the number, up to the
    limit on the number of digits. *)
Lemma int_pretty (n : Z) :
  0 <= n ->
  int (pretty n)
  = if max_str_digits <? Z.of_nat (String.length (pretty n))
    then inl (digits_error (Z.of_nat (String.length (pretty n))))
    else inr n.
Proof.
  intros Hn. destruct (pretty_nonneg n Hn) as (Hd & Hne & Hv).
  destruct (int_digits _ Hd Hne) as (n' & Hv' & ->).
  rewrite Hv in Hv'. by injection Hv' as <-.
Qed.

Lemma append_empty_r (s : string) : s +:+ "" = s.
Proof.
  induction s as [|c r IH]; [done|].
  change (String c (r +:+ "") = String c r). by rewrite IH.
Qed.

Lemma forallb_append (p : ascii -> bool) (a b : string) :
  forallb p (a +:+ b) = forallb p a && forallb p b.
Proof.
  induction a as [|c r IH]; simpl; [done|]. by rewrite IH, andb_assoc.
Qed.

Lemma contains_append (c : ascii) (a b : string) :
  contains c (a +:+ b) = contains c a || contains c b.
Proof.
  induction a as [|d r IH]; simpl; [done|]. by rewrite IH, orb_assoc.
Qed.

Lemma contains_forallb (c : ascii) (s : string) :
  forallb (fun d => negb (Ascii.eqb d c)) s = true -> contains c s = false.
Proof.
  induction s as [|d r IH]; simpl; [done|].
  intros [Hd%negb_true_iff Hr]%andb_prop. by rewrite Hd, (IH Hr).
Qed.

Lemma split_no_sep (sep : ascii) (s : string) :
  forallb (fun c => negb (Ascii.eqb c sep)) s = true -> split sep s = [s].
Proof.
  induction s as [|c r IH]; simpl; [done|].
  intros [Hc%negb_true_iff Hr]%andb_prop. by rewrite Hc, (IH Hr).
Qed.

(** A string without commas and white space is one part. *)
Lemma parts_of_plain (s : string) :
  forallb (fun c => negb (isspace c)) s = true ->
  forallb (fun c => negb (Ascii.eqb c ",")) s = true ->
  s <> EmptyString ->
  parts_of s = [s].
Proof.
  intros Hsp Hc Hne. unfold parts_of. rewrite (split_no_sep _ _ Hc). simpl.
  rewrite (strip_no_space _ Hsp). by destruct s.
Qed.

Lemma isdecimal_plain (c : ascii) :
  isdecimal c = true ->
  negb (Ascii.eqb c ",") = true /\ negb (Ascii.eqb c "-") = true.
Proof.
  destruct c as [[] [] [] [] [] [] [] []]; vm_compute; intuition congruence.
Qed.

(** X11.  A plain number selects its page when the document has it, and a
    plain range [a-b] selects the pages [a] to [b] that the document has, as
    0-indexed pages in ascending order; a number below 1 or above the page
    count, a negative number and a reversed range select nothing.  A numeral
    of more than 4300 digits selects nothing when it stands alone, and makes
    a range raise the [ValueError] of the digit limit, for the start before
    the end. *)
Theorem parse_page_range_plain (a b n max_pages : Z) :
  0 <= a -> 0 <= b ->
  parse_page_range (pretty n) max_pages
  = inr (if (1 <=? n) && (n <=? max_pages)
            && (Z.of_nat (String.length (pretty n)) <=? max_str_digits)
         then [n - 1] else [])
  /\ parse_page_range (pretty a +:+ "-" +:+ pretty b) max_pages
     = if max_str_digits <? Z.of_nat (String.length (pretty a))
       then inl (digits_error (Z.of_nat (String.length (pretty a))))
       else if max_str_digits <? Z.of_nat (String.length (pretty b))
       then inl (digits_error (Z.of_nat (String.length (pretty b))))
       else inr (seqZ (Z.max a 1 - 1) (Z.min b max_pages - Z.max a 1 + 1)).
Proof.
  intros Ha Hb. split.
  - pose proof (parse_page_range_run (pretty n) max_pages) as Hrun.
    destruct (Z.le_gt_cases 0 n) as [Hn|Hn].
    + destruct (pretty_nonneg n Hn) as (Hd & Hne & _).
      assert (contains "-" (pretty n) = false) as Hnd.
      { apply contains_forallb. revert Hd. apply forallb_impl.
        intros c Hc. by apply isdecimal_plain. }
      rewrite parts_of_plain in Hrun; [|by apply digits_no_space| |done].
      2:{ revert Hd. apply forallb_impl. intros c Hc. by apply isdecimal_plain. }
      cbn [first_error] in Hrun. unfold part_error in Hrun. rewrite Hnd in Hrun.
      destruct Hrun as (pages & -> & Hs & Hp).
      f_equal. apply sorted_lt_unique; [done| |].
      { destruct (_ && _); repeat constructor. }
      intros p. rewrite Hp. clear Hp Hs pages.
      assert (Hsel : forall q, selects (pretty n) q <->
                q = n /\ Z.of_nat (String.length (pretty n)) <= max_str_digits).
      { intros q. unfold selects. rewrite Hnd, (int_pretty n Hn).
        destruct (max_str_digits <? _) eqn:E.
        - apply Z.ltb_lt in E. split; [done|lia].
        - apply Z.ltb_ge in E. split; [by intros [= ->]|by intros [-> _]]. }
      split.
      * intros [Hr (part & ->%list_elem_of_singleton & [Hq Hlen]%Hsel)].
        assert ((1 <=? n) && (n <=? max_pages)
                && (Z.of_nat (String.length (pretty n)) <=? max_str_digits) = true)
          as ->.
        { rewrite !andb_true_iff, !Z.leb_le. lia. }
        apply list_elem_of_singleton. lia.
      * destruct ((1 <=? n) && (n <=? max_pages) && _) eqn:E;
          [|by intros ?%elem_of_nil].
        intros ->%list_elem_of_singleton.
        rewrite !andb_true_iff, !Z.leb_le in E. destruct E as [[? ?] ?].
        split; [lia|]. exists (pretty n). split; [by left|].
        apply Hsel. split; [lia|done].
    + assert ((1 <=? n) && (n <=? max_pages) = false) as ->
        by (apply andb_false_intro1, Z.leb_gt; lia).
      cbn [andb].
      destruct n as [|q|q]; [lia|lia|].
      destruct (pretty_nonneg (Z.pos q) ltac:(lia)) as (Hd & Hne & _).
      change (pretty (Z.neg q)) with (String "-" (pretty (Z.pos q))) in *.
      rewrite parts_of_plain in Hrun; [| | |done].
      2:{ simpl. by apply digits_no_space. }
      2:{ simpl. revert Hd. apply forallb_impl. intros c Hc. by apply isdecimal_plain. }
      cbn [first_error] in Hrun. unfold part_error in Hrun.
      assert (contains "-" (String "-" (pretty (Z.pos q))) = true) as Hdash
        by reflexivity.
      assert (re_match_range (String "-" (pretty (Z.pos q))) = None) as Hm
        by reflexivity.
      rewrite Hdash, Hm in Hrun.
      destruct Hrun as (pages & -> & Hs & Hp). f_equal.
      destruct pages as [|p pages0]; [done|]. exfalso.
      destruct (proj1 (Hp p)) as [_ (part & ->%list_elem_of_singleton & Hsel)]; [left|].
      unfold selects in Hsel. simpl in Hsel.
      destruct Hsel as (g1 & g2 & a' & b' & Hm' & _).
      by rewrite Hm in Hm'.
  - destruct (pretty_nonneg a Ha) as (Hda & Hnea & _).
    destruct (pretty_nonneg b Hb) as (Hdb & Hneb & _).
    set (s := pretty a +:+ "-" +:+ pretty b).
    assert (re_match_range s = Some (pretty a, pretty b)) as Hm.
    { apply re_match_range_spec. exists "", "", "".
      split; [|by repeat split].
      unfold s. simpl. by rewrite append_empty_r. }
    assert (contains "-" s = true) as Hdash.
    { unfold s. rewrite contains_append. simpl. apply orb_true_r. }
    assert (parts_of s = [s]) as Hparts.
    { unfold s. apply parts_of_plain.
      - rewrite forallb_append. simpl.
        by rewrite !digits_no_space.
      - rewrite forallb_append. simpl.
        rewrite !(forallb_impl isdecimal (fun c => negb (Ascii.eqb c ","))); try done;
          intros c Hc; by apply isdecimal_plain.
      - by destruct (pretty a). }
    pose proof (parse_page_range_run s max_pages) as Hrun.
    rewrite Hparts in Hrun. cbn [first_error] in Hrun.
    unfold part_error in Hrun.
    rewrite Hdash, Hm, (int_pretty a Ha), (int_pretty b Hb) in Hrun.
    destruct (max_str_digits <? Z.of_nat (String.length (pretty a))) eqn:Ea; [done|].
    destruct (max_str_digits <? Z.of_nat (String.length (pretty b))) eqn:Eb; [done|].
    destruct Hrun as (pages & -> & Hs & Hp).
    f_equal. apply sorted_lt_unique; [done|apply StronglySorted_seqZ|].
    intros p. rewrite Hp, elem_of_seqZ. clear Hp Hs pages.
    assert (Hia : int (pretty a) = inr a) by (by rewrite (int_pretty a Ha), Ea).
    assert (Hib : int (pretty b) = inr b) by (by rewrite (int_pretty b Hb), Eb).
    split.
    + intros [Hr (part & ->%list_elem_of_singleton & Hsel)].
      unfold selects in Hsel. rewrite Hdash in Hsel.
      destruct Hsel as (g1 & g2 & a' & b' & Hm' & Ha' & Hb' & Hab).
      rewrite Hm in Hm'. injection Hm' as <- <-.
      rewrite Hia in Ha'. rewrite Hib in Hb'.
      injection Ha' as <-. injection Hb' as <-. lia.
    + intros Hr. split; [lia|]. exists s. split; [by left|].
      unfold selects. rewrite Hdash.
      exists (pretty a), (pretty b), a, b.
      split; [done|]. split; [done|]. split; [done|]. lia.
Qed.

End PageRangeAlgebra.

(** ** What the calls leave untouched *)

Section Frames.

Context `{Services}.
Import PIL Frame.

Lemma keeps_ret {A} (n : nat) (a : A) (Q : A -> Prop) : Q a -> keeps n (ret a) Q.
Proof. by intros HQ h Hn. Qed.

Lemma keeps_raise {A} (n : nat) (e : exn) (Q : A -> Prop) : keeps n (raise e) Q.
Proof. by intros h Hn. Qed.

Lemma keeps_lift {A} (n : nat) (r : exn + A) : keeps n (lift r) (fun _ => True).
Proof. intros h Hn. unfold lift. simpl. by destruct r. Qed.

Lemma keeps_bind {A B} (n : nat) (m : M heap A) (k : A -> M heap B)
    (P : A -> Prop) (Q : B -> Prop) :
  keeps n m P -> (forall a, P a -> keeps n (k a) Q) -> keeps n (bind m k) Q.
Proof.
  intros Hm Hk h Hn. unfold bind. destruct (Hm h Hn) as (Ht & Hl & HP).
  destruct (m h) as [h1 [e|a]]; simpl in *; [done|].
  destruct (Hk a HP h1 Hl) as (Ht' & Hl' & HQ).
  split; [congruence|done].
Qed.

Lemma keeps_weaken {A} (n : nat) (m : M heap A) (P Q : A -> Prop) :
  keeps n m P -> (forall a, P a -> Q a) -> keeps n m Q.
Proof.
  intros Hm HPQ h Hn. destruct (Hm h Hn) as (Ht & Hl & HP).
  split; [done|]. split; [done|]. destruct ((m h).2); auto.
Qed.

Lemma keeps_deref (n : nat) (l : loc) : keeps n (deref l) (fun _ => True).
Proof. intros h Hn. unfold deref. by destruct (h !! l). Qed.

Lemma keeps_alloc (n : nat) (v : Image) : keeps n (alloc v) (fun l => (n <= l)%nat).
Proof.
  intros h Hn. unfold alloc. simpl. rewrite length_app. simpl.
  split; [by rewrite take_app_le|]. split; [lia|done].
Qed.

Lemma keeps_update (n : nat) (l : loc) (f : Image -> Image) :
  (n <= l)%nat -> keeps n (update l f) (fun _ => True).
Proof.
  intros Hl h Hn. unfold update, bind, deref, modify.
  destruct (h !! l); simpl; [|done].
  rewrite length_insert. split; [by apply take_insert_above|done].
Qed.

Lemma keeps_copy (n : nat) (l : loc) : keeps n (copy l) (fun l' => (n <= l')%nat).
Proof.
  unfold copy. eapply keeps_bind; [apply keeps_deref|].
  intros v _. apply keeps_alloc.
Qed.

Lemma keeps_get {A} (n : nat) (l : loc) (f : Image -> A) :
  keeps n (let* v := deref l in ret (f v)) (fun _ => True).
Proof.
  eapply keeps_bind; [apply keeps_deref|]. intros v _. by apply keeps_ret.
Qed.

Lemma keeps_for {A} (n : nat) (xs : list A) (body : A -> M heap unit) :
  (forall x, keeps n (body x) (fun _ => True)) ->
  keeps n (for_ xs body) (fun _ => True).
Proof.
  intros Hbody. induction xs as [|x xs IH]; simpl.
  - by apply keeps_ret.
  - eapply keeps_bind; [apply Hbody|]. intros _ _. apply IH.
Qed.

Lemma keeps_foldM {A B} (n : nat) (body : B -> A -> M heap B) (xs : list A)
    (acc : B) :
  (forall acc x, keeps n (body acc x) (fun _ => True)) ->
  keeps n (foldM body xs acc) (fun _ => True).
Proof.
  intros Hbody. revert acc. induction xs as [|x xs IH]; intros acc; simpl.
  - by apply keeps_ret.
  - eapply keeps_bind; [apply Hbody|]. intros acc' _. apply IH.
Qed.

Lemma keeps_crop (n : nat) (l : loc) (b : box) : keeps n (crop l b) (fun _ => True).
Proof.
  destruct b as [[[x0 y0] x1] y1]. unfold crop.
  destruct (x1 <? x0); [apply keeps_raise|].
  destruct (y1 <? y0); [apply keeps_raise|].
  eapply keeps_bind; [apply keeps_deref|]. intros v _.
  eapply keeps_weaken; [apply keeps_alloc|done].
Qed.

Lemma keeps_paste (n : nat) (l src : loc) (b : box) :
  (n <= l)%nat -> keeps n (paste l src b) (fun _ => True).
Proof.
  intros Hl. destruct b as [[[x0 y0] x1] y1]. unfold paste.
  eapply keeps_bind; [apply keeps_deref|]. intros v _.
  destruct (_ && _); [by apply keeps_update|apply keeps_raise].
Qed.

Lemma keeps_draw_rectangle (n : nat) (l : loc) (b : box) (color : string) :
  (n <= l)%nat -> keeps n (draw_rectangle l b color) (fun _ => True).
Proof.
  intros Hl. destruct b as [[[x0 y0] x1] y1]. unfold draw_rectangle.
  eapply keeps_bind; [apply keeps_deref|]. intros v _.
  eapply keeps_bind; [apply keeps_lift|]. intros ink _.
  destruct (x1 <? x0); [apply keeps_raise|].
  destruct (y1 <? y0); [apply keeps_raise|].
  by apply keeps_update.
Qed.

Lemma keeps_apply_masks (n : nat) (self : Masker.t) (img : loc)
    (regions : list Region.t) (mask_type : string) :
  keeps n (Masker._apply_masks self img regions mask_type) (fun l => (n <= l)%nat).
Proof.
  unfold Masker._apply_masks.
  eapply keeps_bind; [apply keeps_copy|]. intros result Hresult.
  apply (keeps_bind _ _ _ (fun _ => True)); [|intros _ _; by apply keeps_ret].
  apply keeps_for. intros region.
  eapply keeps_bind; [apply keeps_get|]. intros iw _.
  eapply keeps_bind; [apply keeps_get|]. intros ih _.
  destruct (Masker.degenerate _); [by apply keeps_ret|].
  destruct (String.eqb mask_type "blur").
  - eapply keeps_bind; [apply keeps_crop|]. intros cropped _.
    apply (keeps_bind _ _ _ (fun _ => True)).
    { unfold Masker.filter_GaussianBlur.
      eapply keeps_bind; [apply keeps_deref|]. intros v _.
      eapply keeps_weaken; [apply keeps_alloc|done]. }
    intros blurred _. by apply keeps_paste.
  - by apply keeps_draw_rectangle.
Qed.

Lemma keeps_preview_page (n : nat) (self : Masker.t) (pdf_path : string)
    (page_num : Z) (regions : option (list Region.t)) (mask_type : string)
    (scale : PyFloat.float) :
  keeps n (Masker.preview_page self pdf_path page_num regions mask_type scale)
        (fun l => (n <= l)%nat).
Proof.
  unfold Masker.preview_page.
  eapply keeps_bind; [apply keeps_lift|]. intros pdf _.
  destruct (_ || _); [apply keeps_raise|].
  eapply keeps_bind; [apply keeps_lift|]. intros page _.
  eapply keeps_bind; [apply keeps_alloc|]. intros img Himg.
  destruct (Masker.regions_truthy regions); [|by apply keeps_ret].
  eapply keeps_bind; [apply keeps_lift|]. intros scaled _.
  apply keeps_apply_masks.
Qed.

Lemma keeps_images_to_pdf (n : nat) (images : list loc) :
  keeps n (Masker._images_to_pdf images) (fun _ => True).
Proof.
  unfold Masker._images_to_pdf. destruct images as [|img0 images0];
    [apply keeps_raise|].
  eapply keeps_bind.
  { apply keeps_foldM. intros acc img.
    eapply keeps_bind; [apply keeps_get|]. intros m _.
    apply (keeps_bind _ _ _ (fun _ => True)); [|intros l _; by apply keeps_ret].
    destruct (negb _); [|by apply keeps_ret].
    unfold convert. eapply keeps_bind; [apply keeps_deref|]. intros v _.
    eapply keeps_weaken; [apply keeps_alloc|done]. }
  intros rgb _. eapply keeps_bind; [apply keeps_lift|]. intros first _.
  unfold Masker.save_pdf. apply keeps_foldM. intros acc img.
  eapply keeps_bind; [apply keeps_deref|]. intros v _. by apply keeps_ret.
Qed.

Lemma keeps_redact (n : nat) (self : Masker.t) (pdf_path : string)
    (page_regions : gmap Z (list Region.t)) (mask_type : string) :
  keeps n (Masker.redact self pdf_path page_regions mask_type) (fun _ => True).
Proof.
  unfold Masker.redact.
  eapply keeps_bind; [apply keeps_lift|]. intros pdf _.
  eapply keeps_bind; [|intros imgs _; apply keeps_images_to_pdf].
  unfold Masker.redact_pages. apply keeps_foldM. intros acc page_idx.
  eapply keeps_bind; [apply keeps_lift|]. intros page _.
  eapply keeps_bind; [apply keeps_alloc|]. intros img Himg.
  apply (keeps_bind _ _ _ (fun _ => True)); [|intros l _; by apply keeps_ret].
  destruct (page_regions !! (page_idx + 1)) as [regions|]; [|by apply keeps_ret].
  eapply keeps_weaken; [apply keeps_apply_masks|done].
Qed.

(** X12.  No call of the masker modifies an image object that exists,
    whether it returns or raises: after [_apply_masks], [preview_page],
    [redact], [redact_page] and [_images_to_pdf] the image objects there
    were before the call are as they were, whatever the arguments. *)
Theorem masker_keeps_images (self : Masker.t) (h : heap) :
  (forall img regions mask_type,
     take (length h) (Masker._apply_masks self img regions mask_type h).1 = h)
  /\ (forall pdf_path page_num regions mask_type scale,
        take (length h)
          (Masker.preview_page self pdf_path page_num regions mask_type scale h).1 = h)
  /\ (forall pdf_path page_regions mask_type,
        take (length h) (Masker.redact self pdf_path page_regions mask_type h).1 = h)
  /\ (forall pdf_path page_num regions mask_type,
        take (length h)
          (Masker.redact_page self pdf_path page_num regions mask_type h).1 = h)
  /\ (forall images, take (length h) (Masker._images_to_pdf images h).1 = h).
Proof.
  assert (Hk : forall A (m : M heap A) (Q : A -> Prop),
            keeps (length h) m Q -> take (length h) (m h).1 = h).
  { intros A m Q Hm. destruct (Hm h) as (Ht & _); [done|].
    by rewrite Ht, firstn_all. }
  split; [|split; [|split; [|split]]]; intros.
  - eapply Hk, keeps_apply_masks.
  - eapply Hk, keeps_preview_page.
  - eapply Hk, keeps_redact.
  - eapply Hk, keeps_redact.
  - eapply Hk, keeps_images_to_pdf.
Qed.

End Frames.

(** ** The handlers of the mask tab *)

Section Handlers.

Context `{Services}.
Import PIL Frame FileskadisApp.

Lemma keeps_app_ret {A} (n : nat) (a : A) (Q : A -> Prop) :
  Q a -> keeps_app n (ret a) Q.
Proof. by intros HQ s Hn. Qed.

Lemma keeps_app_lift {A} (n : nat) (r : exn + A) :
  keeps_app n (lift r) (fun _ => True).
Proof. intros s Hn. unfold lift. simpl. by destruct r. Qed.

Lemma keeps_app_self (n : nat) : keeps_app n self_ (fun _ => True).
Proof. by intros s Hn. Qed.

Lemma keeps_app_assign (n : nat) (f : t -> t) :
  keeps_app n (assign f) (fun _ => True).
Proof. by intros s Hn. Qed.

Lemma keeps_app_on_heap {A} (n : nat) (m : M heap A) (Q : A -> Prop) :
  keeps n m Q -> keeps_app n (on_heap m) Q.
Proof.
  intros Hm s Hn. unfold on_heap. specialize (Hm s.2 Hn).
  by destruct (m s.2) as [h' r].
Qed.

Lemma keeps_app_bind {A B} (n : nat) (m : M state A) (k : A -> M state B)
    (P : A -> Prop) (Q : B -> Prop) :
  keeps_app n m P -> (forall a, P a -> keeps_app n (k a) Q) ->
  keeps_app n (bind m k) Q.
Proof.
  intros Hm Hk s Hn. unfold bind. destruct (Hm s Hn) as (Ht & Hl & HP).
  destruct (m s) as [s1 [e|a]]; simpl in *; [done|].
  destruct (Hk a HP s1 Hl) as (Ht' & Hl' & HQ).
  split; [congruence|done].
Qed.

Lemma keeps_app_try {A} (n : nat) (m : M state A) (handler : exn -> M state A)
    (Q : A -> Prop) :
  keeps_app n m Q -> (forall e, keeps_app n (handler e) Q) ->
  keeps_app n (try_except m handler) Q.
Proof.
  intros Hm Hh s Hn. unfold try_except. destruct (Hm s Hn) as (Ht & Hl & HQ).
  destruct (m s) as [s1 [e|a]]; simpl in *; [|done].
  destruct (Hh e s1 Hl) as (Ht' & Hl' & HQ').
  split; [congruence|done].
Qed.

Lemma keeps_app_weaken {A} (n : nat) (m : M state A) (P Q : A -> Prop) :
  keeps_app n m P -> (forall a, P a -> Q a) -> keeps_app n m Q.
Proof.
  intros Hm HPQ s Hn. destruct (Hm s Hn) as (Ht & Hl & HP).
  split; [done|]. split; [done|]. destruct ((m s).2); auto.
Qed.

Lemma keeps_app_format (n : nat) :
  keeps_app n _format_regions_text (fun _ => True).
Proof.
  unfold _format_regions_text. eapply keeps_app_bind; [apply keeps_app_self|].
  intros self _. destruct (_regions self); by apply keeps_app_ret.
Qed.

Lemma keeps_app_draw (n : nat) (mask_type : string) :
  keeps_app n (_draw_regions_on_image mask_type) (fun _ => True).
Proof.
  unfold _draw_regions_on_image. eapply keeps_app_bind; [apply keeps_app_self|].
  intros self _. destruct (_base_image self) as [base|]; [|by apply keeps_app_ret].
  eapply keeps_app_bind; [apply keeps_app_on_heap, keeps_copy|]. intros img0 Himg0.
  apply (keeps_app_bind _ _ _ (fun l => (n <= l)%nat)).
  { destruct (_regions self); [by apply keeps_app_ret|].
    apply keeps_app_on_heap, keeps_apply_masks. }
  intros img Himg.
  apply (keeps_app_bind _ _ _ (fun _ => True)).
  { apply keeps_app_on_heap, keeps_for. intros [i region].
    destruct (Region.box region) as [[[b0 b1] b2] b3].
    eapply keeps_bind; [by apply keeps_update|]. intros _ _.
    by apply keeps_update. }
  intros _ _.
  apply (keeps_app_bind _ _ _ (fun _ => True)); [|intros _ _; by apply keeps_app_ret].
  destruct (_click_start self) as [[x y]|]; [|by apply keeps_app_ret].
  by apply keeps_app_on_heap, keeps_update.
Qed.

Lemma keeps_app_fire (n : nat) (e : event) : keeps_app n (fire e) (fun _ => True).
Proof.
  destruct e as [f|f page|f mt [x y]|f mt|f mt|f mt|f mt]; unfold fire;
    (apply (keeps_app_bind _ _ _ (fun _ => True)); [|intros _ _; by apply keeps_app_ret]).
  - unfold load_mask_pdf. destruct (negb _); [by apply keeps_app_ret|].
    do 4 (eapply keeps_app_bind; [apply keeps_app_assign|]; intros _ _).
    apply keeps_app_try; [|intros e; by apply keeps_app_ret].
    eapply keeps_app_bind; [apply keeps_app_lift|]. intros count _.
    eapply keeps_app_bind; [apply keeps_app_self|]. intros self _.
    eapply keeps_app_bind; [apply keeps_app_on_heap, keeps_preview_page|].
    intros img _. eapply keeps_app_bind; [apply keeps_app_on_heap, keeps_copy|].
    intros base _. eapply keeps_app_bind; [apply keeps_app_assign|].
    intros _ _. by apply keeps_app_ret.
  - unfold change_mask_page. destruct (negb _); [by apply keeps_app_ret|].
    do 3 (eapply keeps_app_bind; [apply keeps_app_assign|]; intros _ _).
    apply keeps_app_try; [|intros e; by apply keeps_app_ret].
    eapply keeps_app_bind; [apply keeps_app_lift|]. intros count _.
    eapply keeps_app_bind; [apply keeps_app_self|]. intros self _.
    eapply keeps_app_bind; [apply keeps_app_on_heap, keeps_preview_page|].
    intros img _. eapply keeps_app_bind; [apply keeps_app_on_heap, keeps_copy|].
    intros base _. eapply keeps_app_bind; [apply keeps_app_assign|].
    intros _ _. by apply keeps_app_ret.
  - unfold handle_image_click.
    eapply keeps_app_bind; [apply keeps_app_self|]. intros self _.
    destruct (_ || _); [by apply keeps_app_ret|].
    destruct (_click_start self) as [[x1 y1]|].
    + apply (keeps_app_bind _ _ _ (fun _ => True)).
      { destruct (_ && _); [apply keeps_app_assign|by apply keeps_app_ret]. }
      intros _ _. eapply keeps_app_bind; [apply keeps_app_assign|]. intros _ _.
      eapply keeps_app_bind; [apply keeps_app_draw|]. intros img _.
      eapply keeps_app_bind; [apply keeps_app_self|]. intros self' _.
      eapply keeps_app_bind; [apply keeps_app_format|]. intros text _.
      by apply keeps_app_ret.
    + eapply keeps_app_bind; [apply keeps_app_assign|]. intros _ _.
      eapply keeps_app_bind; [apply keeps_app_draw|]. intros img _.
      eapply keeps_app_bind; [apply keeps_app_format|]. intros text _.
      by apply keeps_app_ret.
  - unfold update_preview.
    eapply keeps_app_bind; [apply keeps_app_self|]. intros self _.
    destruct (can_redraw f self); [|by apply keeps_app_ret].
    eapply keeps_app_bind; [apply keeps_app_draw|]. intros img _.
    eapply keeps_app_bind; [apply keeps_app_self|]. intros self' _.
    by apply keeps_app_ret.
  - unfold remove_last_region.
    eapply keeps_app_bind; [apply keeps_app_self|]. intros self _.
    apply (keeps_app_bind _ _ _ (fun _ => True)).
    { destruct (_regions self); [by apply keeps_app_ret|apply keeps_app_assign]. }
    intros _ _. eapply keeps_app_bind; [apply keeps_app_assign|]. intros _ _.
    eapply keeps_app_bind; [apply keeps_app_self|]. intros self1 _.
    destruct (can_redraw f self1); [|by apply keeps_app_ret].
    eapply keeps_app_bind; [apply keeps_app_draw|]. intros img _.
    eapply keeps_app_bind; [apply keeps_app_self|]. intros self' _.
    eapply keeps_app_bind; [apply keeps_app_format|]. intros text _.
    by apply keeps_app_ret.
  - unfold clear_regions.
    do 2 (eapply keeps_app_bind; [apply keeps_app_assign|]; intros _ _).
    eapply keeps_app_bind; [apply keeps_app_self|]. intros self _.
    destruct (can_redraw f self); [|by apply keeps_app_ret].
    eapply keeps_app_bind; [apply keeps_app_draw|]. intros img _.
    by apply keeps_app_ret.
  - unfold apply_mask. destruct (negb _); [by apply keeps_app_ret|].
    eapply keeps_app_bind; [apply keeps_app_self|]. intros self _.
    destruct (_regions self) as [|r rs]; [by apply keeps_app_ret|].
    apply keeps_app_try; [|intros e; by apply keeps_app_ret].
    eapply keeps_app_bind; [apply keeps_app_on_heap, keeps_redact|]. intros out _.
    eapply keeps_app_bind; [apply keeps_app_self|]. intros self' _.
    by apply keeps_app_ret.
Qed.

(** X13.  No handler of the mask tab modifies an image object that
    exists: after any sequence of events, handled to the end or cut short by
    an exception, the image objects there were before (the base image and
    every preview handed out earlier among them) are as they were.  The
    handlers only create image objects. *)
Theorem handlers_keep_images (events : list event) (s : state) :
  take (length s.2) (session_after events s).2 = s.2.
Proof.
  assert (Hgen : forall n s, (n <= length s.2)%nat ->
            take n (session_after events s).2 = take n s.2).
  { intros n. induction events as [|e events IH]; intros s0 Hn; [done|].
    destruct (keeps_app_fire n e s0 Hn) as (Ht & Hl & _).
    change (session_after (e :: events) s0)
      with (session_after events (fire e s0).1).
    rewrite IH by done. exact Ht. }
  rewrite Hgen by done. apply firstn_all.
Qed.

(** *** Properties of the session that the handlers keep *)

Lemma preserves_ret {A} (I : t -> Prop) (a : A) : preserves I (ret a).
Proof. by intros s. Qed.

Lemma preserves_stable {A} (I : t -> Prop) (m : M state A) :
  app_stable m -> preserves I m.
Proof. intros Hm s Hs. by rewrite Hm. Qed.

Lemma preserves_assign (I : t -> Prop) (f : t -> t) :
  (forall a, I a -> I (f a)) -> preserves I (assign f).
Proof. intros Hf s Hs. by apply Hf. Qed.

Lemma preserves_bind {A B} (I : t -> Prop) (m : M state A) (k : A -> M state B) :
  preserves I m -> (forall a, preserves I (k a)) -> preserves I (bind m k).
Proof.
  intros Hm Hk s Hs. unfold bind. specialize (Hm s Hs).
  destruct (m s) as [s1 [e|a]]; [done|]. by apply Hk.
Qed.

Lemma preserves_try {A} (I : t -> Prop) (m : M state A) (handler : exn -> M state A) :
  preserves I m -> (forall e, preserves I (handler e)) ->
  preserves I (try_except m handler).
Proof.
  intros Hm Hh s Hs. unfold try_except. specialize (Hm s Hs).
  destruct (m s) as [s1 [e|a]]; [|done]. by apply Hh.
Qed.

Lemma preserves_lift {A} (I : t -> Prop) (r : exn + A) : preserves I (lift r).
Proof. by intros s. Qed.

Lemma preserves_fire_regions_large (e : event) : preserves regions_large (fire e).
Proof.
  assert (Hnil : forall a : t, _regions a = [] -> regions_large a).
  { intros a Ha. unfold regions_large. rewrite Ha. constructor. }
  assert (Hsame : forall f : t -> t, (forall a, _regions (f a) = _regions a) ->
            forall a, regions_large a -> regions_large (f a)).
  { intros f Hf a Ha. unfold regions_large. by rewrite Hf. }
  destruct e as [f|f page|f mt [x y]|f mt|f mt|f mt|f mt]; unfold fire;
    (apply preserves_bind; [|intros; apply preserves_ret]).
  - unfold load_mask_pdf. destruct (negb _); [apply preserves_ret|].
    apply preserves_bind; [by apply preserves_assign, Hsame|intros _].
    apply preserves_bind; [by apply preserves_assign, Hsame|intros _].
    apply preserves_bind; [apply preserves_assign; intros a _; by apply Hnil|intros _].
    apply preserves_bind; [by apply preserves_assign, Hsame|intros _].
    apply preserves_try; [|intros; apply preserves_ret].
    apply preserves_bind; [apply preserves_lift|intros count].
    apply preserves_bind; [apply preserves_stable, app_stable_self|intros self].
    apply preserves_bind; [apply preserves_stable, app_stable_on_heap|intros img].
    apply preserves_bind; [apply preserves_stable, app_stable_on_heap|intros base].
    apply preserves_bind; [by apply preserves_assign, Hsame|intros _].
    apply preserves_ret.
  - unfold change_mask_page. destruct (negb _); [apply preserves_ret|].
    apply preserves_bind; [by apply preserves_assign, Hsame|intros _].
    apply preserves_bind; [apply preserves_assign; intros a _; by apply Hnil|intros _].
    apply preserves_bind; [by apply preserves_assign, Hsame|intros _].
    apply preserves_try; [|intros; apply preserves_ret].
    apply preserves_bind; [apply preserves_lift|intros count].
    apply preserves_bind; [apply preserves_stable, app_stable_self|intros self].
    apply preserves_bind; [apply preserves_stable, app_stable_on_heap|intros img].
    apply preserves_bind; [apply preserves_stable, app_stable_on_heap|intros base].
    apply preserves_bind; [by apply preserves_assign, Hsame|intros _].
    apply preserves_ret.
  - unfold handle_image_click.
    apply preserves_bind; [apply preserves_stable, app_stable_self|intros self].
    destruct (_ || _); [apply preserves_ret|].
    destruct (_click_start self) as [[x1 y1]|].
    + apply preserves_bind.
      { destruct ((5 <? Z.abs (x - x1)) && (5 <? Z.abs (y - y1))) eqn:Hsz;
          [|apply preserves_ret].
        apply andb_prop in Hsz as [?%Z.ltb_lt ?%Z.ltb_lt].
        apply preserves_assign. intros a Ha. unfold regions_large in *. simpl.
        apply Forall_app. split; [done|]. by repeat constructor. }
      intros _. apply preserves_bind; [by apply preserves_assign, Hsame|intros _].
      apply preserves_bind; [apply preserves_stable, app_stable_draw|intros img].
      apply preserves_bind; [apply preserves_stable, app_stable_self|intros self'].
      apply preserves_bind; [apply preserves_stable, app_stable_format|intros text].
      apply preserves_ret.
    + apply preserves_bind; [by apply preserves_assign, Hsame|intros _].
      apply preserves_bind; [apply preserves_stable, app_stable_draw|intros img].
      apply preserves_bind; [apply preserves_stable, app_stable_format|intros text].
      apply preserves_ret.
  - unfold update_preview.
    apply preserves_bind; [apply preserves_stable, app_stable_self|intros self].
    destruct (can_redraw f self); [|apply preserves_ret].
    apply preserves_bind; [apply preserves_stable, app_stable_draw|intros img].
    apply preserves_bind; [apply preserves_stable, app_stable_self|intros self'].
    apply preserves_ret.
  - unfold remove_last_region.
    apply preserves_bind; [apply preserves_stable, app_stable_self|intros self].
    apply preserves_bind.
    { destruct (_regions self); [apply preserves_ret|].
      apply preserves_assign. intros a Ha. unfold regions_large in *. simpl.
      rewrite Forall_forall in Ha |- *. intros r Hr. apply Ha.
      apply list_elem_of_In. apply list_elem_of_In in Hr.
      clear -Hr. induction (_regions a) as [|r0 [|r1 rs] IH]; [done|done|].
      destruct Hr as [->|Hr]; [by left|right; by apply IH]. }
    intros _. apply preserves_bind; [by apply preserves_assign, Hsame|intros _].
    apply preserves_bind; [apply preserves_stable, app_stable_self|intros self1].
    destruct (can_redraw f self1); [|apply preserves_ret].
    apply preserves_bind; [apply preserves_stable, app_stable_draw|intros img].
    apply preserves_bind; [apply preserves_stable, app_stable_self|intros self'].
    apply preserves_bind; [apply preserves_stable, app_stable_format|intros text].
    apply preserves_ret.
  - unfold clear_regions.
    apply preserves_bind; [apply preserves_assign; intros a _; by apply Hnil|intros _].
    apply preserves_bind; [by apply preserves_assign, Hsame|intros _].
    apply preserves_bind; [apply preserves_stable, app_stable_self|intros self].
    destruct (can_redraw f self); [|apply preserves_ret].
    apply preserves_bind; [apply preserves_stable, app_stable_draw|intros img].
    apply preserves_ret.
  - unfold apply_mask. destruct (negb _); [apply preserves_ret|].
    apply preserves_bind; [apply preserves_stable, app_stable_self|intros self].
    destruct (_regions self) as [|r rs]; [apply preserves_ret|].
    apply preserves_try; [|intros; apply preserves_ret].
    apply preserves_bind; [apply preserves_stable, app_stable_on_heap|intros out].
    apply preserves_bind; [apply preserves_stable, app_stable_self|intros self'].
    apply preserves_ret.
Qed.

(** X14.  Every region a session holds is more than 5 pixels wide and more
    than 5 pixels high: no sequence of events of the mask tab, with whatever
    files, page numbers, mask types and click positions, brings a smaller
    region into the list. *)
Theorem session_regions_large (events : list event) (s : state) :
  regions_large s.1 -> regions_large (session_after events s).1.
Proof.
  revert s. induction events as [|e events IH]; intros s Hs; [done|].
  change (session_after (e :: events) s) with (session_after events (fire e s).1).
  apply IH. by apply preserves_fire_regions_large.
Qed.

(** *** Undo *)

(** [remove_last_region] drops the last region, if there is one, and the
    pending corner, whatever its arguments. *)
Lemma undo_session (pdf_file : option string) (mask_type : string) (app : t)
    (h : heap) :
  after (remove_last_region pdf_file mask_type (app, h))
  = set_click_start None (set_regions (removelast (_regions app)) app).
Proof.
  unfold after, remove_last_region.
  unfold bind at 1. unfold self_ at 1. cbn [fst snd].
  assert (Hpop : exists h1,
            (match _regions app with
             | [] => ret tt
             | _ => assign (fun a => set_regions (removelast (_regions a)) a)
             end) (app, h)
            = ((set_regions (removelast (_regions app)) app, h1), inr tt)).
  { destruct app as [m f p rs b c]. destruct rs; simpl; eauto. }
  destruct Hpop as [h1 Hrun].
  unfold bind at 1. rewrite Hrun.
  unfold bind at 1. unfold assign at 1, modify. cbn [fst snd].
  unfold bind at 1. unfold self_ at 1. cbn [fst snd].
  destruct (can_redraw _ _); [|done].
  rewrite (app_stable_bind _ _ (app_stable_draw mask_type)); [done|].
  intros img. apply app_stable_bind; [apply app_stable_self|].
  intros self; apply app_stable_bind; [apply app_stable_format|].
  intros text; apply app_stable_ret.
Qed.

(** X15.  "Undo Last" after a completed selection restores the session:
    with a document loaded and a corner pending, a second click that makes
    a region (both sides longer than 5), followed by [remove_last_region],
    leaves the session as it was before the second click, the pending corner
    cleared.  After a second click that makes no region, and in every other
    state, [remove_last_region] removes the last region the session holds
    and clears a pending corner. *)
Theorem undo_after_selection (pdf_file : option string) (mask_type : string)
    (x1 y1 x2 y2 : Z) (app : t) (h : heap) :
  file_truthy pdf_file = true ->
  is_Some (_base_image app) ->
  _click_start app = Some (x1, y1) ->
  let s1 := (handle_image_click pdf_file mask_type (x2, y2) (app, h)).1 in
  let app2 := after (remove_last_region pdf_file mask_type s1) in
  (5 < Z.abs (x2 - x1) /\ 5 < Z.abs (y2 - y1) -> app2 = set_click_start None app)
  /\ (~ (5 < Z.abs (x2 - x1) /\ 5 < Z.abs (y2 - y1)) ->
      app2 = set_click_start None (set_regions (removelast (_regions app)) app)).
Proof.
  intros Hfile Hbase Hclick. cbv zeta.
  pose proof (second_click pdf_file mask_type x1 y1 x2 y2 app h Hfile Hbase Hclick)
    as Hs1. unfold after in Hs1.
  destruct (handle_image_click pdf_file mask_type (x2, y2) (app, h)) as [[app1 h1] r1].
  cbn [fst snd] in *. rewrite undo_session. subst app1.
  destruct ((5 <? Z.abs (x2 - x1)) && (5 <? Z.abs (y2 - y1))) eqn:Hsz.
  - apply andb_prop in Hsz as [?%Z.ltb_lt ?%Z.ltb_lt]. split; [|tauto].
    intros _. destruct app as [m f p rs b c]. simpl.
    unfold set_click_start, set_regions. simpl. by rewrite removelast_last.
  - apply andb_false_iff in Hsz. split.
    + intros [? ?]. exfalso. destruct Hsz as [Hsz|Hsz]; apply Z.ltb_ge in Hsz; lia.
    + intros _. by destruct app.
Qed.

(** *** Export *)

(** With no key of [page_regions] among the page numbers of the document,
    [redact] writes the rendered pages, whatever the mask type. *)
Lemma redact_unmasked (self : Masker.t) (pdf_path : string) (pdf : list Page)
    (page_regions : gmap Z (list Region.t)) (mask_type : string) (h : heap) :
  open_pdf pdf_path = inr pdf ->
  pdf <> [] ->
  (forall n, 1 <= n <= len pdf -> page_regions !! n = None) ->
  exists h' : heap,
    Masker.redact self pdf_path page_regions mask_type h
    = (h', inr (List.map (fun page =>
                  Masker.encoded (render page (Masker.render_scale self))) pdf)).
Proof.
  intros Hopen Hne Hnone.
  assert (Masker.redact self pdf_path page_regions mask_type h
          = Masker.redact self pdf_path ∅ "black" h) as ->.
  { unfold Masker.redact, bind, lift. rewrite Hopen.
    assert (Masker.redact_pages self pdf page_regions mask_type h
            = Masker.redact_pages self pdf ∅ "black" h) as ->; [|done].
    unfold Masker.redact_pages. apply foldM_ext.
    intros page_idx acc s0 Hin. unfold range in Hin. apply elem_of_seqZ in Hin.
    rewrite Hnone by (unfold len in *; lia). by rewrite lookup_empty. }
  destruct (redact_run self pdf_path pdf ∅ "black" h Hopen Hne) as
    (h' & vs & Hrun & _ & Hlen & Hi); [done|].
  exists h'. rewrite Hrun. do 2 f_equal.
  change (List.map (fun page => Masker.encoded (render page (Masker.render_scale self))) pdf)
    with ((fun page => Masker.encoded (render page (Masker.render_scale self))) <$> pdf).
  apply list_eq. intros i. rewrite !list_lookup_fmap.
  destruct (pdf !! i) as [page|] eqn:Hp.
  - destruct (Hi i page Hp) as (v & -> & Hr). unfold Masker.page_raster in Hr.
    rewrite lookup_empty in Hr. by injection Hr as <-.
  - apply lookup_ge_None in Hp. rewrite lookup_ge_None_2; [done|lia].
Qed.

Lemma fire_state (e : event) (s : state) :
  (fire e s).1
  = match e with
    | mask_file_change f => (load_mask_pdf f s).1
    | mask_page_change f n => (change_mask_page f n s).1
    | mask_preview_select f t i => (handle_image_click f t i s).1
    | mask_type_change f t => (update_preview f t s).1
    | mask_undo_btn_click f t => (remove_last_region f t s).1
    | mask_clear_btn_click f t => (clear_regions f t s).1
    | mask_apply_btn_click f t => (apply_mask f t s).1
    end.
Proof.
  destruct e; unfold fire, bind;
    match goal with |- context [?m s] => by destruct (m s) as [s' [?|?]] end.
Qed.

(** The session after a page change to a number that is no page. *)
Lemma change_page_invalid_state (pdf_file : string) (pdf : list Page)
    (page_num : Z) (app : t) (h : heap) :
  PyStr.truthy pdf_file = true ->
  open_pdf pdf_file = inr pdf ->
  page_num < 1 \/ len pdf < page_num ->
  (change_mask_page (Some pdf_file) page_num (app, h)).1
  = (set_click_start None (set_regions [] (set_current_page page_num app)), h).
Proof.
  intros Hfile Hopen Hrange. unfold change_mask_page.
  cbn [file_truthy default]. rewrite Hfile. cbn [negb]. unfold id.
  unfold bind at 1. unfold assign at 1, modify. cbn [fst snd].
  unfold bind at 1. unfold assign at 1, modify. cbn [fst snd].
  unfold bind at 1. unfold assign at 1, modify. cbn [fst snd].
  unfold try_except, bind, lift, get_page_count. rewrite Hopen.
  unfold self_ at 1. cbn [fst snd].
  unfold on_heap at 1, Masker.preview_page, bind, lift. cbn [fst snd].
  rewrite Hopen.
  cbn [_current_page masker set_click_start set_regions set_current_page].
  assert ((page_num <? 1) || (len pdf <? page_num) = true) as ->.
  { apply orb_true_iff. destruct Hrange; [left|right]; apply Z.ltb_lt; lia. }
  reflexivity.
Qed.

(** X16.  A region selected after a page change to a number that is no
    page of the document masks nothing: the slider takes the session to the
    page [page_num], two clicks select a region there, and [apply_mask]
    writes every page of the document as it renders, unmasked, under the
    message "Created masked PDF with 1 redaction(s)". *)
Theorem stale_page_masks_nothing (pdf_file : string) (pdf : list Page)
    (page_num x1 y1 x2 y2 : Z) (mask_type : string) (app : t) (h : heap) :
  PyStr.truthy pdf_file = true ->
  open_pdf pdf_file = inr pdf ->
  pdf <> [] ->
  page_num < 1 \/ len pdf < page_num ->
  is_Some (_base_image app) ->
  5 < Z.abs (x2 - x1) /\ 5 < Z.abs (y2 - y1) ->
  let s3 :=
    session_after
      [mask_page_change (Some pdf_file) page_num;
       mask_preview_select (Some pdf_file) mask_type (x1, y1);
       mask_preview_select (Some pdf_file) mask_type (x2, y2)] (app, h) in
  _current_page s3.1 = page_num
  /\ _regions s3.1
     = [Region.mk (Z.min x1 x2) (Z.min y1 y2) (Z.abs (x2 - x1)) (Z.abs (y2 - y1))]
  /\ exists h' : heap,
       apply_mask (Some pdf_file) mask_type s3
       = ((s3.1, h'),
          inr (Some (List.map (fun page =>
                       Masker.encoded
                         (render page (Masker.render_scale (masker app)))) pdf),
               "Created masked PDF with 1 redaction(s)")).
Proof.
  intros Hfile Hopen Hne Hrange Hbase [Hw Hh]. cbv zeta.
  unfold session_after. cbn [fold_left]. rewrite !fire_state.
  rewrite (change_page_invalid_state pdf_file pdf page_num app h Hfile Hopen Hrange).
  set (app1 := set_click_start None (set_regions [] (set_current_page page_num app))).
  assert (Hf : file_truthy (Some pdf_file) = true) by done.
  pose proof (first_click (Some pdf_file) mask_type x1 y1 app1 h Hf Hbase eq_refl) as H1.
  unfold after in H1.
  destruct (handle_image_click (Some pdf_file) mask_type (x1, y1) (app1, h))
    as [[app2 h2] r2]. cbn [fst snd] in *. subst app2.
  pose proof (second_click (Some pdf_file) mask_type x1 y1 x2 y2
                (set_click_start (Some (x1, y1)) app1) h2 Hf Hbase eq_refl) as H2.
  unfold after in H2.
  destruct (handle_image_click (Some pdf_file) mask_type (x2, y2)
              (set_click_start (Some (x1, y1)) app1, h2)) as [[app3 h3] r3].
  cbn [fst snd] in *.
  assert ((5 <? Z.abs (x2 - x1)) && (5 <? Z.abs (y2 - y1)) = true) as Hsz
    by (apply andb_true_intro; split; apply Z.ltb_lt; lia).
  rewrite Hsz in H2. subst app3. split; [done|]. split; [done|].
  unfold apply_mask. cbn [file_truthy default]. rewrite Hfile. cbn [negb]. unfold id.
  unfold bind at 1. unfold self_ at 1. cbn [fst snd].
  unfold app1.
  cbn [_regions _current_page masker set_click_start set_regions set_current_page].
  destruct (redact_unmasked (masker app) pdf_file pdf
              {[ page_num := [Region.mk (Z.min x1 x2) (Z.min y1 y2)
                                (Z.abs (x2 - x1)) (Z.abs (y2 - y1))] ]}
              mask_type h3 Hopen Hne) as [h' Hrun].
  { intros n Hn. apply lookup_singleton_ne. lia. }
  exists h'. rewrite app_nil_l. unfold try_except, bind, on_heap. cbn [fst snd].
  rewrite Hrun. reflexivity.
Qed.

(** *** Loading a document *)

(** X17.  [load_mask_pdf] never raises.  It first takes the session to the
    new file: page 1, no regions, no pending corner.  When the file opens and
    has a page, the first page is rendered into a new image object, which is
    returned, and the base image of the session becomes a second new object
    with the same pixels.  When the file does not open, or has no page, the
    error is returned as a message and the base image of the session stays
    the one of the document loaded before. *)
Theorem load_mask_pdf_outcomes (pdf_file : string) (app : t) (h : heap) :
  PyStr.truthy pdf_file = true ->
  let reset :=
    set_click_start None
      (set_regions [] (set_current_page 1 (set_current_pdf (Some pdf_file) app))) in
  match open_pdf pdf_file with
  | inr (page :: rest) =>
      let v := render page (PyFloat.mul (Masker.render_scale (masker app))
                              PyFloat.one) in
      load_mask_pdf (Some pdf_file) (app, h)
      = ((set_base_image (Some (length (h ++ [v]))) reset, (h ++ [v]) ++ [v]),
         inr (Some (length h),
              "Page 1/" +:+ pretty (len (page :: rest))
              +:+ " — Click to draw rectangles",
              len (page :: rest), ""))
  | inr [] =>
      load_mask_pdf (Some pdf_file) (app, h)
      = ((reset, h), inr (None, "Error: Page 1 out of range", 1, ""))
  | inl e =>
      load_mask_pdf (Some pdf_file) (app, h)
      = ((reset, h), inr (None, "Error: " +:+ exn_msg e, 1, ""))
  end.
Proof.
  intros Hfile. cbv zeta.
  assert (Hstart : forall k : M state (option loc * string * Z * string),
            (let* _ := assign (set_current_pdf (Some pdf_file)) in
             let* _ := assign (set_current_page 1) in
             let* _ := assign (set_regions []) in
             let* _ := assign (set_click_start None) in k) (app, h)
            = k (set_click_start None
                   (set_regions [] (set_current_page 1
                      (set_current_pdf (Some pdf_file) app))), h)).
  { intros k. reflexivity. }
  unfold load_mask_pdf. cbn [file_truthy default]. rewrite Hfile. cbn [negb].
  unfold id. rewrite Hstart. clear Hstart.
  unfold try_except, bind, lift, get_page_count.
  unfold self_, on_heap, Masker.preview_page, bind, lift. cbn [fst snd].
  destruct (open_pdf pdf_file) as [e|[|page rest]] eqn:Hopen; [done|done|].
  assert ((1 <? 1) || (len (page :: rest) <? 1) = false) as ->.
  { apply orb_false_intro; apply Z.ltb_ge; unfold len; simpl; lia. }
  assert (getitem (page :: rest) (1 - 1) = inr page) as -> by reflexivity.
  cbn [fst snd masker set_click_start set_regions set_current_page set_current_pdf].
  unfold alloc at 1. cbn [Masker.regions_truthy]. unfold ret at 1. cbn [fst snd].
  unfold copy, bind, deref. by rewrite lookup_alloc_new.
Qed.

(** X24.  A page change to a page of the document renders that page
    into a new image object, which is returned, makes a second new object
    with the same pixels the base image, and empties the region list and the
    pending corner: the regions selected on the page before are dropped, so
    that a session only ever holds regions of its current page. *)
Theorem change_mask_page_in_range (pdf_file : string) (pdf : list Page)
    (page_num : Z) (page : Page) (app : t) (h : heap) :
  PyStr.truthy pdf_file = true ->
  open_pdf pdf_file = inr pdf ->
  1 <= page_num ->
  pdf !! Z.to_nat (page_num - 1) = Some page ->
  let v := render page (PyFloat.mul (Masker.render_scale (masker app))
                          PyFloat.one) in
  change_mask_page (Some pdf_file) page_num (app, h)
  = ((set_base_image (Some (length (h ++ [v])))
        (set_click_start None (set_regions [] (set_current_page page_num app))),
      (h ++ [v]) ++ [v]),
     inr (Some (length h),
          "Page " +:+ pretty page_num +:+ "/" +:+ pretty (len pdf)
          +:+ " — Click to draw rectangles",
          "")).
Proof.
  intros Hfile Hopen Hlo Hpage. cbv zeta.
  assert (Hstart : forall k : M state (option loc * string * string),
            (let* _ := assign (set_current_page page_num) in
             let* _ := assign (set_regions []) in
             let* _ := assign (set_click_start None) in k) (app, h)
            = k (set_click_start None
                   (set_regions [] (set_current_page page_num app)), h)).
  { intros k. reflexivity. }
  unfold change_mask_page. cbn [file_truthy default]. rewrite Hfile. cbn [negb].
  unfold id. rewrite Hstart. clear Hstart.
  unfold try_except, bind, lift, get_page_count.
  unfold self_, on_heap, Masker.preview_page, bind, lift. cbn [fst snd].
  rewrite Hopen.
  cbn [_current_page masker set_click_start set_regions set_current_page].
  assert ((page_num <? 1) || (len pdf <? page_num) = false) as ->.
  { apply orb_false_intro; apply Z.ltb_ge; [lia|].
    apply lookup_lt_Some in Hpage. unfold len. lia. }
  assert (getitem pdf (page_num - 1) = inr page) as ->.
  { unfold getitem. assert ((page_num - 1 <? 0) = false) as -> by (apply Z.ltb_ge; lia).
    by rewrite Hpage. }
  unfold alloc at 1. cbn [Masker.regions_truthy]. unfold ret at 1. cbn [fst snd].
  unfold copy, bind, deref. by rewrite lookup_alloc_new.
Qed.

(** X26.  [apply_mask] masks the current page only.  With a document
    that opens and has pages and a session that holds regions, it never
    raises and leaves the session as it is; it writes every page of the
    document, the page numbered [_current_page] masked with the regions of
    the session and every other page as it renders, and reports the number
    of regions. *)
Theorem apply_mask_current_page (pdf_file : string) (pdf : list Page)
    (mask_type : string) (app : t) (h : heap) :
  PyStr.truthy pdf_file = true ->
  open_pdf pdf_file = inr pdf ->
  pdf <> [] ->
  _regions app <> [] ->
  (String.eqb mask_type "blur" = true -> Masker.blur_keeps_size) ->
  exists (h' : heap) (out : list Image),
    apply_mask (Some pdf_file) mask_type (app, h)
    = ((app, h'),
       inr (Some out,
            "Created masked PDF with " +:+ pretty (len (_regions app))
            +:+ " redaction(s)"))
    /\ take (length h) h' = h
    /\ length out = length pdf
    /\ forall (i : nat) (page : Page),
         pdf !! i = Some page ->
         if Z.of_nat i + 1 =? _current_page app then
           exists v : Image,
             Masker.returned
               (Masker._apply_masks (masker app) 0%nat (_regions app) mask_type
                  [render page (Masker.render_scale (masker app))]) = inr v
             /\ out !! i = Some (Masker.encoded v)
         else
           out !! i
           = Some (Masker.encoded (render page (Masker.render_scale (masker app)))).
Proof.
  intros Hfile Hopen Hne Hregions Hblur.
  destruct (redact_run (masker app) pdf_file pdf
              {[ _current_page app := _regions app ]} mask_type h Hopen Hne Hblur)
    as (h' & vs & Hrun & Ht & Hlen & Hi).
  exists h', (Masker.encoded <$> vs). split; [|split; [done|split]].
  - unfold apply_mask. cbn [file_truthy default]. rewrite Hfile. cbn [negb].
    unfold id. unfold bind at 1. unfold self_ at 1. cbn [fst snd].
    destruct (_regions app) as [|r rs] eqn:Hrs; [done|].
    unfold try_except, bind, on_heap. cbn [fst snd]. rewrite Hrun.
    unfold self_, ret. cbn [fst snd]. by rewrite Hrs.
  - by rewrite length_fmap.
  - intros i page Hp. destruct (Hi i page Hp) as (v & Hv & Hr).
    unfold Masker.page_raster in Hr. rewrite list_lookup_fmap, Hv.
    destruct (Z.eqb_spec (Z.of_nat i + 1) (_current_page app)) as [Heq|Hneq].
    + rewrite <- Heq, lookup_singleton_eq in Hr.
      exists v. by rewrite <- masked_standalone.
    + rewrite lookup_singleton_ne in Hr by done. by injection Hr as <-.
Qed.

End Handlers.

(** ** Files: validation, extraction, aggregation *)

Section FilesProperties.

Context `{Files}.
Import PIL.

Lemma image_not_pdf (s : string) :
  s ∈ Utils.SUPPORTED_IMAGE_FORMATS -> s ∈ Utils.SUPPORTED_PDF_FORMATS -> False.
Proof.
  unfold Utils.SUPPORTED_IMAGE_FORMATS, Utils.SUPPORTED_PDF_FORMATS.
  rewrite !elem_of_union, !elem_of_singleton. intros Hi ->.
  repeat destruct Hi as [Hi|Hi]; discriminate.
Qed.

(** A file that [validate_file] accepts is returned as it is, and is an
    image or a PDF, not both. *)
Lemma validate_file_kind (path p : string) :
  Utils.validate_file path = inr p ->
  p = path /\ Utils.is_image path = negb (Utils.is_pdf path).
Proof.
  unfold Utils.validate_file, Utils.is_image, Utils.is_pdf.
  destruct (path_exists path); [|done]. destruct (path_is_file path); [|done].
  simpl. case_bool_decide as Hs; [|done]. simpl. intros [= <-]. split; [done|].
  unfold Utils.SUPPORTED_FORMATS in Hs. apply elem_of_union in Hs.
  do 2 case_bool_decide; try done.
  - exfalso. eauto using image_not_pdf.
  - tauto.
Qed.

(** X18.  The validators agree: a path that [validate_pdf] accepts is
    accepted by [validate_file]; a path that [validate_file] accepts is
    returned unchanged and is an image or a PDF by its lower-cased suffix,
    never both and never neither, and [validate_pdf] accepts it exactly when
    it is a PDF.  So [Aggregator.merge] leaves out no file that it has
    validated. *)
Theorem validators_agree (path : string) :
  (forall p, Utils.validate_pdf path = inr p -> Utils.validate_file path = inr p)
  /\ (forall p, Utils.validate_file path = inr p ->
        p = path
        /\ Utils.is_image path = negb (Utils.is_pdf path)
        /\ (Utils.is_pdf path = true <-> Utils.validate_pdf path = inr path)).
Proof.
  split.
  - unfold Utils.validate_pdf, Utils.validate_file.
    destruct (path_exists path); [|done]. destruct (path_is_file path); [|done].
    simpl. case_bool_decide as Hs; [|done]. simpl. intros p [= <-].
    rewrite bool_decide_eq_true_2; [done|].
    unfold Utils.SUPPORTED_FORMATS. apply elem_of_union. by right.
  - intros p Hv. destruct (validate_file_kind path p Hv) as [-> Hk].
    split; [done|]. split; [done|].
    unfold Utils.validate_file in Hv. unfold Utils.validate_pdf, Utils.is_pdf.
    destruct (path_exists path); [|done]. destruct (path_is_file path); [|done].
    simpl. clear Hv Hk.
    destruct (bool_decide (PyStr.lower (path_suffix path) ∈ Utils.SUPPORTED_PDF_FORMATS));
      simpl; split; done.
Qed.

(** *** [Separator.extract_single] and [Separator.extract] *)

Lemma import_pages_run {P} (pdf : list P) (pages : list Z) :
  Forall (fun p => 0 <= p < len pdf) pages ->
  exists out : list P,
    import_pages pdf pages = inr out
    /\ Forall2 (fun p page => pdf !! Z.to_nat p = Some page) pages out.
Proof.
  unfold import_pages. induction 1 as [|p pages Hp _ IH]; simpl.
  - exists []. by split.
  - destruct IH as (out & -> & Hout).
    destruct (lookup_lt_is_Some_2 pdf (Z.to_nat p)) as [page Hpage];
      [unfold len in Hp; lia|].
    unfold getitem. assert ((p <? 0) = false) as -> by (apply Z.ltb_ge; lia).
    rewrite Hpage. exists (page :: out). split; [done|]. by constructor.
Qed.

(** The pages [parse_page_range] selects in a document are indices of the
    document, in ascending order. *)
Lemma parse_page_range_indices {P} (pdf : list P) (page_range : string) :
  match parse_page_range page_range (len pdf) with
  | inr pages =>
      StronglySorted Z.lt pages /\ Forall (fun p => 0 <= p < len pdf) pages
  | inl _ => True
  end.
Proof.
  pose proof (parse_page_range_run page_range (len pdf)) as Hrun.
  destruct (first_error (parts_of page_range)) as [e|]; [by rewrite Hrun|].
  destruct Hrun as (pages & -> & Hs & Hp). split; [done|].
  apply Forall_forall. intros p Hin. apply Hp in Hin as [? _]. lia.
Qed.

(** X19.  [extract_single] writes the selected pages of the document in
    the order of the document, each page once, whatever the order and the
    repetitions of the range string; no index is ever out of the document.
    It raises [ValueError] when the range selects no page of the document,
    and the exception of [parse_page_range] when that raises; it raises
    nothing else. *)
Theorem extract_single_pages (pdf_path : string) (pdf : list Page)
    (page_range : string) :
  open_pdf pdf_path = inr pdf ->
  match parse_page_range page_range (len pdf) with
  | inl e => Separator.extract_single pdf_path page_range = inl e
  | inr pages =>
      StronglySorted Z.lt pages
      /\ match pages with
         | [] =>
             Separator.extract_single pdf_path page_range
             = inl (ValueError ("No valid pages in range '" +:+ page_range +:+ "'"))
         | _ =>
             exists out : list Page,
               Separator.extract_single pdf_path page_range = inr out
               /\ Forall2 (fun p page => pdf !! Z.to_nat p = Some page) pages out
         end
  end.
Proof.
  intros Hopen.
  pose proof (parse_page_range_indices pdf page_range) as Hind.
  unfold Separator.extract_single. rewrite Hopen.
  destruct (parse_page_range page_range (len pdf)) as [e|pages]; [done|].
  destruct Hind as [Hs Hp]. split; [done|].
  destruct pages as [|p pages']; [done|]. simpl negb. cbv iota.
  by apply import_pages_run.
Qed.

Lemma append_inj_l (s a b : string) : s +:+ a = s +:+ b -> a = b.
Proof. induction s as [|c r IH]; simpl; [done|]. intros [= ?]. by apply IH. Qed.

Lemma append_length (a b : string) :
  String.length (a +:+ b) = (String.length a + String.length b)%nat.
Proof. induction a as [|c r IH]; simpl; [done|]. by rewrite IH. Qed.

Lemma append_inj_r (a b e : string) : a +:+ e = b +:+ e -> a = b.
Proof.
  intros Heq.
  assert (Hlen : String.length a = String.length b).
  { apply (f_equal String.length) in Heq. rewrite !append_length in Heq. lia. }
  revert b Heq Hlen. induction a as [|c r IH]; intros [|d b'] Heq Hlen;
    try done.
  simpl in Heq, Hlen. injection Heq as -> Heq. f_equal. apply IH; [done|lia].
Qed.

(** The names of the files of two pages differ. *)
Lemma page_file_name_inj (stem ext : string) (p q : Z) :
  stem +:+ "_page" +:+ pretty (p + 1) +:+ ext
  = stem +:+ "_page" +:+ pretty (q + 1) +:+ ext ->
  p = q.
Proof.
  intros Heq. apply append_inj_l in Heq.
  apply (append_inj_l "_page") in Heq. apply append_inj_r in Heq.
  apply (inj pretty) in Heq. lia.
Qed.

(** What [extract] does to the directory [dir]. *)
Lemma extract_run (self : Separator.t) (pdf_path : string) (pdf : list Page)
    (page_range : string) (as_images : bool) (scale : PyFloat.float)
    (dir : gmap string Separator.file) :
  open_pdf pdf_path = inr pdf ->
  PyFloat.int_truediv (Separator.output_dpi self) 72 = inr scale ->
  let name := fun p : Z =>
    path_stem pdf_path +:+ "_page" +:+ pretty (p + 1)
    +:+ (if as_images then ".png" else ".pdf") in
  let content := fun page : Page =>
    if as_images then Separator.png_file (render page scale)
    else Separator.pdf_file [page] in
  match parse_page_range page_range (len pdf) with
  | inl e =>
      Separator.extract self pdf_path page_range as_images dir = (dir, inl e)
  | inr [] =>
      Separator.extract self pdf_path page_range as_images dir
      = (dir, inl (ValueError ("No valid pages in range '" +:+ page_range
                               +:+ "' (document has " +:+ pretty (len pdf)
                               +:+ " pages)")))
  | inr pages =>
      exists dir' : gmap string Separator.file,
        Separator.extract self pdf_path page_range as_images dir
        = (dir', inr (name <$> pages))
        /\ (forall p, p ∈ pages ->
              exists page, pdf !! Z.to_nat p = Some page
                           /\ dir' !! name p = Some (content page))
        /\ (forall n, n ∉ (name <$> pages) -> dir' !! n = dir !! n)
  end.
Proof.
  intros Hopen Hscale name content.
  pose proof (parse_page_range_indices pdf page_range) as Hind.
  unfold Separator.extract.
  destruct (parse_page_range page_range (len pdf)) as [e|pages] eqn:Hr.
  { unfold bind at 1. unfold lift at 1. rewrite Hopen.
    unfold bind at 1. unfold lift at 1. by rewrite Hr. }
  destruct Hind as [Hs Hp].
  destruct pages as [|p0 pages0].
  { unfold bind at 1. unfold lift at 1. rewrite Hopen.
    unfold bind at 1. unfold lift at 1. by rewrite Hr. }
  unfold bind at 1. unfold lift at 1. rewrite Hopen.
  unfold bind at 1. unfold lift at 1. rewrite Hr.
  cbn [list_truthy negb].
  match goal with |- context [foldM ?b _ _] => set (body := b) end.
  assert (Hloop : forall (ps : list Z) (acc : list string) (d : gmap string Separator.file),
            Forall (fun p => 0 <= p < len pdf) ps -> NoDup ps ->
            exists d',
              foldM body ps acc d = (d', inr (acc ++ (name <$> ps)))
              /\ (forall p, p ∈ ps ->
                    exists page, pdf !! Z.to_nat p = Some page
                                 /\ d' !! name p = Some (content page))
              /\ (forall n, n ∉ (name <$> ps) -> d' !! n = d !! n)).
  { induction ps as [|p ps IH]; intros acc d Hin Hnd.
    - exists d. simpl. rewrite app_nil_r. split; [done|].
      split; [by intros p ?%elem_of_nil|done].
    - apply Forall_cons in Hin as [Hp0 Hin]. apply NoDup_cons in Hnd as [Hnp Hnd].
      destruct (lookup_lt_is_Some_2 pdf (Z.to_nat p)) as [page Hpage];
        [unfold len in Hp0; lia|].
      assert (Hget : getitem pdf p = inr page).
      { unfold getitem. assert ((p <? 0) = false) as -> by (apply Z.ltb_ge; lia).
        by rewrite Hpage. }
      assert (Hbody : body acc p d
                      = (<[ name p := content page ]> d, inr (acc ++ [name p]))).
      { unfold body, name, content. destruct as_images.
        - unfold bind, lift, modify, ret. by rewrite Hget, Hscale.
        - unfold bind, lift, modify, ret, import_pages. simpl. by rewrite Hget. }
      simpl foldM. unfold bind at 1. rewrite Hbody.
      destruct (IH (acc ++ [name p]) (<[ name p := content page ]> d) Hin Hnd)
        as (d' & Hrun & Hnew & Hold).
      exists d'. split; [|split].
      + rewrite Hrun. by rewrite <- app_assoc.
      + intros q [->|Hq]%elem_of_cons; [|by apply Hnew].
        exists page. split; [done|]. rewrite Hold.
        * by rewrite lookup_insert_eq.
        * intros (q & Heq & Hq)%list_elem_of_fmap.
          apply page_file_name_inj in Heq. by subst.
      + intros n Hn. rewrite fmap_cons in Hn. apply not_elem_of_cons in Hn as [Hn1 Hn2].
        rewrite (Hold n Hn2). by rewrite lookup_insert_ne. }
  destruct (Hloop (p0 :: pages0) [] dir Hp (StronglySorted_lt_NoDup _ Hs))
    as (dir' & Hrun & Hnew & Hold).
  by exists dir'.
Qed.

(** X20.  [extract] writes one file per selected page, in the order of
    the document: "<stem>_page<n>.pdf" with the page [n] alone, or
    "<stem>_page<n>.png" with the page rendered at the scale
    [output_dpi / 72].  The names are pairwise different, so that no file of
    the call overwrites another; every other file of the directory is left
    as it was.  When the range selects no page of the document, [extract]
    raises [ValueError] and writes nothing; when [parse_page_range] raises,
    [extract] raises the same exception and writes nothing. *)
Theorem extract_one_file_per_page (self : Separator.t) (pdf_path : string)
    (pdf : list Page) (page_range : string) (as_images : bool)
    (scale : PyFloat.float) (dir : gmap string Separator.file) :
  open_pdf pdf_path = inr pdf ->
  PyFloat.int_truediv (Separator.output_dpi self) 72 = inr scale ->
  let name := fun p : Z =>
    path_stem pdf_path +:+ "_page" +:+ pretty (p + 1)
    +:+ (if as_images then ".png" else ".pdf") in
  let content := fun page : Page =>
    if as_images then Separator.png_file (render page scale)
    else Separator.pdf_file [page] in
  match parse_page_range page_range (len pdf) with
  | inl e =>
      Separator.extract self pdf_path page_range as_images dir = (dir, inl e)
  | inr pages =>
      StronglySorted Z.lt pages
      /\ match pages with
         | [] =>
             Separator.extract self pdf_path page_range as_images dir
             = (dir, inl (ValueError ("No valid pages in range '" +:+ page_range
                                      +:+ "' (document has " +:+ pretty (len pdf)
                                      +:+ " pages)")))
         | _ =>
             exists dir' : gmap string Separator.file,
               Separator.extract self pdf_path page_range as_images dir
               = (dir', inr (name <$> pages))
               /\ NoDup (name <$> pages)
               /\ (forall p, p ∈ pages ->
                     exists page, pdf !! Z.to_nat p = Some page
                                  /\ dir' !! name p = Some (content page))
               /\ (forall n, n ∉ (name <$> pages) -> dir' !! n = dir !! n)
         end
  end.
Proof.
  intros Hopen Hscale name content.
  pose proof (extract_run self pdf_path pdf page_range as_images scale dir
                Hopen Hscale) as Hrun.
  pose proof (parse_page_range_indices pdf page_range) as Hind.
  cbv zeta in Hrun.
  destruct (parse_page_range page_range (len pdf)) as [e|pages]; [done|].
  destruct Hind as [Hs _]. split; [done|].
  destruct pages as [|p0 pages0]; [done|].
  destruct Hrun as (dir' & Hrun & Hnew & Hold).
  exists dir'. split; [done|]. split; [|done].
  apply NoDup_fmap_2_strong; [|by apply StronglySorted_lt_NoDup].
  intros p q _ _ Heq. by apply page_file_name_inj in Heq.
Qed.

(** X21.  The archive of [separate_pages] is the archive of the whole
    directory "separated": besides the files of the pages just extracted it
    holds every file that earlier extractions left there, of any document,
    under a message that counts the pages of this call only.  A range that
    selects no page of the document is reported as an error and leaves the
    directory as it was; so is a range on which [parse_page_range] raises,
    under the message of its exception. *)
Theorem separate_pages_archive (pdf_file : string) (pdf : list Page)
    (page_range : string) (dir : gmap string Separator.file) :
  PyStr.truthy pdf_file = true ->
  PyStr.truthy (PyStr.strip page_range) = true ->
  open_pdf pdf_file = inr pdf ->
  let name := fun p : Z =>
    path_stem pdf_file +:+ "_page" +:+ pretty (p + 1) +:+ ".pdf" in
  match parse_page_range page_range (len pdf) with
  | inl e =>
      FileskadisApp.separate_pages (Some pdf_file) page_range false dir
      = (dir, inr (None, "Error: " +:+ exn_msg e))
  | inr [] =>
      FileskadisApp.separate_pages (Some pdf_file) page_range false dir
      = (dir, inr (None,
                   "Error: No valid pages in range '" +:+ page_range
                   +:+ "' (document has " +:+ pretty (len pdf) +:+ " pages)"))
  | inr pages =>
      exists dir' : gmap string Separator.file,
        FileskadisApp.separate_pages (Some pdf_file) page_range false dir
        = (dir', inr (Some (FileskadisApp.zip_download dir'),
                      "Extracted " +:+ pretty (len pages) +:+ " pages"))
        /\ (forall p, p ∈ pages ->
              exists page, pdf !! Z.to_nat p = Some page
                           /\ dir' !! name p = Some (Separator.pdf_file [page]))
        /\ (forall n f, dir !! n = Some f -> n ∉ (name <$> pages) ->
              dir' !! n = Some f)
  end.
Proof.
  intros Hfile Hrange Hopen name.
  assert (exists scale, PyFloat.int_truediv (Separator.output_dpi Separator.new) 72
                        = inr scale) as [scale Hscale] by (vm_compute; eauto).
  pose proof (extract_run Separator.new pdf_file pdf page_range false scale dir
                Hopen Hscale) as Hrun.
  cbv zeta in Hrun.
  assert (Hgo : FileskadisApp.separate_pages (Some pdf_file) page_range false dir
                = match Separator.extract Separator.new pdf_file page_range false dir
                  with
                  | (dir', inr outputs) =>
                      (dir', inr (Some (FileskadisApp.zip_download dir'),
                                  "Extracted " +:+ pretty (len outputs) +:+ " pages"))
                  | (dir', inl e) => (dir', inr (None, "Error: " +:+ exn_msg e))
                  end).
  { unfold FileskadisApp.separate_pages.
    cbn [FileskadisApp.file_truthy default]. rewrite Hfile, Hrange. cbn [negb orb].
    unfold id, try_except, bind.
    by destruct (Separator.extract Separator.new pdf_file page_range false dir)
      as [dir' [e|outputs]]. }
  rewrite Hgo. clear Hgo.
  destruct (parse_page_range page_range (len pdf)) as [e|pages].
  { by rewrite Hrun. }
  destruct pages as [|p0 pages0].
  - by rewrite Hrun.
  - destruct Hrun as (dir' & Hrun & Hnew & Hold). rewrite Hrun.
    exists dir'. split; [|split; [done|]].
    + unfold len. by rewrite length_fmap.
    + intros n f Hn Hnot. by rewrite Hold.
Qed.

(** *** [Aggregator.merge] *)

Lemma import_all {P} (src : list P) :
  import_pages src (range 0 (len src)) = inr src.
Proof.
  unfold import_pages, range, len. rewrite Z.sub_0_r.
  assert (Hgen : forall (pre suf : list P),
            traverse (getitem (pre ++ suf))
              (seqZ (Z.of_nat (length pre)) (Z.of_nat (length suf))) = inr suf).
  { intros pre suf. revert pre. induction suf as [|x suf IH]; intros pre.
    - by rewrite seqZ_nil.
    - rewrite seqZ_cons by (simpl; lia). simpl traverse.
      rewrite (getitem_nat (pre ++ x :: suf) (length pre) x)
        by (by rewrite lookup_app_r, Nat.sub_diag).
      replace (Z.succ (Z.of_nat (length pre))) with (Z.of_nat (length (pre ++ [x])))
        by (rewrite length_app; simpl; lia).
      replace (Z.pred (Z.of_nat (length (x :: suf)))) with (Z.of_nat (length suf))
        by (simpl length; lia).
      simpl length.
      replace (Z.pred (Z.of_nat (S (length suf)))) with (Z.of_nat (length suf))
        by lia.
      replace (pre ++ x :: suf) with ((pre ++ [x]) ++ suf) by (by rewrite <- app_assoc).
      by rewrite IH. }
  apply (Hgen [] src).
Qed.

Lemma traverse_validate (files : list string) :
  Forall (fun f => exists p, Utils.validate_file f = inr p) files ->
  traverse Utils.validate_file files = inr files.
Proof.
  induction 1 as [|f files [p Hf] _ IH]; simpl; [done|].
  rewrite Hf, IH. by destruct (validate_file_kind f p Hf) as [-> _].
Qed.

(** The temporary directory after the first loop of [merge]: the page of
    each image under the name made of its stem, a later image replacing an
    earlier one of the same stem. *)
Lemma merge_parts_run (self : Aggregator.t) (files : list string) :
  Forall (fun f => exists p, Utils.validate_file f = inr p) files ->
  Forall (fun f => Utils.is_image f = true ->
                   exists img, image_open f = inr img) files ->
  forall (acc : list Aggregator.part) (temp : gmap string (list Page)),
  exists temp' : gmap string (list Page),
    foldM (fun pdf_parts file_path =>
             if Utils.is_image file_path then
               let* temp_pdf := Aggregator._image_to_pdf self file_path in
               ret (pdf_parts ++ [temp_pdf])
             else if Utils.is_pdf file_path then
               ret (pdf_parts ++ [Aggregator.given file_path])
             else ret pdf_parts) files acc temp
    = (temp',
       inr (acc ++ List.map (fun f =>
                     if Utils.is_image f
                     then Aggregator.in_temp_dir (path_stem f +:+ ".pdf")
                     else Aggregator.given f) files))
    /\ (forall name, (forall f, f ∈ files -> Utils.is_image f = true ->
                                name <> path_stem f +:+ ".pdf") ->
                      temp' !! name = temp !! name)
    /\ (forall pre f img suf,
          files = pre ++ f :: suf ->
          Utils.is_image f = true -> image_open f = inr img ->
          (forall g, g ∈ suf -> Utils.is_image g = true ->
                     path_stem g <> path_stem f) ->
          temp' !! (path_stem f +:+ ".pdf")
          = Some [Aggregator.page_of_image self img]).
Proof.
  intros Hvalid Himg.
  match goal with |- context [foldM ?b] => set (body := b) end.
  induction files as [|f files IH]; intros acc temp.
  - exists temp. simpl. rewrite app_nil_r. split; [done|]. split; [done|].
    intros [|? ?] ? ? ? ?; done.
  - apply Forall_cons in Hvalid as [[p Hp] Hvalid].
    apply Forall_cons in Himg as [Hf Himg].
    destruct (validate_file_kind f p Hp) as [_ Hkind].
    simpl foldM. unfold bind at 1.
    destruct (Utils.is_image f) eqn:Ei.
    + destruct (Hf eq_refl) as [img Hopen].
      assert (Hbody : body acc f temp
                      = (<[ path_stem f +:+ ".pdf" :=
                             [Aggregator.page_of_image self img] ]> temp,
                         inr (acc ++ [Aggregator.in_temp_dir
                                        (path_stem f +:+ ".pdf")]))).
      { unfold body. rewrite Ei.
        unfold Aggregator._image_to_pdf, bind, lift, modify, ret.
        by rewrite Hopen. }
      rewrite Hbody.
      destruct (IH Hvalid Himg
                  (acc ++ [Aggregator.in_temp_dir (path_stem f +:+ ".pdf")])
                  (<[ path_stem f +:+ ".pdf" :=
                       [Aggregator.page_of_image self img] ]> temp))
        as (temp' & Hrun & Hold & Hnew).
      exists temp'. split; [|split].
      * rewrite Hrun. simpl. rewrite Ei. by rewrite <- app_assoc.
      * intros name Hname. rewrite Hold.
        -- apply lookup_insert_ne. intros Heq. apply (Hname f); [by left|done|done].
        -- intros g Hg. apply Hname. by right.
      * intros pre g img' suf Heq Hig Hog Hlast.
        destruct pre as [|f' pre']; simpl in Heq; injection Heq as <- ->.
        -- rewrite Hold.
           ++ rewrite lookup_insert_eq. rewrite Hopen in Hog. by injection Hog as ->.
           ++ intros g' Hg' Hig' Heq. apply append_inj_r in Heq.
              by apply (Hlast g' Hg' Hig').
        -- by apply (Hnew pre' g img' suf).
    + assert (Utils.is_pdf f = true) as Ep by (by destruct (Utils.is_pdf f)).
      assert (Hbody : body acc f temp = (temp, inr (acc ++ [Aggregator.given f]))).
      { unfold body. by rewrite Ei, Ep. }
      rewrite Hbody.
      destruct (IH Hvalid Himg (acc ++ [Aggregator.given f]) temp)
        as (temp' & Hrun & Hold & Hnew).
      exists temp'. split; [|split].
      * rewrite Hrun. simpl. rewrite Ei. by rewrite <- app_assoc.
      * intros name Hname. apply Hold. intros g Hg. apply Hname. by right.
      * intros pre g img' suf Heq Hig Hog Hlast.
        destruct pre as [|f' pre']; simpl in Heq; injection Heq as <- ->.
        -- congruence.
        -- by apply (Hnew pre' g img' suf).
Qed.

(** [_merge_pdfs] reads the parts in order and does not write. *)
Lemma merge_pdfs_run (parts : list Aggregator.part) (docs : list (list Page))
    (temp : gmap string (list Page)) :
  Forall2 (fun part doc => Aggregator.open_part part temp = (temp, inr doc))
          parts docs ->
  forall acc : list Page,
    foldM (fun merged pdf_path =>
             let* src := Aggregator.open_part pdf_path in
             let page_count := len src in
             let* imported := lift (import_pages src (range 0 page_count)) in
             ret (merged ++ imported)) parts acc temp
    = (temp, inr (acc ++ concat docs)).
Proof.
  induction 1 as [|part doc parts docs Hpart _ IH]; intros acc; simpl.
  - by rewrite app_nil_r.
  - unfold bind at 1. unfold bind at 1. rewrite Hpart.
    unfold bind at 1. unfold lift at 1. rewrite import_all. unfold ret at 1.
    rewrite IH. by rewrite <- app_assoc.
Qed.


Lemma merge_run (self : Aggregator.t) (files : list string)
    (docs : list (list Page)) :
  Forall (fun f => exists p, Utils.validate_file f = inr p) files ->
  Forall (fun f => Utils.is_image f = true ->
                   exists img, image_open f = inr img) files ->
  (forall temp' : gmap string (list Page),
     (forall pre f img suf,
        files = pre ++ f :: suf ->
        Utils.is_image f = true -> image_open f = inr img ->
        (forall g, g ∈ suf -> Utils.is_image g = true ->
                   path_stem g <> path_stem f) ->
        temp' !! (path_stem f +:+ ".pdf")
        = Some [Aggregator.page_of_image self img]) ->
     Forall2 (fun f doc =>
                Aggregator.open_part
                  (if Utils.is_image f
                   then Aggregator.in_temp_dir (path_stem f +:+ ".pdf")
                   else Aggregator.given f) temp' = (temp', inr doc))
             files docs) ->
  Aggregator.merge self files = inr (concat docs).
Proof.
  intros Hvalid Himg Hdocs. unfold Aggregator.merge.
  unfold bind at 1. unfold lift at 1. rewrite (traverse_validate files Hvalid).
  unfold bind at 1.
  destruct (merge_parts_run self files Hvalid Himg [] ∅)
    as (temp' & Hrun & _ & Hnew).
  rewrite Hrun. unfold Aggregator._merge_pdfs.
  rewrite (merge_pdfs_run _ docs temp'); [done|].
  rewrite app_nil_l.
  change (List.map ?f files) with (f <$> files).
  apply Forall2_fmap_l. by apply Hdocs.
Qed.


(** X23.  Two images with the same stem share one temporary PDF, and the
    second overwrites the first before anything is merged: the merged
    document of two such images holds the page of the second image twice,
    and the first image is lost. *)
Theorem merge_same_stem (self : Aggregator.t) (a b : string) (ia ib : Image) :
  (exists p, Utils.validate_file a = inr p) ->
  (exists p, Utils.validate_file b = inr p) ->
  Utils.is_image a = true -> Utils.is_image b = true ->
  image_open a = inr ia -> image_open b = inr ib ->
  path_stem a = path_stem b ->
  Aggregator.merge self [a; b]
  = inr [Aggregator.page_of_image self ib; Aggregator.page_of_image self ib].
Proof.
  intros Hva Hvb Hia Hib Hoa Hob Hstem.
  apply (merge_run self [a; b]
           [[Aggregator.page_of_image self ib]; [Aggregator.page_of_image self ib]]).
  - by repeat constructor.
  - repeat constructor; eauto.
  - intros temp' Hnew.
    assert (temp' !! (path_stem b +:+ ".pdf")
            = Some [Aggregator.page_of_image self ib]) as Hb.
    { apply (Hnew [a] b ib []); try done. by intros g ?%elem_of_nil. }
    repeat constructor; [rewrite Hia, Hstem|rewrite Hib];
      unfold Aggregator.open_part, bind, get; by rewrite Hb.
Qed.

End FilesProperties.

(** ** The further properties at concrete inputs *)

(** Replaces the scrutinee of a [match] in [W] by its value [v]. *)
Ltac evaluated W v :=
  match type of W with
  | context [match ?t with _ => _ end] =>
      replace t with v in W by (by vm_compute)
  end.

(** A white 4x4 page with one region, in black. *)
Lemma apply_masks_flat_pixels_witness :
  exists (v' : PIL.Image) (ink : PIL.pixel),
    Masker.returned
      (Masker._apply_masks (H := Fixture.services) Masker.new 0%nat
         [Region.mk 1 1 2 2] "black" Fixture.heap0) = inr v'
    /\ PIL.getcolor "black" PIL.RGB = inr ink
    /\ (forall (x y : Z) (p : PIL.pixel),
          PIL.getpixel Fixture.white4 x y = Some p ->
          PIL.getpixel v' x y =
          Some (if List.existsb
                     (fun r => Masker.visible 4 4 r
                               && PIL.on_box (Masker.clamp 4 4 r) x y)
                     [Region.mk 1 1 2 2]
                then ink else p))
    /\ (forall x y : Z,
          PIL.getpixel Fixture.white4 x y = None -> PIL.getpixel v' x y = None).
Proof.
  apply (apply_masks_flat_pixels (H := Fixture.services) Masker.new Fixture.heap0
           0%nat Fixture.white4 [Region.mk 1 1 2 2] "black"); reflexivity.
Defined.

(** Two regions, in another order and one of them twice. *)
Lemma apply_masks_flat_order_free_witness :
  Masker.returned
    (Masker._apply_masks (H := Fixture.services) Masker.new 0%nat
       [Region.mk 0 0 1 1; Region.mk 1 1 2 2] "white" Fixture.heap0)
  = Masker.returned
      (Masker._apply_masks (H := Fixture.services) Masker.new 0%nat
         [Region.mk 1 1 2 2; Region.mk 0 0 1 1; Region.mk 1 1 2 2] "white"
         Fixture.heap0).
Proof.
  apply (apply_masks_flat_order_free (H := Fixture.services) Masker.new
           Fixture.heap0 0%nat Fixture.white4).
  - reflexivity.
  - reflexivity.
  - intros r. rewrite !elem_of_cons, !elem_of_nil. tauto.
Defined.

(** One region, then another, on a white 4x4 page. *)
Lemma apply_masks_composes_witness :
  Masker.returned
    (Masker._apply_masks (H := Fixture.services) Masker.new 0%nat
       ([Region.mk 0 0 1 1] ++ [Region.mk 1 1 2 2]) "blur" Fixture.heap0)
  = match Masker._apply_masks (H := Fixture.services) Masker.new 0%nat
            [Region.mk 0 0 1 1] "blur" Fixture.heap0 with
    | (h1, inr img1) =>
        Masker.returned
          (Masker._apply_masks (H := Fixture.services) Masker.new img1
             [Region.mk 1 1 2 2] "blur" h1)
    | (_, inl e) => inl e
    end.
Proof.
  apply (apply_masks_composes (H := Fixture.services) Masker.new Fixture.heap0
           0%nat Fixture.white4).
  reflexivity.
Defined.

Lemma apply_masks_flat_idempotent_witness :
  exists (h1 : list PIL.Image) (img1 : nat) (v1 : PIL.Image),
    Masker._apply_masks (H := Fixture.services) Masker.new 0%nat
      [Region.mk 1 1 2 2] "black" Fixture.heap0 = (h1, inr img1)
    /\ h1 !! img1 = Some v1
    /\ Masker.returned
         (Masker._apply_masks (H := Fixture.services) Masker.new img1
            [Region.mk 1 1 2 2] "black" h1) = inr v1.
Proof.
  apply (apply_masks_flat_idempotent (H := Fixture.services) Masker.new
           Fixture.heap0 0%nat Fixture.white4); reflexivity.
Defined.

(** The blur of the test services keeps the size of its argument. *)
Lemma apply_masks_blur_outside_witness :
  exists v' : PIL.Image,
    Masker.returned
      (Masker._apply_masks (H := Fixture.services) Masker.new 0%nat
         [Region.mk 1 1 2 2] "blur" Fixture.heap0) = inr v'
    /\ forall x y : Z,
         (forall r, r ∈ [Region.mk 1 1 2 2] ->
            PIL.within (Masker.clamp 4 4 r) x y = false) ->
         PIL.getpixel v' x y = PIL.getpixel Fixture.white4 x y.
Proof.
  apply (apply_masks_blur_outside (H := Fixture.services) Masker.new Fixture.heap0
           0%nat Fixture.white4 [Region.mk 1 1 2 2]).
  - reflexivity.
  - intros radius im. split; reflexivity.
Defined.

(** An RGB image and a greyscale image. *)
Lemma images_to_pdf_pages_witness :
  exists (h' : list PIL.Image) (out : list PIL.Image),
    Masker._images_to_pdf [0%nat; 1%nat] [Fixture.white4; Fixture.grey4]
    = (h', inr out)
    /\ take 2 h' = [Fixture.white4; Fixture.grey4]
    /\ Forall2 (fun v o =>
                  PIL.mode o = PIL.RGB /\ PIL.width o = PIL.width v
                  /\ PIL.height o = PIL.height v
                  /\ (PIL.mode v = PIL.RGB -> o = v)
                  /\ forall x y, PIL.getpixel o x y
                                 = PIL.to_rgb_pixel (PIL.mode v) <$> PIL.getpixel v x y)
               [Fixture.white4; Fixture.grey4] out.
Proof.
  apply (images_to_pdf_pages [Fixture.white4; Fixture.grey4] [0%nat; 1%nat]
           [Fixture.white4; Fixture.grey4]).
  repeat constructor.
Defined.

(** "two.pdf" with its second page masked. *)
Lemma redact_pages_rgb_same_size_witness :
  exists (h' : list PIL.Image) (out : list PIL.Image),
    Masker.redact (H := Fixture.services) Masker.new "two.pdf"
      {[ 2 := [Region.mk 1 1 2 2] ]} "black" [] = (h', inr out)
    /\ take 0 h' = []
    /\ Forall2 (fun page o =>
                  PIL.mode o = PIL.RGB
                  /\ PIL.width o = PIL.width page
                  /\ PIL.height o = PIL.height page)
               [Fixture.white4; Fixture.grey4] out.
Proof.
  apply (redact_pages_rgb_same_size (H := Fixture.services) Masker.new "two.pdf"
           [Fixture.white4; Fixture.grey4] {[ 2 := [Region.mk 1 1 2 2] ]} "black" []).
  - reflexivity.
  - discriminate.
  - intros Hblur. vm_compute in Hblur. discriminate.
Defined.

(** "two.pdf" and the page number 7. *)
Lemma redact_page_masks_one_page_witness :
  exists (h' : list PIL.Image) (out : list PIL.Image),
    Masker.redact_page (H := Fixture.services) Masker.new "two.pdf" 7
      [Region.mk 1 1 2 2] "black" [] = (h', inr out)
    /\ length out = 2%nat
    /\ (forall (i : nat) (page : PIL.Image),
          [Fixture.white4; Fixture.grey4] !! i = Some page ->
          if Z.of_nat i + 1 =? 7 then
            exists v : PIL.Image,
              Masker.returned
                (Masker._apply_masks (H := Fixture.services) Masker.new 0%nat
                   [Region.mk 1 1 2 2] "black" [page]) = inr v
              /\ out !! i = Some (Masker.encoded v)
          else out !! i = Some (Masker.encoded page))
    /\ (~ 1 <= 7 <= 2 ->
        out = List.map (fun page => Masker.encoded page)
                [Fixture.white4; Fixture.grey4]).
Proof.
  apply (redact_page_masks_one_page (H := Fixture.services) Masker.new "two.pdf"
           [Fixture.white4; Fixture.grey4] 7 [Region.mk 1 1 2 2] "black" []).
  - reflexivity.
  - discriminate.
  - intros Hblur. vm_compute in Hblur. discriminate.
Defined.

(** The range "1-5, 9" and the page "3" with a range whose end has 4301
    digits, joined either way. *)
Lemma parse_page_range_comma_witness :
  (exists pab : list Z,
     parse_page_range ("1-5" +:+ "," +:+ "9, 2") 10 = inr pab
     /\ parse_page_range ("9, 2" +:+ "," +:+ "1-5") 10 = inr pab
     /\ parse_page_range ("1-5" +:+ "," +:+ "1-5") 10 = inr [0; 1; 2; 3; 4]
     /\ StronglySorted Z.lt pab
     /\ forall p : Z, p ∈ pab <-> p ∈ [0; 1; 2; 3; 4] \/ p ∈ [1; 8])
  /\ parse_page_range ("3" +:+ "," +:+ ("1-" +:+ Fixture.zeros 4301)) 10
     = inl (PyStr.digits_error 4301)
  /\ parse_page_range (("1-" +:+ Fixture.zeros 4301) +:+ "," +:+ "3") 10
     = inl (PyStr.digits_error 4301).
Proof.
  split.
  - pose proof (parse_page_range_comma "1-5" "9, 2" 10) as W.
    assert (Ha : parse_page_range "1-5" 10 = inr [0; 1; 2; 3; 4]) by (by vm_compute).
    assert (Hb : parse_page_range "9, 2" 10 = inr [1; 8]) by (by vm_compute).
    rewrite Ha, Hb in W. exact W.
  - pose proof (parse_page_range_comma "3" ("1-" +:+ Fixture.zeros 4301) 10) as W.
    assert (Ha : parse_page_range "3" 10 = inr [2]) by (by vm_compute).
    assert (Hb : parse_page_range ("1-" +:+ Fixture.zeros 4301) 10
                 = inl (PyStr.digits_error 4301)) by (by vm_compute).
    rewrite Ha, Hb in W. exact W.
Defined.

(** The range "1-5, 9" in documents of 3 and of 10 pages, and a range whose
    start has 4301 digits. *)
Lemma parse_page_range_clip_witness :
  (parse_page_range "1-5, 9" 3
   = inr (List.filter (fun p => p <? 3) [0; 1; 2; 3; 4; 8])
   /\ (3 <= 0 -> parse_page_range "1-5, 9" 3 = inr []))
  /\ parse_page_range (Fixture.zeros 4300 +:+ "1-2") 3
     = inl (PyStr.digits_error 4301).
Proof.
  split.
  - pose proof (parse_page_range_clip "1-5, 9" 3 10 ltac:(lia)) as W.
    assert (Hp : parse_page_range "1-5, 9" 10 = inr [0; 1; 2; 3; 4; 8])
      by (by vm_compute).
    rewrite Hp in W. exact W.
  - pose proof (parse_page_range_clip (Fixture.zeros 4300 +:+ "1-2") 3 10
                  ltac:(lia)) as W.
    assert (Hp : parse_page_range (Fixture.zeros 4300 +:+ "1-2") 10
                 = inl (PyStr.digits_error 4301)) by (by vm_compute).
    rewrite Hp in W. exact W.
Defined.

(** The page 7 and the range 2-40 in a document of 10 pages. *)
Lemma parse_page_range_plain_witness :
  parse_page_range (pretty 7) 10
  = inr (if (1 <=? 7) && (7 <=? 10)
            && (Z.of_nat (String.length (pretty 7)) <=? PyStr.max_str_digits)
         then [7 - 1] else [])
  /\ parse_page_range (pretty 2 +:+ "-" +:+ pretty 40) 10
     = if PyStr.max_str_digits <? Z.of_nat (String.length (pretty 2))
       then inl (PyStr.digits_error (Z.of_nat (String.length (pretty 2))))
       else if PyStr.max_str_digits <? Z.of_nat (String.length (pretty 40))
       then inl (PyStr.digits_error (Z.of_nat (String.length (pretty 40))))
       else inr (seqZ (Z.max 2 1 - 1) (Z.min 40 10 - Z.max 2 1 + 1)).
Proof. apply (parse_page_range_plain 2 40 7 10); lia. Defined.

(** The range "5, 1-3" in a document of 4 pages. *)
Lemma parse_page_range_pages_witness :
  exists pages : list Z,
    parse_page_range "5, 1-3" 4 = inr pages
    /\ StronglySorted Z.lt pages
    /\ forall p : Z,
         p ∈ pages <->
         0 <= p < 4
         /\ exists part, part ∈ parts_of "5, 1-3" /\ selects part (p + 1).
Proof.
  pose proof (proj1 parse_page_range_pages "5, 1-3" 4) as W.
  assert (He : List.existsb overlong (parts_of "5, 1-3") = false) by (by vm_compute).
  rewrite He in W. exact W.
Defined.

(** A session that loads "two.pdf", selects a region, changes the mask
    type, selects a region that is too small, and exports. *)
Lemma session_regions_large_witness :
  FileskadisApp.regions_large
    (FileskadisApp.session_after (H := Fixture.services)
       [FileskadisApp.mask_file_change (Some "two.pdf");
        FileskadisApp.mask_preview_select (Some "two.pdf") "blur" (0, 0);
        FileskadisApp.mask_preview_select (Some "two.pdf") "blur" (3, 3);
        FileskadisApp.mask_type_change (Some "two.pdf") "black";
        FileskadisApp.mask_preview_select (Some "two.pdf") "black" (10, 10);
        FileskadisApp.mask_preview_select (Some "two.pdf") "black" (20, 12);
        FileskadisApp.mask_apply_btn_click (Some "two.pdf") "black"]
       (FileskadisApp.init, [])).1.
Proof.
  apply (session_regions_large (H := Fixture.services)). constructor.
Defined.

(** A pending corner at (3, 4), a second click at (20, 30), then undo. *)
Lemma undo_after_selection_witness :
  let s1 :=
    (FileskadisApp.handle_image_click (H := Fixture.services) (Some "two.pdf")
       "black" (20, 30) (Fixture.selecting, Fixture.heap0)).1 in
  let app2 :=
    FileskadisApp.after
      (FileskadisApp.remove_last_region (H := Fixture.services) (Some "two.pdf")
         "black" s1) in
  (5 < Z.abs (20 - 3) /\ 5 < Z.abs (30 - 4) ->
   app2 = FileskadisApp.set_click_start None Fixture.selecting)
  /\ (~ (5 < Z.abs (20 - 3) /\ 5 < Z.abs (30 - 4)) ->
      app2 = FileskadisApp.set_click_start None
               (FileskadisApp.set_regions
                  (removelast (FileskadisApp._regions Fixture.selecting))
                  Fixture.selecting)).
Proof.
  apply (undo_after_selection (H := Fixture.services) (Some "two.pdf") "black"
           3 4 20 30 Fixture.selecting Fixture.heap0).
  - reflexivity.
  - by exists 0%nat.
  - reflexivity.
Defined.

(** The slider at 5 on the two pages of "two.pdf", then two clicks and the
    export. *)
Lemma stale_page_masks_nothing_witness :
  let s3 :=
    FileskadisApp.session_after (H := Fixture.services)
      [FileskadisApp.mask_page_change (Some "two.pdf") 5;
       FileskadisApp.mask_preview_select (Some "two.pdf") "black" (0, 0);
       FileskadisApp.mask_preview_select (Some "two.pdf") "black" (10, 10)]
      (Fixture.loaded, Fixture.heap0) in
  FileskadisApp._current_page s3.1 = 5
  /\ FileskadisApp._regions s3.1
     = [Region.mk (Z.min 0 10) (Z.min 0 10) (Z.abs (10 - 0)) (Z.abs (10 - 0))]
  /\ exists h' : list PIL.Image,
       FileskadisApp.apply_mask (H := Fixture.services) (Some "two.pdf") "black" s3
       = ((s3.1, h'),
          inr (Some (List.map (fun page => Masker.encoded page)
                       [Fixture.white4; Fixture.grey4]),
               "Created masked PDF with 1 redaction(s)")).
Proof.
  apply (stale_page_masks_nothing (H := Fixture.services) "two.pdf"
           [Fixture.white4; Fixture.grey4] 5 0 0 10 10 "black" Fixture.loaded
           Fixture.heap0).
  - reflexivity.
  - reflexivity.
  - discriminate.
  - right. vm_compute. reflexivity.
  - by exists 0%nat.
  - split; vm_compute; reflexivity.
Defined.

(** A document without pages, loaded over a session on "two.pdf". *)
Lemma load_mask_pdf_outcomes_witness :
  FileskadisApp.load_mask_pdf (H := Fixture.services) (Some "empty.pdf")
    (Fixture.selecting, Fixture.heap0)
  = ((FileskadisApp.set_click_start None
        (FileskadisApp.set_regions []
           (FileskadisApp.set_current_page 1
              (FileskadisApp.set_current_pdf (Some "empty.pdf")
                 Fixture.selecting))),
      Fixture.heap0),
     inr (None, "Error: Page 1 out of range", 1, "")).
Proof.
  apply (load_mask_pdf_outcomes (H := Fixture.services) "empty.pdf"
           Fixture.selecting Fixture.heap0).
  reflexivity.
Defined.

(** The second page of "two.pdf". *)
Lemma change_mask_page_in_range_witness :
  FileskadisApp.change_mask_page (H := Fixture.services) (Some "two.pdf") 2
    (Fixture.selecting, Fixture.heap0)
  = ((FileskadisApp.set_base_image (Some 2%nat)
        (FileskadisApp.set_click_start None
           (FileskadisApp.set_regions []
              (FileskadisApp.set_current_page 2 Fixture.selecting))),
      [Fixture.white4; Fixture.grey4; Fixture.grey4]),
     inr (Some 1%nat, "Page 2/2 — Click to draw rectangles", "")).
Proof.
  apply (change_mask_page_in_range (H := Fixture.services) "two.pdf"
           [Fixture.white4; Fixture.grey4] 2 Fixture.grey4 Fixture.selecting
           Fixture.heap0); [reflexivity|reflexivity|lia|reflexivity].
Defined.

(** The range "2,1,1" on "two.pdf", and a range whose start has 4301
    digits. *)
Lemma extract_single_pages_witness :
  (StronglySorted Z.lt [0; 1]
   /\ exists out : list PIL.Image,
        Separator.extract_single (H := Fixture.services) "two.pdf" "2,1,1"
        = inr out
        /\ Forall2 (fun p page =>
                      [Fixture.white4; Fixture.grey4] !! Z.to_nat p = Some page)
                   [0; 1] out)
  /\ Separator.extract_single (H := Fixture.services) "two.pdf"
       (Fixture.zeros 4300 +:+ "1-2")
     = inl (PyStr.digits_error 4301).
Proof.
  split.
  - pose proof (extract_single_pages (H := Fixture.services) "two.pdf"
                  [Fixture.white4; Fixture.grey4] "2,1,1" ltac:(reflexivity)) as W.
    evaluated W (inr [0; 1] : exn + list Z). exact W.
  - pose proof (extract_single_pages (H := Fixture.services) "two.pdf"
                  [Fixture.white4; Fixture.grey4] (Fixture.zeros 4300 +:+ "1-2")
                  ltac:(reflexivity)) as W.
    evaluated W (inl (PyStr.digits_error 4301) : exn + list Z). exact W.
Defined.

(** The second page of "two.pdf" as an image, at 150 dpi, and a range whose
    start has 4301 digits. *)
Lemma extract_one_file_per_page_witness :
  let name := fun p : Z => "two" +:+ "_page" +:+ pretty (p + 1) +:+ ".png" in
  let content := fun page : PIL.Image =>
    Separator.png_file (H := Fixture.services) page in
  let dir : gmap string (Separator.file (H := Fixture.services)) := ∅ in
  (StronglySorted Z.lt [1]
   /\ exists dir' : gmap string (Separator.file (H := Fixture.services)),
        Separator.extract (H0 := Fixture.files) Separator.new "two.pdf" "2" true dir
        = (dir', inr (name <$> [1]))
        /\ NoDup (name <$> [1])
        /\ (forall p, p ∈ [1] ->
              exists page, [Fixture.white4; Fixture.grey4] !! Z.to_nat p = Some page
                           /\ dir' !! name p = Some (content page))
        /\ (forall n, n ∉ (name <$> [1]) -> dir' !! n = dir !! n))
  /\ Separator.extract (H0 := Fixture.files) Separator.new "two.pdf"
       (Fixture.zeros 4300 +:+ "1-2") true dir
     = (dir, inl (PyStr.digits_error 4301)).
Proof.
  intros name content dir. split.
  - pose proof (extract_one_file_per_page (H0 := Fixture.files) Separator.new
                  "two.pdf" [Fixture.white4; Fixture.grey4] "2" true
                  (PyFloat.Finite 4691249611844267 (-51)) ∅
                  ltac:(reflexivity) ltac:(vm_compute; reflexivity)) as W.
    cbv zeta in W. evaluated W (inr [1] : exn + list Z). exact W.
  - pose proof (extract_one_file_per_page (H0 := Fixture.files) Separator.new
                  "two.pdf" [Fixture.white4; Fixture.grey4]
                  (Fixture.zeros 4300 +:+ "1-2") true
                  (PyFloat.Finite 4691249611844267 (-51)) ∅
                  ltac:(reflexivity) ltac:(vm_compute; reflexivity)) as W.
    cbv zeta in W. evaluated W (inl (PyStr.digits_error 4301) : exn + list Z). exact W.
Defined.

(** The first page of "two.pdf", extracted into a directory that holds a
    page of an earlier extraction, and a range whose start has 4301 digits. *)
Lemma separate_pages_archive_witness :
  let name := fun p : Z => "two" +:+ "_page" +:+ pretty (p + 1) +:+ ".pdf" in
  let dir : gmap string (Separator.file (H := Fixture.services)) :=
    {[ "old_page3.pdf" := Separator.pdf_file (H := Fixture.services) [Fixture.grey4] ]} in
  (exists dir' : gmap string (Separator.file (H := Fixture.services)),
     FileskadisApp.separate_pages (H0 := Fixture.files) (Some "two.pdf") "1"
       false dir
     = (dir', inr (Some (FileskadisApp.zip_download dir'),
                   "Extracted " +:+ pretty (len [0]) +:+ " pages"))
     /\ (forall p, p ∈ [0] ->
           exists page, [Fixture.white4; Fixture.grey4] !! Z.to_nat p = Some page
                        /\ dir' !! name p
                           = Some (Separator.pdf_file (H := Fixture.services)
                                     [page]))
     /\ (forall n f, dir !! n = Some f -> n ∉ (name <$> [0]) ->
           dir' !! n = Some f))
  /\ FileskadisApp.separate_pages (H0 := Fixture.files) (Some "two.pdf")
       (Fixture.zeros 4300 +:+ "1-2") false dir
     = (dir, inr (None, "Error: " +:+ exn_msg (PyStr.digits_error 4301))).
Proof.
  intros name dir. split.
  - pose proof (separate_pages_archive (H0 := Fixture.files) "two.pdf"
                  [Fixture.white4; Fixture.grey4] "1" dir
                  ltac:(reflexivity) ltac:(reflexivity) ltac:(reflexivity)) as W.
    cbv zeta in W. evaluated W (inr [0] : exn + list Z). exact W.
  - pose proof (separate_pages_archive (H0 := Fixture.files) "two.pdf"
                  [Fixture.white4; Fixture.grey4] (Fixture.zeros 4300 +:+ "1-2") dir
                  ltac:(reflexivity) ltac:(vm_compute; reflexivity)
                  ltac:(reflexivity)) as W.
    cbv zeta in W. evaluated W (inl (PyStr.digits_error 4301) : exn + list Z). exact W.
Defined.


(** The two images named "scan". *)
Lemma merge_same_stem_witness :
  Aggregator.merge (H0 := Fixture.files) Aggregator.new ["a/scan.png"; "b/scan.jpg"]
  = inr [Fixture.grey4; Fixture.grey4].
Proof.
  apply (merge_same_stem (H0 := Fixture.files) Aggregator.new
           "a/scan.png" "b/scan.jpg" Fixture.white4 Fixture.grey4).
  - eexists. vm_compute. reflexivity.
  - eexists. vm_compute. reflexivity.
  - vm_compute. reflexivity.
  - vm_compute. reflexivity.
  - reflexivity.
  - reflexivity.
  - reflexivity.
Defined.

(** The first page of "two.pdf" with the region of the session, in black. *)
Lemma apply_mask_current_page_witness :
  exists (h' : list PIL.Image) (out : list PIL.Image),
    FileskadisApp.apply_mask (H := Fixture.services) (Some "two.pdf") "black"
      (Fixture.selecting, Fixture.heap0)
    = ((Fixture.selecting, h'),
       inr (Some out,
            "Created masked PDF with "
            +:+ pretty (len (FileskadisApp._regions Fixture.selecting))
            +:+ " redaction(s)"))
    /\ take 1 h' = Fixture.heap0
    /\ length out = 2%nat
    /\ forall (i : nat) (page : PIL.Image),
         [Fixture.white4; Fixture.grey4] !! i = Some page ->
         if Z.of_nat i + 1 =? 1 then
           exists v : PIL.Image,
             Masker.returned
               (Masker._apply_masks (H := Fixture.services) Masker.new 0%nat
                  [Region.mk 1 1 10 10] "black" [page]) = inr v
             /\ out !! i = Some (Masker.encoded v)
         else out !! i = Some (Masker.encoded page).
Proof.
  apply (apply_mask_current_page (H := Fixture.services) "two.pdf"
           [Fixture.white4; Fixture.grey4] "black" Fixture.selecting Fixture.heap0).
  - reflexivity.
  - reflexivity.
  - discriminate.
  - discriminate.
  - intros Hblur. vm_compute in Hblur. discriminate.
Defined.
